(** * The curated-list generator of SingularityMM

    A shallow embedding of [.github/scripts/generate_curated_list.cjs].
    The repository holds two versions of the script:

    - the _signal_ version asks Nexus once for the identifiers updated in
      the last week and fetches only new, updated or incomplete records;
    - the _timestamp_ version fetches the summary of every tracked mod and
      compares its [updated_timestamp] with the cached one.

    Both are embedded below ([Module Signal], [Module Timestamp]) on top of
    a common layer: JSON values with the JavaScript operations the script
    applies to them, the network seen as an oracle, and a small state and
    exception monad that records every request the script issues.

    Conventions of the embedding.
    - A JSON number is an integer ([Z]): identifiers, timestamps and
      counters are integers; fractions and exponents are outside the model.
    - A string is a sequence of ASCII characters; [trim] removes the ASCII
      white space of ECMAScript (tab, line feed, vertical tab, form feed,
      carriage return, space).
    - [undefined] is [None] in [option json].
    - An object is a finite map from keys to values: the order of the keys
      in the serialised text is not represented.
    - Diagnostic output ([console.error], the summaries) is not recorded,
      except the three "Queueing" lines, which carry the fetch reason. *)

From Stdlib Require Import ZArith String Ascii List Lia DecimalString.
From stdpp Require Import base strings gmap list.

Set Warnings "-register-all".
Local Open Scope string_scope.

(** ** JSON values and the JavaScript operations on them *)

Inductive json :=
| JNull
| JBool (b : bool)
| JNum (n : Z)
| JStr (s : string)
| JArr (l : list json)
| JObj (m : gmap string json).

(** A JavaScript value met by the script: a JSON value or [undefined]. *)
Abbreviation jsval := (option json).
Abbreviation undefined := (@None json).

(** An object under construction; a property may hold [undefined]. *)
Abbreviation jsobj := (gmap string (option json)).

(** [ToBoolean]: what [if (v)], [!v], [a && b], [a || b] test. *)
Definition truthy (v : json) : bool :=
  match v with
  | JNull => false
  | JBool b => b
  | JNum n => negb (Z.eqb n 0)
  | JStr s => negb (String.eqb s "")
  | JArr _ | JObj _ => true
  end.

Definition toBoolean (v : jsval) : bool :=
  match v with
  | Some j => truthy j
  | None => false
  end.

Definition string_of_nat (n : nat) : string :=
  NilZero.string_of_uint (Nat.to_uint n).

Definition string_of_Z (n : Z) : string :=
  NilZero.string_of_int (Z.to_int n).

Fixpoint join_comma (l : list string) : string :=
  match l with
  | [] => ""
  | [s] => s
  | s :: rest => s ++ "," ++ join_comma rest
  end.

(** [String(v)] on a JSON value. An array prints its elements separated
    by commas, [null] elements as the empty string. *)
Fixpoint js_String (v : json) : string :=
  match v with
  | JNull => "null"
  | JBool true => "true"
  | JBool false => "false"
  | JNum n => string_of_Z n
  | JStr s => s
  | JArr l =>
      join_comma
        (map (fun x => match x with JNull => "" | _ => js_String x end) l)
  | JObj _ => "[object Object]"
  end.

Definition toString (v : jsval) : string :=
  match v with
  | Some j => js_String j
  | None => "undefined"
  end.

Definition is_white_space (c : ascii) : bool :=
  let n := nat_of_ascii c in
  ((9 <=? n) && (n <=? 13))%nat || (n =? 32)%nat.

Fixpoint trim_start (l : list ascii) : list ascii :=
  match l with
  | c :: rest => if is_white_space c then trim_start rest else l
  | [] => []
  end.

(** [s.trim()] *)
Definition trim (s : string) : string :=
  string_of_list_ascii
    (rev (trim_start (rev (trim_start (list_ascii_of_string s))))).

(** Own enumerable properties: what [v.key] and the spread [{...v}] see.
    Arrays and strings expose their indices; [length] and the prototype
    methods are not modelled, the script reads none of them. *)
Definition index_props {A} (f : A -> json) (l : list A) : gmap string json :=
  list_to_map (imap (fun i x => (string_of_nat i, f x)) l).

Definition own_props (v : json) : gmap string json :=
  match v with
  | JObj m => m
  | JArr l => index_props (fun x => x) l
  | JStr s =>
      index_props (fun c => JStr (String c EmptyString)) (list_ascii_of_string s)
  | JNull | JBool _ | JNum _ => ∅
  end.

(** [v.key] where [v] is known not to be [null]. *)
Definition prop (v : json) (key : string) : jsval := own_props v !! key.

(** [a === b]. Two arrays or two objects are equal only when they are the
    same reference; the values compared by the script come from two
    different [JSON.parse] results, hence never are. *)
Definition strict_eq (a b : jsval) : bool :=
  match a, b with
  | None, None => true
  | Some JNull, Some JNull => true
  | Some (JBool x), Some (JBool y) => Bool.eqb x y
  | Some (JNum x), Some (JNum y) => Z.eqb x y
  | Some (JStr x), Some (JStr y) => String.eqb x y
  | _, _ => false
  end.

(** [JSON.parse(JSON.stringify(o))] on a result record: the properties
    holding [undefined] are left out, the others are JSON already. *)
Definition stringify (o : jsobj) : json := JObj (omap (fun v => v) o).

(** ** Exceptions, state and the network *)

Inductive exn := TypeError | SyntaxError | IOError | NetworkError | RATE_LIMIT.

Inductive outcome (A : Type) :=
| Normal (a : A)
| Throw (e : exn)
| OutOfFuel.
Arguments Normal {A} a.
Arguments Throw {A} e.
Arguments OutOfFuel {A}.

(** [v.key] for any [v]: reading a property of [null] throws. *)
Definition js_get (v : json) (key : string) : outcome jsval :=
  match v with
  | JNull => Throw TypeError
  | _ => Normal (prop v key)
  end.

Definition bindO {A B} (o : outcome A) (k : A -> outcome B) : outcome B :=
  match o with
  | Normal a => k a
  | Throw e => Throw e
  | OutOfFuel => OutOfFuel
  end.

(** [l.map(f)] where [f] may throw *)
Fixpoint mapO {A B} (f : A -> outcome B) (l : list A) : outcome (list B) :=
  match l with
  | [] => Normal []
  | a :: rest =>
      bindO (f a) (fun b => bindO (mapO f rest) (fun bs => Normal (b :: bs)))
  end.

(** [l.filter(f)] where [f] may throw *)
Fixpoint filterO {A} (f : A -> outcome bool) (l : list A) : outcome (list A) :=
  match l with
  | [] => Normal []
  | a :: rest =>
      bindO (f a) (fun b =>
      bindO (filterO f rest) (fun l' => Normal (if b then a :: l' else l')))
  end.

Inductive endpoint :=
| Updated
| Info (modId : string)
| Files (modId : string)
| Changelogs (modId : string).

(** What [fetch(url)] gives: a rejected promise, or a response with its
    status and its body; [body = None] is a body [response.json()]
    rejects. *)
Inductive response :=
| NetworkFailure
| Response (status : Z) (body : option json).

Definition response_ok (status : Z) : bool :=
  (200 <=? status)%Z && (status <=? 299)%Z.

Inductive reason := New | UpdatedUpstream | MissingData.

Inductive event :=
| Fetch (e : endpoint)
| Queueing (modId : string) (r : reason)
| Settled
| Delay (ms : nat)
| WriteFile (catalog : json).

Record state := mkState { apiCallCount : nat; trace : list event }.

Definition M (A : Type) : Type := state -> outcome A * state.

Definition ret {A} (a : A) : M A := fun st => (Normal a, st).

Definition bind {A B} (m : M A) (k : A -> M B) : M B :=
  fun st =>
    match m st with
    | (Normal a, st') => k a st'
    | (Throw e, st') => (Throw e, st')
    | (OutOfFuel, st') => (OutOfFuel, st')
    end.

Definition throw {A} (e : exn) : M A := fun st => (Throw e, st).

(** [try { m } catch (error) { handler error }] *)
Definition try_catch {A} (m : M A) (handler : exn -> M A) : M A :=
  fun st =>
    match m st with
    | (Throw e, st') => handler e st'
    | r => r
    end.

Definition lift {A} (o : outcome A) : M A := fun st => (o, st).

Definition emit (ev : event) : M unit :=
  fun st => (Normal tt, mkState (apiCallCount st) (trace st ++ [ev])%list).

(** [apiCallCount++] *)
Definition count_call : M unit :=
  fun st => (Normal tt, mkState (S (apiCallCount st)) (trace st)).

Declare Scope js_scope.
Delimit Scope js_scope with js.
Notation "'let*' x := m 'in' k" := (bind m (fun x => k))
  (at level 10, x name, m at level 100, k at level 200) : js_scope.
Notation "m ;;; k" := (bind m (fun _ => k))
  (at level 100, right associativity) : js_scope.
Local Open Scope js_scope.

Fixpoint foldM {A B} (f : A -> B -> M A) (a : A) (l : list B) : M A :=
  match l with
  | [] => ret a
  | b :: rest => let* a' := f a b in foldM f a' rest
  end.

Fixpoint mapM {A B} (f : A -> M B) (l : list A) : M (list B) :=
  match l with
  | [] => ret []
  | a :: rest =>
      let* b := f a in
      let* bs := mapM f rest in
      ret (b :: bs)
  end.

Definition BATCH_SIZE : nat := 5.
Definition DELAY_BETWEEN_BATCHES : nat := 1000.

Section Fetchers.

(** The upstream API at the time of the run. *)
Variable net : endpoint -> response.

(** [await fetch(url, { headers })] *)
Definition fetch (e : endpoint) : M (Z * option json) :=
  emit (Fetch e) ;;;
  match net e with
  | NetworkFailure => throw NetworkError
  | Response status body => ret (status, body)
  end.

(** [await response.json()] *)
Definition response_json (body : option json) : M json :=
  match body with
  | Some j => ret j
  | None => throw SyntaxError
  end.

Definition fetchModDataFromNexus (modId : string) : M json :=
  try_catch
    (let* r := fetch (Info modId) in
     if Z.eqb (fst r) 429 then throw RATE_LIMIT
     else if negb (response_ok (fst r)) then ret JNull
     else response_json (snd r))
    (fun error => ret JNull).

Definition fetchModFilesFromNexus (modId : string) : M json :=
  try_catch
    (let* r := fetch (Files modId) in
     if negb (response_ok (fst r)) then ret (JObj {[ "files" := JArr [] ]})
     else response_json (snd r))
    (fun error => ret (JObj {[ "files" := JArr [] ]})).

Definition fetchModChangelogsFromNexus (modId : string) : M json :=
  try_catch
    (let* r := fetch (Changelogs modId) in
     if negb (response_ok (fst r)) then ret (JObj ∅)
     else response_json (snd r))
    (fun error => ret (JObj ∅)).

End Fetchers.

(** ** What the two versions share *)

(** [new Map(modsToProcess.map(mod => [String(mod.id), mod]))] *)
Definition buildWarningsMap (mods : list json) : outcome (gmap string json) :=
  bindO (mapO (fun mod_ => bindO (js_get mod_ "id") (fun id =>
                           Normal (toString id, mod_))) mods)
    (fun pairs => Normal (fold_left (fun m p => <[fst p := snd p]> m) pairs ∅)).

(** [oldJson.forEach(mod => previousDataMap.set(String(mod.mod_id), mod))]:
    a [null] element throws inside the [try]; the map keeps what was set
    before. *)
Fixpoint setPrevious (l : list json) (previousDataMap : gmap string json)
  : gmap string json :=
  match l with
  | [] => previousDataMap
  | JNull :: _ => previousDataMap
  | mod_ :: rest =>
      setPrevious rest (<[toString (prop mod_ "mod_id") := mod_]> previousDataMap)
  end.

(** The previous [curated_list.json]. A file that is missing, not JSON or
    not an array leaves the map empty. *)
Definition loadPreviousCache (cacheFile : option json) : gmap string json :=
  match cacheFile with
  | Some (JArr l) => setPrevious l ∅
  | _ => ∅
  end.

(** [warningInfo ? warningInfo.state : 'normal'] *)
Definition stateOf (warningInfo : jsval) : jsval :=
  match warningInfo with
  | Some w => if truthy w then prop w "state" else Some (JStr "normal")
  | None => Some (JStr "normal")
  end.

(** [warningInfo ? warningInfo.warningMessage : ''] *)
Definition warningMessageOf (warningInfo : jsval) : jsval :=
  match warningInfo with
  | Some w => if truthy w then prop w "warningMessage" else Some (JStr "")
  | None => Some (JStr "")
  end.

(** The object literal returned by the closure of a batch. *)
Definition mergedRecord (warningInfo : jsval) (modData : json)
    (files changelogs : jsval) : jsobj :=
  list_to_map
    [ ("mod_id", prop modData "mod_id");
      ("name", prop modData "name");
      ("summary", prop modData "summary");
      ("version", prop modData "version");
      ("picture_url", prop modData "picture_url");
      ("author", prop modData "author");
      ("mod_downloads", prop modData "mod_downloads");
      ("endorsement_count", prop modData "endorsement_count");
      ("updated_timestamp", prop modData "updated_timestamp");
      ("created_timestamp", prop modData "created_timestamp");
      ("description", prop modData "description");
      ("state", stateOf warningInfo);
      ("warningMessage", warningMessageOf warningInfo);
      ("files", files);
      ("changelogs", changelogs) ].

(** [batchResults.forEach(res => { if (res) finalResults.push(res); })] *)
Definition pushResults (finalResults : list jsobj)
    (batchResults : list (option jsobj)) : list jsobj :=
  (finalResults ++ omap (fun res => res) batchResults)%list.

(** The batch loop, [for (let i = 0; i < mods.length; i += B)], over the
    closure [fetchOne] of each version. The members of a batch run
    concurrently; [Promise.all] is the barrier, recorded as [Settled]. The
    requests of one batch are recorded member by member: across members
    only their set is meaningful, not their order. When a member throws,
    [Promise.all] rejects and the run stops; the state reached then is
    that of the members recorded so far. With [B = 0] the script would
    loop for ever, which is [OutOfFuel] here. *)
Fixpoint batchLoop (fetchOne : json -> M (option jsobj)) (fuel B : nat)
    (mods : list json) (i : nat) (finalResults : list jsobj)
  : M (list jsobj) :=
  match fuel with
  | O => lift OutOfFuel
  | S fuel' =>
      if (i <? length mods)%nat then
        let batch := take B (drop i mods) in
        let* batchResults := mapM fetchOne batch in
        emit Settled ;;;
        let finalResults' := pushResults finalResults batchResults in
        (if (i + B <? length mods)%nat
         then emit (Delay DELAY_BETWEEN_BATCHES) else ret tt) ;;;
        batchLoop fetchOne fuel' B mods (i + B)%nat finalResults'
      else ret finalResults
  end.

(** [let apiCallCount = n] *)
Definition set_calls (n : nat) : M unit :=
  fun st => (Normal tt, mkState n (trace st)).

Definition get_calls : M nat := fun st => (Normal (apiCallCount st), st).

Definition initial : state := mkState 0 [].

(** The exit status of [run().catch(error => process.exit(1))];
    [None] if the run never ends. *)
Definition exit_status {A} (r : outcome A * state) : option Z :=
  match fst r with
  | Normal _ => Some 0%Z
  | Throw _ => Some 1%Z
  | OutOfFuel => None
  end.

(** The catalog on disk after the run, if it was written. *)
Definition written (st : state) : option json :=
  match last (trace st) with
  | Some (WriteFile catalog) => Some catalog
  | _ => None
  end.

(** ** The signal version of the script *)

Module Signal.

Inductive decision := Reuse | MustFetch (r : reason).

(** What the script prints when it ends, with the result sequence. *)
Record summary := mkSummary {
  finalResults : list jsobj;
  totalMods : nat;
  modsFetched : nat;
  modsCached : nat;
  totalApiCalls : nat
}.

(** [mod => mod.id && String(mod.id).trim() !== ""] *)
Definition keep_entry (mod_ : json) : outcome bool :=
  bindO (js_get mod_ "id") (fun id =>
  Normal (toBoolean id && negb (String.eqb (trim (toString id)) ""))).

(** Step 1: [mod_warnings.json], read, parsed and filtered.
    [warningsFile = None] is a file that cannot be read or parsed. *)
Definition loadModsToProcess (warningsFile : option json) : outcome (list json) :=
  match warningsFile with
  | None => Throw IOError
  | Some (JArr l) => filterO keep_entry l
  | Some _ => Throw TypeError
  end.

Definition isNew (cachedMod : jsval) : bool := negb (toBoolean cachedMod).

Definition isUpdatedOnNexus (updatedSet : gset string) (modId : string) : bool :=
  bool_decide (modId ∈ updatedSet).

(** [cachedMod && (!cachedMod.files || !cachedMod.changelogs)] *)
Definition isMissingData (cachedMod : jsval) : bool :=
  match cachedMod with
  | Some c =>
      truthy c &&
      (negb (toBoolean (prop c "files")) || negb (toBoolean (prop c "changelogs")))
  | None => false
  end.

(** The test of the classification loop and the message it prints. *)
Definition classify (updatedSet : gset string) (cachedMod : jsval)
    (modId : string) : decision :=
  if isNew cachedMod || isUpdatedOnNexus updatedSet modId || isMissingData cachedMod
  then MustFetch (if isNew cachedMod then New
                  else if isUpdatedOnNexus updatedSet modId then UpdatedUpstream
                  else MissingData)
  else Reuse.

(** [{...v}] *)
Definition spread (v : jsval) : jsobj :=
  match v with
  | Some j => Some <$> own_props j
  | None => ∅
  end.

(** The record pushed for a cache hit:
    [{...cachedMod, state: ..., warningMessage: ...}] *)
Definition reuseRecord (warningInfo cachedMod : jsval) : jsobj :=
  <["warningMessage" := warningMessageOf warningInfo]>
    (<["state" := stateOf warningInfo]> (spread cachedMod)).

(** [a || d] *)
Definition or_else (a : jsval) (d : json) : json :=
  match a with
  | Some j => if truthy j then j else d
  | None => d
  end.

(** The record built from a fresh fetch, with
    [files: filesData.files || []] and [changelogs: changelogs || {}]. *)
Definition fetchedRecord (warningInfo : jsval) (modData : json)
    (files : jsval) (changelogs : json) : jsobj :=
  mergedRecord warningInfo modData
    (Some (or_else files (JArr [])))
    (Some (or_else (Some changelogs) (JObj ∅))).

Section Run.

Variable net : endpoint -> response.

Definition fetchUpdatedModsList : M (list string) :=
  try_catch
    (let* r := fetch net Updated in
     if negb (response_ok (fst r)) then ret []
     else
       let* data := response_json (snd r) in
       match data with
       | JArr l =>
           lift (mapO (fun m => bindO (js_get m "mod_id") (fun id =>
                                Normal (toString id))) l)
       | _ => throw TypeError
       end)
    (fun error => ret []).

Variable warningsMap : gmap string json.
Variable previousDataMap : gmap string json.
Variable updatedSet : gset string.

(** Body of the loop of step 4; the accumulator is
    [(modsToFetch, finalResults)]. *)
Definition classifyStep (acc : list json * list jsobj) (inputMod : json)
  : M (list json * list jsobj) :=
  let* id := lift (js_get inputMod "id") in
  let modId := toString id in
  let cachedMod := previousDataMap !! modId in
  match classify updatedSet cachedMod modId with
  | MustFetch r =>
      emit (Queueing modId r) ;;;
      ret ((fst acc ++ [inputMod])%list, snd acc)
  | Reuse =>
      let warningInfo := warningsMap !! modId in
      ret (fst acc, (snd acc ++ [reuseRecord warningInfo cachedMod])%list)
  end.

(** The closure mapped over a batch. *)
Definition fetchOne (inputMod : json) : M (option jsobj) :=
  let* id := lift (js_get inputMod "id") in
  let modId := toString id in
  let* modData := fetchModDataFromNexus net modId in
  count_call ;;;
  if negb (truthy modData) then ret None
  else
    let* filesData := fetchModFilesFromNexus net modId in
    count_call ;;;
    let* changelogs := fetchModChangelogsFromNexus net modId in
    count_call ;;;
    let warningInfo := warningsMap !! modId in
    let* files := lift (js_get filesData "files") in
    ret (Some (fetchedRecord warningInfo modData files changelogs)).

End Run.

Definition buildCuratedList (net : endpoint -> response)
    (warningsFile cacheFile : option json) : M summary :=
  let* modsToProcess := lift (loadModsToProcess warningsFile) in
  let* warningsMap := lift (buildWarningsMap modsToProcess) in
  let previousDataMap := loadPreviousCache cacheFile in
  let* recentlyUpdatedIds := fetchUpdatedModsList net in
  let updatedSet : gset string := list_to_set recentlyUpdatedIds in
  let* split :=
    foldM (classifyStep warningsMap previousDataMap updatedSet) ([], [])
      modsToProcess in
  let modsToFetch := fst split in
  set_calls 1 ;;;
  let* finalResults :=
    batchLoop (fetchOne net warningsMap) (S (length modsToFetch)) BATCH_SIZE
      modsToFetch 0 (snd split) in
  emit (WriteFile (JArr (map stringify finalResults))) ;;;
  let* calls := get_calls in
  ret (mkSummary finalResults (length modsToProcess) (length modsToFetch)
         (length modsToProcess - length modsToFetch) calls).

Definition main (net : endpoint -> response)
    (warningsFile cacheFile : option json) : option Z :=
  exit_status (buildCuratedList net warningsFile cacheFile initial).

End Signal.

(** ** The timestamp version of the script *)

Module Timestamp.

Record summary := mkSummary {
  finalResults : list jsobj;
  totalMods : nat;
  totalApiCalls : nat
}.

(** Step 1: [JSON.parse(warningsContent)], with no filter; [.map] and
    [.length] are then applied to it. *)
Definition loadModsToProcess (warningsFile : option json) : outcome (list json) :=
  match warningsFile with
  | None => Throw IOError
  | Some (JArr l) => Normal l
  | Some _ => Throw TypeError
  end.

(** The "smart cache check" of the closure. *)
Definition canReuse (cachedMod : jsval) (modData : json) : bool :=
  match cachedMod with
  | Some c =>
      truthy c
      && strict_eq (prop c "updated_timestamp") (prop modData "updated_timestamp")
      && toBoolean (prop c "files")
      && toBoolean (prop c "changelogs")
  | None => false
  end.

(** [cachedMod.key] under the guard [cachedMod && ...] *)
Definition cachedProp (cachedMod : jsval) (key : string) : jsval :=
  match cachedMod with
  | Some c => prop c key
  | None => None
  end.

Section Run.

Variable net : endpoint -> response.
Variable warningsMap : gmap string json.
Variable previousDataMap : gmap string json.

Definition fetchOne (inputMod : json) : M (option jsobj) :=
  let* id := lift (js_get inputMod "id") in
  let modId := toString id in
  let* modData := fetchModDataFromNexus net modId in
  count_call ;;;
  if negb (truthy modData) then ret None
  else
    let cachedMod := previousDataMap !! modId in
    let* fc :=
      if canReuse cachedMod modData
      then ret (cachedProp cachedMod "files", cachedProp cachedMod "changelogs")
      else
        let* filesData := fetchModFilesFromNexus net modId in
        let* files := lift (js_get filesData "files") in
        count_call ;;;
        let* changelogs := fetchModChangelogsFromNexus net modId in
        count_call ;;;
        ret (files, Some changelogs) in
    let warningInfo := warningsMap !! modId in
    ret (Some (mergedRecord warningInfo modData (fst fc) (snd fc))).

End Run.

Definition buildCuratedList (net : endpoint -> response)
    (warningsFile cacheFile : option json) : M summary :=
  let* modsToProcess := lift (loadModsToProcess warningsFile) in
  let* warningsMap := lift (buildWarningsMap modsToProcess) in
  let previousDataMap := loadPreviousCache cacheFile in
  set_calls 0 ;;;
  let* finalResults :=
    batchLoop (fetchOne net warningsMap previousDataMap)
      (S (length modsToProcess)) BATCH_SIZE modsToProcess 0 [] in
  emit (WriteFile (JArr (map stringify finalResults))) ;;;
  let* calls := get_calls in
  ret (mkSummary finalResults (length modsToProcess) calls).

Definition main (net : endpoint -> response)
    (warningsFile cacheFile : option json) : option Z :=
  exit_status (buildCuratedList net warningsFile cacheFile initial).

End Timestamp.

(** ** The runs described as functions of their inputs *)

(** A request that brings no data back: the connection fails, the status
    is not a success, or the body is not JSON. *)
Definition fetch_failed (net : endpoint -> response) (e : endpoint) : bool :=
  match net e with
  | NetworkFailure => true
  | Response status body =>
      negb (response_ok status) || negb (bool_decide (is_Some body))
  end.

(** The values the three helpers return for an identifier. *)
Definition infoData (net : endpoint -> response) (modId : string) : json :=
  match net (Info modId) with
  | NetworkFailure => JNull
  | Response status body =>
      if Z.eqb status 429 then JNull
      else if negb (response_ok status) then JNull
      else match body with Some j => j | None => JNull end
  end.

Definition filesData (net : endpoint -> response) (modId : string) : json :=
  match net (Files modId) with
  | NetworkFailure => JObj {[ "files" := JArr [] ]}
  | Response status body =>
      if negb (response_ok status) then JObj {[ "files" := JArr [] ]}
      else match body with Some j => j | None => JObj {[ "files" := JArr [] ]} end
  end.

Definition changelogsData (net : endpoint -> response) (modId : string) : json :=
  match net (Changelogs modId) with
  | NetworkFailure => JObj ∅
  | Response status body =>
      if negb (response_ok status) then JObj ∅
      else match body with Some j => j | None => JObj ∅ end
  end.

(** The identifier of a tracked entry, [String(inputMod.id)]. *)
Definition modIdOf (inputMod : json) : string := toString (prop inputMod "id").

(** The state after [calls] more counted calls and the events [evs]. *)
Definition after (st : state) (calls : nat) (evs : list event) : state :=
  mkState (apiCallCount st + calls) (trace st ++ evs)%list.

Module SignalSpec.
Import Signal.

Section Member.

Variable net : endpoint -> response.
Variable warningsMap : gmap string json.

(** The requests one member of a batch issues. *)
Definition memberTrace (inputMod : json) : list event :=
  let modId := modIdOf inputMod in
  Fetch (Info modId) ::
  (if truthy (infoData net modId)
   then [Fetch (Files modId); Fetch (Changelogs modId)] else []).

Definition memberCalls (inputMod : json) : nat :=
  if truthy (infoData net (modIdOf inputMod)) then 3%nat else 1%nat.

(** The record one member of a batch resolves to, if any. *)
Definition memberResult (inputMod : json) : option jsobj :=
  let modId := modIdOf inputMod in
  if truthy (infoData net modId)
  then Some (fetchedRecord (warningsMap !! modId) (infoData net modId)
               (prop (filesData net modId) "files") (changelogsData net modId))
  else None.

(** The closure throws only on a files body that is the JSON [null]. *)
Definition member_ok (inputMod : json) : Prop :=
  inputMod ≠ JNull /\
  (truthy (infoData net (modIdOf inputMod)) = true ->
   filesData net (modIdOf inputMod) ≠ JNull).

End Member.

(** The groups of the batch loop: [slice(i, i + B)] for [i = 0, B, 2B, ...] *)
Fixpoint groups {A} (fuel B : nat) (l : list A) : list (list A) :=
  match fuel with
  | O => []
  | S fuel' =>
      match l with
      | [] => []
      | _ => take B l :: groups fuel' B (drop B l)
      end
  end.

Definition groupTrace (net : endpoint -> response) (g : list json) : list event :=
  (concat (map (memberTrace net) g) ++ [Settled])%list.

(** The trace of the batch loop: each group, then the barrier, and a
    delay between two groups. *)
Definition loopTrace (net : endpoint -> response) (gs : list (list json))
  : list event :=
  match gs with
  | [] => []
  | g :: rest =>
      (groupTrace net g
       ++ concat (map (fun g' => Delay DELAY_BETWEEN_BATCHES :: groupTrace net g') rest))%list
  end.

Definition is_delay (ev : event) : bool :=
  match ev with Delay _ => true | _ => false end.

Definition is_settled (ev : event) : bool :=
  match ev with Settled => true | _ => false end.

(** The identifier a per-record request is about. *)
Definition fetched_id (ev : event) : option string :=
  match ev with
  | Fetch (Info modId) | Fetch (Files modId) | Fetch (Changelogs modId) =>
      Some modId
  | _ => None
  end.

(** The change signal of a run. *)
Definition updatedIds (net : endpoint -> response) : list string :=
  match net Updated with
  | NetworkFailure => []
  | Response status body =>
      if negb (response_ok status) then []
      else match body with
           | Some (JArr l) =>
               match mapO (fun m => bindO (js_get m "mod_id") (fun id =>
                                    Normal (toString id))) l with
               | Normal ids => ids
               | _ => []
               end
           | _ => []
           end
  end.

Definition updatedSetOf (net : endpoint -> response) : gset string :=
  list_to_set (updatedIds net).

(** The filter of step 1 on an entry that is not [null]. *)
Definition kept (entry : json) : bool :=
  toBoolean (prop entry "id")
  && negb (String.eqb (trim (toString (prop entry "id"))) "").

(** The map of step 1 over the tracked entries: a later entry replaces an
    earlier one with the same identifier. *)
Definition warningsMapOf (mods : list json) : gmap string json :=
  fold_left (fun m p => <[fst p := snd p]> m)
    (map (fun entry => (modIdOf entry, entry)) mods) ∅.

Section Run.

Variable net : endpoint -> response.
Variable entries : list json.
Variable cacheFile : option json.

Definition tracked : list json := List.filter kept entries.

Definition decisionOf (inputMod : json) : decision :=
  classify (updatedSetOf net)
    (loadPreviousCache cacheFile !! modIdOf inputMod) (modIdOf inputMod).

Definition is_reuse (inputMod : json) : bool :=
  match decisionOf inputMod with Reuse => true | MustFetch _ => false end.

Definition toFetch : list json :=
  List.filter (fun e => negb (is_reuse e)) tracked.

Definition reused : list json := List.filter is_reuse tracked.

Definition reusedRecord (inputMod : json) : jsobj :=
  reuseRecord (warningsMapOf tracked !! modIdOf inputMod)
    (loadPreviousCache cacheFile !! modIdOf inputMod).

Definition queueTrace (mods : list json) : list event :=
  omap (fun e => match decisionOf e with
                 | MustFetch r => Some (Queueing (modIdOf e) r)
                 | Reuse => None
                 end) mods.

(** The result sequence of a run: the cache hits in the order of the
    overlay, then the fetched records. *)
Definition runResults : list jsobj :=
  (map reusedRecord reused
   ++ omap (fun res => res)
        (map (memberResult net (warningsMapOf tracked)) toFetch))%list.

Definition runCalls : nat := (1 + sum_list_with (memberCalls net) toFetch)%nat.

Definition runTrace : list event :=
  ([Fetch Updated] ++ queueTrace tracked
   ++ loopTrace net (groups (S (length toFetch)) BATCH_SIZE toFetch)
   ++ [WriteFile (JArr (map stringify runResults))])%list.

(** What a tracked entry contributes to the result sequence. *)
Definition outcomeOf (inputMod : json) : option jsobj :=
  if is_reuse inputMod then Some (reusedRecord inputMod)
  else memberResult net (warningsMapOf tracked) inputMod.

(** The record of a tracked entry as it is written to the catalog. *)
Definition writtenRecord (inputMod : json) : json :=
  stringify (default ∅ (outcomeOf inputMod)).

(** Every summary request of the run is answered, with the record of the
    identifier asked for. *)
Definition fetches_succeed : Prop :=
  forall e, e ∈ toFetch ->
    truthy (infoData net (modIdOf e)) = true
    /\ toString (prop (infoData net (modIdOf e)) "mod_id") = modIdOf e.

(** The entry is served from the cache, or its summary is fetched. *)
Definition yields_record (inputMod : json) : bool :=
  is_reuse inputMod || truthy (infoData net (modIdOf inputMod)).

(** The inputs on which the run does not throw: the overlay is an array
    without [null], and no files body is the JSON [null]. *)
Definition run_ok : Prop :=
  Forall (fun e => e ≠ JNull) entries /\ Forall (member_ok net) toFetch.

End Run.

End SignalSpec.

(** Nexus answers a summary request with the record of that identifier. *)
Definition upstream_consistent (net : endpoint -> response) : Prop :=
  forall modId, truthy (infoData net modId) = true ->
    toString (prop (infoData net modId) "mod_id") = modId.

(** A cached record is complete when both tests of the script succeed on
    it: [cachedMod.files] and [cachedMod.changelogs] are truthy. *)
Definition complete (c : json) : bool :=
  toBoolean (prop c "files") && toBoolean (prop c "changelogs").

(** An entry whose identifier is absent, empty or white space only. *)
Definition blank (entry : json) : Prop :=
  entry ≠ JNull
  /\ (prop entry "id" = None \/ trim (toString (prop entry "id")) = "").

(** [r.key] on a result record *)
Definition field (r : jsobj) (key : string) : jsval := default None (r !! key).

(** ** Concrete inputs *)

Module Examples.

Definition obj (l : list (string * json)) : json := JObj (list_to_map l).

Definition entry10 : json := obj [("id", JStr "10")].
Definition entry20 : json :=
  obj [("id", JStr "20"); ("state", JStr "broken");
       ("warningMessage", JStr "crashes")].
Definition entry30 : json := obj [("id", JNum 30)].
Definition entry40 : json := obj [("id", JStr "40")].
Definition entry10_broken : json :=
  obj [("id", JStr "10"); ("state", JStr "broken");
       ("warningMessage", JStr "crashes")].
Definition entry_blank : json := obj [("id", JStr "  ")].
Definition entry_template : json := obj [("state", JStr "normal")].

Definition info (n ts : Z) : json :=
  obj [("mod_id", JNum n); ("name", JStr "a mod"); ("updated_timestamp", JNum ts)].

Definition listing : json := obj [("files", JArr [JStr "main.zip"])].
Definition changes : json := obj [("1.0", JArr [JStr "first release"])].

(** Nexus knows mods 10, 20 and 30; nothing changed this week. *)
Definition upstream (e : endpoint) : response :=
  match e with
  | Updated => Response 200 (Some (JArr []))
  | Info "10" => Response 200 (Some (info 10 5))
  | Info "20" => Response 200 (Some (info 20 6))
  | Info "30" => Response 200 (Some (info 30 7))
  | Files "10" | Files "20" | Files "30" => Response 200 (Some listing)
  | Changelogs "10" | Changelogs "20" => Response 200 (Some changes)
  | _ => Response 404 None
  end.

(** The same, with mod 10 reported as updated. *)
Definition upstream_changed (e : endpoint) : response :=
  match e with
  | Updated => Response 200 (Some (JArr [obj [("mod_id", JNum 10)]]))
  | _ => upstream e
  end.

(** Every summary request is answered 429. *)
Definition rate_limited (e : endpoint) : response :=
  match e with
  | Info _ => Response 429 None
  | _ => upstream e
  end.

(** Every summary request is answered 404. *)
Definition not_found (e : endpoint) : response :=
  match e with
  | Info _ => Response 404 None
  | _ => upstream e
  end.

(** Nexus answers any summary request, whatever the identifier. *)
Definition permissive (e : endpoint) : response :=
  match e with
  | Info _ => Response 200 (Some (info 0 1))
  | _ => upstream e
  end.

Definition overlay : list json := [entry10; entry20; entry30].

Definition cached10 : json :=
  obj [("mod_id", JNum 10); ("name", JStr "a mod"); ("updated_timestamp", JNum 5);
       ("state", JStr "normal"); ("warningMessage", JStr "");
       ("files", JArr []); ("changelogs", JObj ∅)].

Definition cached10_no_changelogs : json :=
  obj [("mod_id", JNum 10); ("name", JStr "a mod"); ("updated_timestamp", JNum 5);
       ("files", JArr [])].

Definition cached10_null_files : json :=
  obj [("mod_id", JNum 10); ("files", JNull); ("changelogs", JObj ∅)].

(** Four tracked mods and two template entries; Nexus does not know
    mod 40. *)
Definition overlay_file : list json :=
  [entry10; entry_blank; entry20; entry40; entry_template; entry30].

Definition cache_file : option json := Some (JArr [cached10]).

End Examples.

(** ** Descriptions used for the rest of the script *)

(** A request to Nexus, as opposed to a console line, a barrier, a delay or
    the write of the catalog. *)
Definition is_fetch (ev : event) : bool :=
  match ev with Fetch _ => true | _ => false end.

(** The write of the catalog. *)
Definition is_write (ev : event) : bool :=
  match ev with WriteFile _ => true | _ => false end.

(** The requests of a trace, in the order they are recorded. *)
Definition requests (tr : list event) : list event := List.filter is_fetch tr.

(** The overlay file cannot be used: it is missing or not JSON, it is not
    an array, or one of its elements is [null]. *)
Definition config_error (warningsFile : option json) : Prop :=
  match warningsFile with
  | None => True
  | Some (JArr l) => JNull ∈ l
  | Some _ => True
  end.

(** The identifier under which the cache load stores a record. *)
Definition cacheKey (record : json) : string := toString (prop record "mod_id").

Module TimestampSpec.

Section Member.

Variable net : endpoint -> response.
Variable warningsMap : gmap string json.
Variable previousDataMap : gmap string json.

(** The smart cache check of the closure on an entry. *)
Definition reuses (inputMod : json) : bool :=
  Timestamp.canReuse (previousDataMap !! modIdOf inputMod)
    (infoData net (modIdOf inputMod)).

(** The entry needs the files and the changelogs from Nexus. *)
Definition fetches_fresh (inputMod : json) : bool :=
  truthy (infoData net (modIdOf inputMod)) && negb (reuses inputMod).

Definition memberTrace (inputMod : json) : list event :=
  let modId := modIdOf inputMod in
  Fetch (Info modId) ::
  (if fetches_fresh inputMod
   then [Fetch (Files modId); Fetch (Changelogs modId)] else []).

Definition memberCalls (inputMod : json) : nat :=
  if fetches_fresh inputMod then 3%nat else 1%nat.

Definition memberResult (inputMod : json) : option jsobj :=
  let modId := modIdOf inputMod in
  if truthy (infoData net modId)
  then Some
         (if reuses inputMod
          then mergedRecord (warningsMap !! modId) (infoData net modId)
                 (Timestamp.cachedProp (previousDataMap !! modId) "files")
                 (Timestamp.cachedProp (previousDataMap !! modId) "changelogs")
          else mergedRecord (warningsMap !! modId) (infoData net modId)
                 (prop (filesData net modId) "files")
                 (Some (changelogsData net modId)))
  else None.

(** The closure throws only on a files body that is the JSON [null]. *)
Definition member_ok (inputMod : json) : Prop :=
  inputMod ≠ JNull /\
  (fetches_fresh inputMod = true -> filesData net (modIdOf inputMod) ≠ JNull).

End Member.

Section Run.

Variable net : endpoint -> response.
Variable entries : list json.
Variable cacheFile : option json.

Definition run_ok : Prop :=
  Forall (member_ok net (loadPreviousCache cacheFile)) entries.

Definition runResults : list jsobj :=
  omap (memberResult net (SignalSpec.warningsMapOf entries)
          (loadPreviousCache cacheFile)) entries.

Definition runCalls : nat :=
  sum_list_with (memberCalls net (loadPreviousCache cacheFile)) entries.

Definition runRequests : list event :=
  concat (map (memberTrace net (loadPreviousCache cacheFile)) entries).

(** Every summary request is answered with the record of the identifier
    asked for, whose [updated_timestamp] is not an array or an object, and
    the record built for the entry has truthy files and changelogs. *)
Definition settled_upstream : Prop :=
  forall e, e ∈ entries ->
    let modId := modIdOf e in
    truthy (infoData net modId) = true
    /\ toString (prop (infoData net modId) "mod_id") = modId
    /\ strict_eq (prop (infoData net modId) "updated_timestamp")
         (prop (infoData net modId) "updated_timestamp") = true
    /\ (forall r, memberResult net (SignalSpec.warningsMapOf entries)
                    (loadPreviousCache cacheFile) e = Some r ->
                  toBoolean (field r "files") = true
                  /\ toBoolean (field r "changelogs") = true).

End Run.

End TimestampSpec.

(** ** More concrete inputs *)

Module Cases.

(** Nexus answers the files request of mod 20 with the body [null]. *)
Definition null_files (e : endpoint) : response :=
  match e with
  | Files "20" => Response 200 (Some JNull)
  | _ => Examples.upstream e
  end.

(** Nexus reports three updated mods. *)
Definition three_updated (e : endpoint) : response :=
  match e with
  | Updated =>
      Response 200
        (Some (JArr [Examples.obj [("mod_id", JNum 10)];
                     Examples.obj [("mod_id", JStr "77")];
                     Examples.obj [("name", JStr "no id")]]))
  | _ => Examples.upstream e
  end.

(** The update list holds a [null]. *)
Definition broken_updated (e : endpoint) : response :=
  match e with
  | Updated => Response 200 (Some (JArr [Examples.obj [("mod_id", JNum 10)]; JNull]))
  | _ => Examples.upstream e
  end.

Definition cached20 : json :=
  Examples.obj [("mod_id", JNum 20); ("name", JStr "old name");
                ("files", JArr [JStr "old.zip"]); ("changelogs", JObj ∅)].

Definition cached20_newer : json :=
  Examples.obj [("mod_id", JNum 20); ("name", JStr "new name");
                ("files", JArr [JStr "new.zip"]); ("changelogs", JObj ∅)].

Definition entry_zero : json := Examples.obj [("id", JNum 0)].
Definition entry20_normal : json :=
  Examples.obj [("id", JNum 20); ("state", JStr "normal")].

(** A complete answer for every mod of the overlay. *)
Definition complete_upstream (e : endpoint) : response :=
  match e with
  | Changelogs "30" => Response 200 (Some Examples.changes)
  | _ => Examples.upstream e
  end.

(** The files answer of mod 20 is an object without [files]. *)
Definition no_files_key (e : endpoint) : response :=
  match e with
  | Files "20" => Response 200 (Some (Examples.obj [("message", JStr "none")]))
  | _ => complete_upstream e
  end.

End Cases.

Ltac ts_run_ok_tac :=
  repeat (apply List.Forall_cons;
          [split; [discriminate | intros _; vm_compute; discriminate]|]);
  apply List.Forall_nil.

(** ** Facts about the helpers *)

(** Closed instances of [member_ok] and [run_ok]. *)
Ltac member_ok_tac :=
  repeat first
    [ apply List.Forall_nil
    | apply List.Forall_cons;
      [ split; [discriminate | intros _; vm_compute; discriminate] | ] ].

Ltac run_ok_tac :=
  split;
  [ repeat (apply List.Forall_cons; [discriminate|]); apply List.Forall_nil
  | vm_compute SignalSpec.toFetch; member_ok_tac ].

(** Unfolding the monad in the three helpers. *)
Ltac run_unfold :=
  unfold fetchModDataFromNexus, fetchModFilesFromNexus,
    fetchModChangelogsFromNexus, try_catch, fetch, response_json, bind, ret,
    throw, emit, lift, count_call, after; simpl.

Lemma after_0_nil st : after st 0 [] = st.
Proof.
  destruct st as [c t]. unfold after. simpl.
  by rewrite Nat.add_0_r, app_nil_r.
Qed.

Lemma after_after st c1 e1 c2 e2 :
  after (after st c1 e1) c2 e2 = after st (c1 + c2) (e1 ++ e2)%list.
Proof.
  unfold after. simpl. by rewrite Nat.add_assoc, app_assoc.
Qed.

Lemma fetchModDataFromNexus_run net modId st :
  fetchModDataFromNexus net modId st
  = (Normal (infoData net modId), after st 0 [Fetch (Info modId)]).
Proof.
  run_unfold. unfold infoData.
  rewrite Nat.add_0_r.
  destruct (net (Info modId)) as [|status [j|]]; simpl; try done;
    destruct (Z.eqb status 429); simpl; try done;
    destruct (response_ok status); simpl; done.
Qed.

Lemma fetchModFilesFromNexus_run net modId st :
  fetchModFilesFromNexus net modId st
  = (Normal (filesData net modId), after st 0 [Fetch (Files modId)]).
Proof.
  run_unfold. unfold filesData.
  rewrite Nat.add_0_r.
  destruct (net (Files modId)) as [|status [j|]]; simpl; try done;
    destruct (response_ok status); simpl; done.
Qed.

Lemma fetchModChangelogsFromNexus_run net modId st :
  fetchModChangelogsFromNexus net modId st
  = (Normal (changelogsData net modId), after st 0 [Fetch (Changelogs modId)]).
Proof.
  run_unfold. unfold changelogsData.
  rewrite Nat.add_0_r.
  destruct (net (Changelogs modId)) as [|status [j|]]; simpl; try done;
    destruct (response_ok status); simpl; done.
Qed.

Lemma js_get_not_null v key : v ≠ JNull -> js_get v key = Normal (prop v key).
Proof. by destruct v. Qed.

Lemma infoData_failed net modId :
  fetch_failed net (Info modId) = true -> infoData net modId = JNull.
Proof.
  unfold fetch_failed, infoData.
  destruct (net (Info modId)) as [|status [j|]]; simpl; try done;
    destruct (Z.eqb status 429); try done;
    destruct (response_ok status); simpl; done.
Qed.

Lemma bind_normal {A B} (m : M A) (k : A -> M B) st a st' :
  m st = (Normal a, st') -> bind m k st = k a st'.
Proof. unfold bind. by intros ->. Qed.

Lemma bind_throw {A B} (m : M A) (k : A -> M B) st e st' :
  m st = (Throw e, st') -> bind m k st = (Throw e, st').
Proof. unfold bind. by intros ->. Qed.

Lemma count_call_run st : count_call st = (Normal tt, after st 1 []).
Proof.
  unfold count_call, after. simpl. by rewrite app_nil_r, Nat.add_1_r.
Qed.

Lemma emit_run ev st : emit ev st = (Normal tt, after st 0 [ev]).
Proof. unfold emit, after. simpl. by rewrite Nat.add_0_r. Qed.

(** ** The closure of the signal version *)

Section SignalMember.
Import Signal SignalSpec.

Variable net : endpoint -> response.
Variable warningsMap : gmap string json.

Lemma fetchOne_run inputMod st :
  member_ok net inputMod ->
  fetchOne net warningsMap inputMod st
  = (Normal (memberResult net warningsMap inputMod),
     after st (memberCalls net inputMod) (memberTrace net inputMod)).
Proof.
  intros [Hnn Hfiles].
  unfold fetchOne, memberResult, memberCalls, memberTrace.
  unfold lift at 1. unfold bind at 1. rewrite (js_get_not_null _ _ Hnn).
  fold (modIdOf inputMod).
  erewrite bind_normal by apply fetchModDataFromNexus_run.
  erewrite bind_normal by apply count_call_run.
  destruct (truthy (infoData net (modIdOf inputMod))) eqn:Hinfo; simpl.
  - erewrite bind_normal by apply fetchModFilesFromNexus_run.
    erewrite bind_normal by apply count_call_run.
    erewrite bind_normal by apply fetchModChangelogsFromNexus_run.
    erewrite bind_normal by apply count_call_run.
    unfold lift, bind, ret.
    rewrite js_get_not_null by auto.
    rewrite !after_after. simpl. done.
  - unfold ret. rewrite !after_after. simpl. done.
Qed.

Lemma mapM_fetchOne_run (batch : list json) st :
  Forall (member_ok net) batch ->
  mapM (fetchOne net warningsMap) batch st
  = (Normal (map (memberResult net warningsMap) batch),
     after st (sum_list_with (memberCalls net) batch)
       (concat (map (memberTrace net) batch))).
Proof.
  intros Hok. revert st.
  induction Hok as [|e batch He Hok IH]; intros st; simpl.
  - unfold ret. by rewrite after_0_nil.
  - erewrite bind_normal by (by apply fetchOne_run).
    erewrite bind_normal by apply IH.
    unfold ret. by rewrite after_after.
Qed.

Lemma loopTrace_cons g gs :
  loopTrace net (g :: gs)
  = (groupTrace net g
     ++ match gs with
        | [] => []
        | _ => Delay DELAY_BETWEEN_BATCHES :: loopTrace net gs
        end)%list.
Proof. destruct gs; simpl; done. Qed.

Lemma groups_nil {A} fuel B (l : list A) :
  groups fuel B l = [] <-> fuel = 0%nat \/ l = [].
Proof.
  destruct fuel, l; simpl; split; intros H; auto; try done.
  destruct H; done.
Qed.

Lemma batchLoop_run B fuel mods i fr st :
  (0 < B)%nat ->
  Forall (member_ok net) mods ->
  (length mods - i < fuel)%nat ->
  batchLoop (fetchOne net warningsMap) fuel B mods i fr st
  = (Normal (fr ++ omap (fun res => res)
                     (map (memberResult net warningsMap) (drop i mods)))%list,
     after st (sum_list_with (memberCalls net) (drop i mods))
       (loopTrace net (groups fuel B (drop i mods)))).
Proof.
  intros HB Hok. revert i fr st.
  induction fuel as [|fuel IH]; intros i fr st Hfuel; [lia|].
  simpl. destruct (Nat.ltb_spec i (length mods)) as [Hi|Hi].
  - assert (Hsplit : drop i mods = (take B (drop i mods) ++ drop (i + B) mods)%list).
    { rewrite <- drop_drop. by rewrite take_drop. }
    assert (Hne : drop i mods ≠ []).
    { intros Hnil. apply (f_equal length) in Hnil.
      rewrite length_drop in Hnil. simpl in Hnil. lia. }
    erewrite bind_normal; cycle 1.
    { apply mapM_fetchOne_run.
      apply Forall_take, Forall_drop, Hok. }
    erewrite bind_normal by apply emit_run.
    assert (Hdelay :
      (if (i + B <? length mods)%nat
       then emit (Delay DELAY_BETWEEN_BATCHES) else ret tt)
        (after (after st (sum_list_with (memberCalls net) (take B (drop i mods)))
                  (concat (map (memberTrace net) (take B (drop i mods))))) 0 [Settled])
      = (Normal tt,
         after st (sum_list_with (memberCalls net) (take B (drop i mods)))
           (groupTrace net (take B (drop i mods))
            ++ if (i + B <? length mods)%nat
               then [Delay DELAY_BETWEEN_BATCHES] else [])%list)).
    { destruct (i + B <? length mods)%nat.
      - rewrite emit_run, !after_after. unfold groupTrace.
        f_equal. f_equal; [lia | by rewrite <- !app_assoc].
      - unfold ret. rewrite !after_after. unfold groupTrace.
        f_equal. f_equal; [lia | by rewrite app_nil_r]. }
    erewrite bind_normal by apply Hdelay.
    rewrite IH by lia.
    rewrite after_after. unfold pushResults.
    f_equal.
    + f_equal. rewrite <- app_assoc. f_equal.
      rewrite <- omap_app, <- map_app. by rewrite <- Hsplit.
    + f_equal.
      * rewrite <- sum_list_with_app. by rewrite <- Hsplit.
      * destruct (drop i mods) as [|e rest] eqn:Hd; [done|].
        rewrite <- Hd. rewrite <- Hd in Hsplit.
        rewrite drop_drop.
        rewrite loopTrace_cons. rewrite <- app_assoc. f_equal.
        destruct (Nat.ltb_spec (i + B) (length mods)) as [Hlt|Hge].
        -- destruct (groups fuel B (drop (i + B) mods)) eqn:Hg; [|done].
           apply groups_nil in Hg. destruct Hg as [->|Hg]; [lia|].
           apply (f_equal length) in Hg. rewrite length_drop in Hg.
           simpl in Hg. lia.
        -- rewrite drop_ge by lia.
           by replace (groups fuel B []) with (@nil (list json))
             by (by destruct fuel).
  - rewrite drop_ge by lia. simpl. unfold ret.
    by rewrite app_nil_r, after_0_nil.
Qed.

End SignalMember.

(** ** The whole run of the signal version *)

Section SignalRun.
Import Signal SignalSpec.

Lemma filterO_keep_entry (entries : list json) :
  Forall (fun e => e ≠ JNull) entries ->
  filterO keep_entry entries = Normal (List.filter kept entries).
Proof.
  induction 1 as [|e l He Hl IH]; simpl; [done|].
  unfold keep_entry at 1. rewrite js_get_not_null by done. simpl.
  rewrite IH. simpl. unfold kept. done.
Qed.

Lemma mapO_ids (mods : list json) :
  Forall (fun e => e ≠ JNull) mods ->
  mapO (fun mod_ => bindO (js_get mod_ "id") (fun id => Normal (toString id, mod_)))
    mods
  = Normal (map (fun entry => (modIdOf entry, entry)) mods).
Proof.
  induction 1 as [|e l He Hl IH]; simpl; [done|].
  rewrite js_get_not_null by done. simpl. by rewrite IH.
Qed.

Lemma buildWarningsMap_run (mods : list json) :
  Forall (fun e => e ≠ JNull) mods ->
  buildWarningsMap mods = Normal (warningsMapOf mods).
Proof.
  intros H. unfold buildWarningsMap. by rewrite mapO_ids.
Qed.

Lemma Forall_filter_not_null (kp : json -> bool) (entries : list json) :
  Forall (fun e => e ≠ JNull) entries ->
  Forall (fun e => e ≠ JNull) (List.filter kp entries).
Proof.
  rewrite !Forall_forall. intros H e He.
  apply list_elem_of_In, filter_In in He. apply H, list_elem_of_In, He.
Qed.

Lemma mapO_mod_id_terminates (l : list json) :
  mapO (fun m => bindO (js_get m "mod_id") (fun id => Normal (toString id))) l
  ≠ OutOfFuel.
Proof.
  induction l as [|m l IH]; simpl; [done|].
  destruct m; simpl; try done; destruct (mapO _ l); simpl; done.
Qed.

Lemma fetchUpdatedModsList_run net st :
  fetchUpdatedModsList net st
  = (Normal (updatedIds net), after st 0 [Fetch Updated]).
Proof.
  unfold fetchUpdatedModsList, updatedIds. run_unfold.
  rewrite Nat.add_0_r.
  destruct (net Updated) as [|status [j|]]; simpl; try done;
    destruct (response_ok status); simpl; try done.
  destruct j; simpl; try done.
  pose proof (mapO_mod_id_terminates l) as Hl.
  destruct (mapO _ l); simpl; done.
Qed.

Section Loop.

Variable net : endpoint -> response.
Variable cacheFile : option json.
Variable warningsMap : gmap string json.

Lemma classifyStep_run previousDataMap updatedSet acc e st :
  e ≠ JNull ->
  classifyStep warningsMap previousDataMap updatedSet acc e st
  = match classify updatedSet (previousDataMap !! modIdOf e) (modIdOf e) with
    | Reuse =>
        (Normal (fst acc,
                 (snd acc ++ [reuseRecord (warningsMap !! modIdOf e)
                                (previousDataMap !! modIdOf e)])%list), st)
    | MustFetch r =>
        (Normal ((fst acc ++ [e])%list, snd acc),
         after st 0 [Queueing (modIdOf e) r])
    end.
Proof.
  intros He. unfold classifyStep.
  unfold lift at 1. unfold bind at 1.
  rewrite js_get_not_null by done. fold (modIdOf e).
  destruct (classify _ _ _); [done|].
  erewrite bind_normal by apply emit_run. done.
Qed.

Lemma classify_loop_run (mods : list json) acc st :
  Forall (fun e => e ≠ JNull) mods ->
  foldM (classifyStep warningsMap (loadPreviousCache cacheFile) (updatedSetOf net))
    acc mods st
  = (Normal
       ((fst acc ++ List.filter (fun e => negb (is_reuse net cacheFile e)) mods)%list,
        (snd acc
         ++ map (fun e => reuseRecord (warningsMap !! modIdOf e)
                            (loadPreviousCache cacheFile !! modIdOf e))
              (List.filter (is_reuse net cacheFile) mods))%list),
     after st 0 (queueTrace net cacheFile mods)).
Proof.
  intros H. revert acc st.
  induction H as [|e l He Hl IH]; intros acc st.
  - simpl. unfold ret. rewrite !app_nil_r, after_0_nil. by destruct acc.
  - cbn [foldM].
    pose proof (classifyStep_run (loadPreviousCache cacheFile)
                  (updatedSetOf net) acc e st He) as Hstep.
    change (classify _ _ _) with (decisionOf net cacheFile e) in Hstep.
    unfold queueTrace in IH |- *.
    cbn [List.filter omap list_omap].
    destruct (decisionOf net cacheFile e) eqn:Hd.
    + assert (Hr : is_reuse net cacheFile e = true)
        by (unfold is_reuse; by rewrite Hd).
      erewrite bind_normal by apply Hstep.
      rewrite IH, Hr. cbn [fst snd negb map]. rewrite <- !app_assoc. done.
    + assert (Hr : is_reuse net cacheFile e = false)
        by (unfold is_reuse; by rewrite Hd).
      erewrite bind_normal by apply Hstep.
      rewrite IH, Hr. cbn [fst snd negb map].
      rewrite after_after, <- !app_assoc. done.
Qed.

End Loop.

Theorem buildCuratedList_run net entries cacheFile :
  run_ok net entries cacheFile ->
  buildCuratedList net (Some (JArr entries)) cacheFile initial
  = (Normal
       (mkSummary (runResults net entries cacheFile)
          (length (tracked entries))
          (length (toFetch net entries cacheFile))
          (length (tracked entries) - length (toFetch net entries cacheFile))
          (runCalls net entries cacheFile)),
     mkState (runCalls net entries cacheFile) (runTrace net entries cacheFile)).
Proof.
  intros [Hnn Hok].
  unfold buildCuratedList.
  unfold lift at 1. unfold bind at 1. simpl loadModsToProcess.
  rewrite filterO_keep_entry by done. fold (tracked entries).
  unfold lift at 1. unfold bind at 1.
  rewrite buildWarningsMap_run by (by apply Forall_filter_not_null).
  erewrite bind_normal by apply fetchUpdatedModsList_run.
  fold (updatedSetOf net).
  erewrite bind_normal;
    [|apply classify_loop_run; by apply Forall_filter_not_null].
  simpl fst. simpl snd.
  fold (toFetch net entries cacheFile).
  unfold bind at 1. unfold set_calls at 1.
  erewrite bind_normal;
    [|apply batchLoop_run; [unfold BATCH_SIZE; lia | done | lia]].
  erewrite bind_normal by apply emit_run.
  unfold bind, get_calls, ret.
  rewrite !after_after, drop_0.
  unfold after, runCalls, runTrace, runResults, reused, reusedRecord, initial.
  cbn [apiCallCount trace fst snd].
  rewrite !Nat.add_0_r, <- !app_assoc. done.
Qed.

End SignalRun.

(** ** The batch scheduler *)

Section Scheduler.
Import Signal SignalSpec.

Lemma groups_length {A} fuel B (l : list A) :
  (0 < B)%nat -> (length l < fuel)%nat ->
  length (groups fuel B l) = ((length l + B - 1) / B)%nat.
Proof.
  intros HB. revert l.
  induction fuel as [|fuel IH]; intros l Hfuel; [lia|].
  destruct l as [|a l].
  - simpl. symmetry. apply Nat.div_small. lia.
  - cbn [length] in Hfuel.
    cbn [groups]. cbn [length].
    rewrite IH by (rewrite length_drop; cbn [length]; lia).
    rewrite length_drop. cbn [length].
    destruct (Nat.le_gt_cases (S (length l)) B) as [Hle|Hgt].
    + replace (S (length l) - B)%nat with 0%nat by lia.
      rewrite (Nat.div_small (0 + B - 1) B) by lia.
      apply (Nat.div_unique _ _ 1 (length l)); lia.
    + replace (S (length l) + B - 1)%nat
        with ((S (length l) - B + B - 1) + 1 * B)%nat by lia.
      rewrite Nat.div_add by lia. lia.
Qed.

Lemma groups_concat {A} fuel B (l : list A) :
  (0 < B)%nat -> (length l < fuel)%nat -> concat (groups fuel B l) = l.
Proof.
  intros HB. revert l.
  induction fuel as [|fuel IH]; intros l Hfuel; [lia|].
  destruct l as [|a l]; [done|].
  cbn [length] in Hfuel.
  cbn [groups concat].
  rewrite IH by (rewrite length_drop; cbn [length]; lia).
  apply take_drop.
Qed.

Lemma groups_bounded {A} fuel B (l : list A) :
  (0 < B)%nat ->
  Forall (fun g => (0 < length g <= B)%nat) (groups fuel B l).
Proof.
  intros HB. revert l.
  induction fuel as [|fuel IH]; intros l; [constructor|].
  destruct l as [|a l]; [constructor|].
  cbn [groups]. constructor; [|apply IH].
  rewrite length_take. cbn [length]. lia.
Qed.

Lemma memberTrace_fetches net e :
  Forall (fun ev => is_delay ev = false /\ is_settled ev = false)
    (memberTrace net e).
Proof.
  unfold memberTrace. destruct (truthy _); repeat constructor.
Qed.

Lemma count_app {A} (p : A -> bool) (l k : list A) :
  length (List.filter p (l ++ k))
  = (length (List.filter p l) + length (List.filter p k))%nat.
Proof. by rewrite List.filter_app, length_app. Qed.

Lemma count_none {A} (p : A -> bool) (l : list A) :
  Forall (fun a => p a = false) l -> length (List.filter p l) = 0%nat.
Proof.
  induction 1 as [|a l Ha _ IH]; [done|]. cbn [List.filter]. by rewrite Ha.
Qed.

Lemma groupTrace_counts net g :
  length (List.filter is_delay (groupTrace net g)) = 0%nat /\
  length (List.filter is_settled (groupTrace net g)) = 1%nat.
Proof.
  unfold groupTrace. rewrite !count_app.
  assert (H : Forall (fun ev => is_delay ev = false /\ is_settled ev = false)
                (concat (map (memberTrace net) g))).
  { induction g as [|e g IH]; [constructor|].
    cbn [map concat]. apply Forall_app. split; [apply memberTrace_fetches | done]. }
  rewrite (count_none is_delay (concat _)), (count_none is_settled (concat _)).
  - split; reflexivity.
  - eapply Forall_impl; [apply H|]. by intros ev [_ ?].
  - eapply Forall_impl; [apply H|]. by intros ev [? _].
Qed.

Lemma loopTrace_counts net gs :
  length (List.filter is_delay (loopTrace net gs)) = (length gs - 1)%nat /\
  length (List.filter is_settled (loopTrace net gs)) = length gs.
Proof.
  induction gs as [|g gs [IHd IHs]]; [done|].
  rewrite loopTrace_cons, !count_app.
  destruct (groupTrace_counts net g) as [-> ->].
  destruct gs as [|g' gs]; [done|].
  cbn [List.filter is_delay is_settled length].
  rewrite IHd, IHs. simpl. lia.
Qed.

Lemma loopTrace_last net gs :
  gs ≠ [] -> last (loopTrace net gs) = Some Settled.
Proof.
  induction gs as [|g gs IH]; [done|]. intros _.
  rewrite loopTrace_cons.
  destruct gs as [|g' gs].
  - rewrite app_nil_r. unfold groupTrace. by rewrite last_snoc.
  - rewrite last_app. rewrite last_cons. by rewrite IH.
Qed.

End Scheduler.

(** C8. With a batch size [B > 0] and [N > 0] entries to fetch, the batch
    loop ends; its trace is the requests of the first group, the barrier
    [Settled], and then for each further group a delay, its requests and
    its barrier. The groups are the consecutive slices of at most [B]
    entries; there are [ceil(N/B)] of them, hence [ceil(N/B)] barriers and
    [ceil(N/B) - 1] delays, and the trace ends with a barrier, not with a
    delay. *)
Theorem C8_batch_schedule net warningsMap B mods finalResults st :
  (0 < B)%nat ->
  (0 < length mods)%nat ->
  Forall (SignalSpec.member_ok net) mods ->
  let gs := SignalSpec.groups (S (length mods)) B mods in
  let ceil := ((length mods + B - 1) / B)%nat in
  exists out st',
    batchLoop (Signal.fetchOne net warningsMap) (S (length mods)) B mods 0
      finalResults st = (Normal out, st')
    /\ trace st' = (trace st ++ SignalSpec.loopTrace net gs)%list
    /\ concat gs = mods
    /\ Forall (fun g => (0 < length g <= B)%nat) gs
    /\ length gs = ceil
    /\ length (List.filter SignalSpec.is_settled (SignalSpec.loopTrace net gs)) = ceil
    /\ length (List.filter SignalSpec.is_delay (SignalSpec.loopTrace net gs))
       = (ceil - 1)%nat
    /\ last (SignalSpec.loopTrace net gs) = Some Settled.
Proof.
  intros HB HN Hok gs ceil.
  eexists _, _. split.
  { apply batchLoop_run; [done | done | lia]. }
  assert (Hlen : length gs = ceil) by (apply groups_length; lia).
  rewrite drop_0. fold gs.
  destruct (loopTrace_counts net gs) as [Hd Hs].
  repeat split.
  - apply groups_concat; lia.
  - by apply groups_bounded.
  - done.
  - by rewrite Hs.
  - by rewrite Hd, Hlen.
  - apply loopTrace_last. intros Hnil. rewrite Hnil in Hlen.
    subst ceil. simpl in Hlen. symmetry in Hlen.
    apply Nat.div_small_iff in Hlen; lia.
Qed.

Lemma C8_batch_schedule_witness :
  let mods := Examples.overlay in
  let gs := SignalSpec.groups 4 2 mods in
  Forall (SignalSpec.member_ok Examples.upstream) mods /\
  exists out st',
    batchLoop (Signal.fetchOne Examples.upstream ∅) 4 2 mods 0 [] initial
    = (Normal out, st')
    /\ trace st' = ([] ++ SignalSpec.loopTrace Examples.upstream gs)%list
    /\ concat gs = mods
    /\ Forall (fun g => (0 < length g <= 2)%nat) gs
    /\ length gs = 2%nat
    /\ length (List.filter SignalSpec.is_settled
                 (SignalSpec.loopTrace Examples.upstream gs)) = 2%nat
    /\ length (List.filter SignalSpec.is_delay
                 (SignalSpec.loopTrace Examples.upstream gs)) = 1%nat
    /\ last (SignalSpec.loopTrace Examples.upstream gs) = Some Settled.
Proof.
  intros mods gs.
  assert (Hok : Forall (SignalSpec.member_ok Examples.upstream) mods)
    by (subst mods; unfold Examples.overlay; member_ok_tac).
  split; [exact Hok|].
  apply (C8_batch_schedule Examples.upstream ∅ 2 mods [] initial);
    [lia | simpl; lia | exact Hok].
Defined.

(** ** The two maps of a run *)

Lemma prop_truthy v key x : prop v key = Some x -> truthy v = true.
Proof.
  unfold prop. destruct v as [| | |s| |]; simpl; try done.
  destruct s; simpl; done.
Qed.

(** Every record of the cache is stored under its own identifier. *)
Lemma setPrevious_key l (m : gmap string json) k c :
  setPrevious l m !! k = Some c ->
  m !! k = Some c \/ (c ≠ JNull /\ toString (prop c "mod_id") = k).
Proof.
  revert m. induction l as [|r l IH]; intros m H; [by left|].
  assert (Hstep :
    r ≠ JNull ->
    setPrevious l (<[toString (prop r "mod_id") := r]> m) !! k = Some c ->
    m !! k = Some c \/ (c ≠ JNull /\ toString (prop c "mod_id") = k)).
  { intros Hr H'. apply IH in H'. destruct H' as [H'|H']; [|by right].
    destruct (decide (toString (prop r "mod_id") = k)) as [<-|Hne].
    - rewrite lookup_insert_eq in H'. inversion H'; subst. by right.
    - rewrite lookup_insert_ne in H' by done. by left. }
  destruct r; simpl in H; try (apply Hstep; done). by left.
Qed.

Lemma loadPreviousCache_key cacheFile k c :
  loadPreviousCache cacheFile !! k = Some c ->
  c ≠ JNull /\ toString (prop c "mod_id") = k.
Proof.
  unfold loadPreviousCache. intros H.
  destruct cacheFile as [[]|]; try (by rewrite lookup_empty in H).
  apply setPrevious_key in H. destruct H as [H|H]; [|done].
  by rewrite lookup_empty in H.
Qed.

Section WarningsMap.
Import SignalSpec.

Lemma warningsMap_fold (mods : list json) (m : gmap string json) k :
  fold_left (fun m p => <[fst p := snd p]> m)
    (map (fun entry => (modIdOf entry, entry)) mods) m !! k
  = match last (List.filter (fun e => bool_decide (modIdOf e = k)) mods) with
    | Some w => Some w
    | None => m !! k
    end.
Proof.
  revert m. induction mods as [|e mods IH]; intros m; [done|].
  cbn [map fold_left List.filter]. rewrite IH. cbn [fst snd].
  case_bool_decide as Hk.
  - destruct (List.filter _ mods) as [|w l] eqn:Hf.
    + simpl. subst k. by rewrite lookup_insert_eq.
    + rewrite last_cons_cons.
      destruct (last (w :: l)) eqn:Hl; [done|]. by apply last_None in Hl.
  - destruct (last _); [done|]. by rewrite lookup_insert_ne.
Qed.

(** The overlay entry found for an identifier is the last tracked entry
    with that identifier. *)
Lemma warningsMapOf_lookup (mods : list json) k :
  warningsMapOf mods !! k
  = last (List.filter (fun e => bool_decide (modIdOf e = k)) mods).
Proof.
  unfold warningsMapOf. rewrite warningsMap_fold.
  destruct (last _); [done|]. apply lookup_empty.
Qed.

Lemma warningsMapOf_elem (mods : list json) k w :
  warningsMapOf mods !! k = Some w -> w ∈ mods /\ modIdOf w = k.
Proof.
  rewrite warningsMapOf_lookup. intros H.
  apply last_Some_elem_of in H.
  apply list_elem_of_In, filter_In in H. destruct H as [Hin Hk].
  apply bool_decide_eq_true in Hk. split; [by apply list_elem_of_In | done].
Qed.

Lemma warningsMapOf_tracked (mods : list json) e :
  e ∈ mods -> exists w, warningsMapOf mods !! modIdOf e = Some w.
Proof.
  intros He. rewrite warningsMapOf_lookup.
  destruct (last _) eqn:Hl; [by eexists|].
  apply last_None in Hl.
  assert (Hin : In e (List.filter (fun e0 => bool_decide (modIdOf e0 = modIdOf e)) mods)).
  { apply filter_In. split; [by apply list_elem_of_In|]. by apply bool_decide_eq_true. }
  rewrite Hl in Hin. destruct Hin.
Qed.

Lemma warningsMapOf_unique (mods : list json) e :
  NoDup (map modIdOf mods) -> e ∈ mods ->
  warningsMapOf mods !! modIdOf e = Some e.
Proof.
  intros Hnd He.
  destruct (warningsMapOf_tracked mods e He) as [w Hw].
  rewrite Hw. f_equal.
  apply warningsMapOf_elem in Hw. destruct Hw as [Hin Hid].
  apply list_elem_of_lookup in Hin, He.
  destruct Hin as [i Hi], He as [j Hj].
  assert (i = j).
  { eapply NoDup_lookup; [exact Hnd| |].
    - rewrite list_lookup_fmap, Hi. simpl. by rewrite Hid.
    - by rewrite list_lookup_fmap, Hj. }
  subst. congruence.
Qed.

Lemma tracked_elem entries e :
  Forall (fun e => e ≠ JNull) entries ->
  e ∈ tracked entries -> e ≠ JNull /\ kept e = true /\ truthy e = true.
Proof.
  intros Hnn He.
  apply list_elem_of_In, filter_In in He. destruct He as [Hin Hk].
  rewrite Forall_forall in Hnn. split; [apply Hnn; by apply list_elem_of_In|].
  split; [done|].
  unfold kept in Hk. apply andb_true_iff in Hk. destruct Hk as [Hid _].
  destruct (prop e "id") as [x|] eqn:Hp; [|done].
  by eapply prop_truthy.
Qed.

End WarningsMap.

(** ** The result sequence *)

Section Results.
Import Signal SignalSpec.

Lemma partition_perm {A B} (p : A -> bool) (f : A -> B) (g : A -> option B)
    (l : list A) :
  (map f (List.filter p l)
   ++ omap (fun res => res) (map g (List.filter (fun a => negb (p a)) l)))%list
  ≡ₚ omap (fun a => if p a then Some (f a) else g a) l.
Proof.
  induction l as [|a l IH]; [done|].
  cbn [List.filter omap list_omap].
  destruct (p a); cbn [negb map app].
  - by constructor.
  - cbn [omap list_omap]. destruct (g a) as [b|]; [|done].
    rewrite <- Permutation_middle. by constructor.
Qed.

Lemma omap_length_filter {A B} (f : A -> option B) (p : A -> bool) (l : list A) :
  (forall a, is_Some (f a) <-> p a = true) ->
  length (omap f l) = length (List.filter p l).
Proof.
  intros Hp. induction l as [|a l IH]; [done|].
  cbn [omap list_omap List.filter].
  destruct (f a) as [b|] eqn:Hf, (p a) eqn:Hpa; simpl; try by rewrite IH.
  - assert (is_Some (f a)) as H%Hp by (by rewrite Hf). congruence.
  - assert (p a = true) as H%Hp by done. rewrite Hf in H. by destruct H.
Qed.

Variable net : endpoint -> response.
Variable entries : list json.
Variable cacheFile : option json.

Lemma outcomeOf_Some e :
  is_Some (outcomeOf net entries cacheFile e)
  <-> yields_record net cacheFile e = true.
Proof.
  unfold outcomeOf, yields_record, memberResult.
  destruct (is_reuse net cacheFile e); simpl; [by split; eauto|].
  destruct (truthy _); split; intros H; eauto; try done.
Qed.

Lemma runResults_perm :
  runResults net entries cacheFile
  ≡ₚ omap (outcomeOf net entries cacheFile) (tracked entries).
Proof. apply partition_perm. Qed.

Lemma is_reuse_cached e :
  is_reuse net cacheFile e = true ->
  exists c, loadPreviousCache cacheFile !! modIdOf e = Some c
            /\ truthy c = true
            /\ toBoolean (prop c "files") = true
            /\ toBoolean (prop c "changelogs") = true
            /\ modIdOf e ∉ updatedSetOf net.
Proof.
  unfold is_reuse, decisionOf, classify, isNew, isUpdatedOnNexus, isMissingData.
  destruct (loadPreviousCache cacheFile !! modIdOf e) as [c|]; simpl; [|done].
  destruct (truthy c) eqn:Hc; simpl; [|done].
  case_bool_decide; simpl; [done|].
  destruct (toBoolean (prop c "files")) eqn:Hf,
    (toBoolean (prop c "changelogs")) eqn:Hl; simpl; try done.
  intros _. exists c. by rewrite Hc, Hf, Hl.
Qed.

Lemma field_reuseRecord warningInfo c key :
  field (reuseRecord warningInfo (Some c)) key
  = if decide (key = "warningMessage") then warningMessageOf warningInfo
    else if decide (key = "state") then stateOf warningInfo
    else prop c key.
Proof.
  unfold field, reuseRecord, spread, prop.
  destruct (decide (key = "warningMessage")) as [->|H1].
  { by rewrite lookup_insert_eq. }
  rewrite lookup_insert_ne by done.
  destruct (decide (key = "state")) as [->|H2].
  { by rewrite lookup_insert_eq. }
  rewrite lookup_insert_ne by done.
  rewrite lookup_fmap. by destruct (own_props c !! key).
Qed.

Lemma field_mergedRecord_mod_id warningInfo modData files changelogs :
  field (mergedRecord warningInfo modData files changelogs) "mod_id"
  = prop modData "mod_id".
Proof. unfold field, mergedRecord. simpl. by rewrite lookup_insert_eq. Qed.

(** The identifier of a result record is the identifier of its entry. *)
Lemma runResults_id r :
  upstream_consistent net ->
  r ∈ runResults net entries cacheFile ->
  exists e, e ∈ tracked entries
            /\ outcomeOf net entries cacheFile e = Some r
            /\ toString (field r "mod_id") = modIdOf e.
Proof.
  intros Hup Hr. unfold runResults in Hr.
  apply elem_of_app in Hr. destruct Hr as [Hr|Hr].
  - apply list_elem_of_fmap in Hr. destruct Hr as (e & -> & He).
    apply list_elem_of_In, filter_In in He. destruct He as [He Hreuse].
    exists e. split; [by apply list_elem_of_In|].
    split; [unfold outcomeOf; by rewrite Hreuse|].
    destruct (is_reuse_cached e Hreuse) as (c & Hc & _).
    unfold reusedRecord. rewrite Hc, field_reuseRecord.
    repeat (case_decide; [done|]).
    by apply loadPreviousCache_key in Hc as [_ ?].
  - apply list_elem_of_omap in Hr. destruct Hr as (o & Ho & Heq). subst o.
    apply list_elem_of_fmap in Ho. destruct Ho as (e & Hm & He).
    apply list_elem_of_In, filter_In in He. destruct He as [He Hreuse].
    apply negb_true_iff in Hreuse.
    exists e. split; [by apply list_elem_of_In|].
    split; [unfold outcomeOf; by rewrite Hreuse|].
    unfold memberResult in Hm.
    destruct (truthy (infoData net (modIdOf e))) eqn:Hinfo; [|done].
    inversion Hm; subst. unfold fetchedRecord.
    rewrite field_mergedRecord_mod_id. by apply Hup.
Qed.

End Results.

(** C3. A run that does not throw writes its result sequence, which holds
    exactly one record for each tracked entry that is served from the cache
    (classified [Reuse]: its cached record is usable, that is complete and
    not reported as changed) or whose summary is fetched, and nothing
    else. An entry that is new (absent from the cache) and whose summary
    request fails contributes nothing: when Nexus answers each summary
    request with the record of that identifier, no record of the output
    carries its identifier. *)
Theorem C3_one_record_per_entry net entries cacheFile :
  SignalSpec.run_ok net entries cacheFile ->
  exists s st',
    Signal.buildCuratedList net (Some (JArr entries)) cacheFile initial
    = (Normal s, st')
    /\ written st' = Some (JArr (map stringify (Signal.finalResults s)))
    /\ Signal.finalResults s
       ≡ₚ omap (SignalSpec.outcomeOf net entries cacheFile)
            (SignalSpec.tracked entries)
    /\ (forall e, is_Some (SignalSpec.outcomeOf net entries cacheFile e)
                  <-> SignalSpec.yields_record net cacheFile e = true)
    /\ length (Signal.finalResults s)
       = length (List.filter (SignalSpec.yields_record net cacheFile)
                   (SignalSpec.tracked entries))
    /\ forall e,
         e ∈ SignalSpec.tracked entries ->
         SignalSpec.decisionOf net cacheFile e = Signal.MustFetch New ->
         truthy (infoData net (modIdOf e)) = false ->
         SignalSpec.outcomeOf net entries cacheFile e = None
         /\ (upstream_consistent net ->
             forall r, r ∈ Signal.finalResults s ->
                       toString (field r "mod_id") ≠ modIdOf e).
Proof.
  intros Hok. eexists _, _. split; [by apply buildCuratedList_run|].
  cbn [Signal.finalResults trace].
  split.
  { unfold written, SignalSpec.runTrace. cbn [trace].
    rewrite !app_assoc. by rewrite last_snoc. }
  split; [apply runResults_perm|].
  split; [apply outcomeOf_Some|].
  split.
  { rewrite runResults_perm. apply omap_length_filter, outcomeOf_Some. }
  intros e He Hnew Hfail.
  assert (Hnone : SignalSpec.outcomeOf net entries cacheFile e = None).
  { unfold SignalSpec.outcomeOf, SignalSpec.is_reuse, SignalSpec.memberResult.
    by rewrite Hnew, Hfail. }
  split; [done|].
  intros Hup r Hr Hid.
  destruct (runResults_id net entries cacheFile r Hup Hr) as (e' & He' & Hout & Hid').
  assert (Hsame : modIdOf e' = modIdOf e) by congruence.
  unfold SignalSpec.outcomeOf, SignalSpec.is_reuse, SignalSpec.decisionOf,
    SignalSpec.memberResult in Hout.
  unfold SignalSpec.decisionOf in Hnew.
  rewrite Hsame, Hnew, Hfail in Hout. done.
Qed.

Lemma C3_one_record_per_entry_witness :
  SignalSpec.run_ok Examples.upstream Examples.overlay_file Examples.cache_file
  /\ exists s st',
       Signal.buildCuratedList Examples.upstream
         (Some (JArr Examples.overlay_file)) Examples.cache_file initial
       = (Normal s, st')
       /\ length (Signal.finalResults s) = 3%nat
       /\ SignalSpec.outcomeOf Examples.upstream Examples.overlay_file
            Examples.cache_file Examples.entry40 = None.
Proof.
  assert (Hok : SignalSpec.run_ok Examples.upstream Examples.overlay_file
                  Examples.cache_file) by run_ok_tac.
  split; [exact Hok|].
  destruct (C3_one_record_per_entry _ _ _ Hok)
    as (s & st' & Hrun & _ & _ & _ & Hlen & Hdrop).
  exists s, st'. split; [exact Hrun|]. split; [exact Hlen|].
  apply Hdrop.
  - apply list_elem_of_In. vm_compute. tauto.
  - vm_compute. reflexivity.
  - vm_compute. reflexivity.
Defined.

(** ** The overlay fields *)

Lemma field_mergedRecord_state warningInfo modData files changelogs :
  field (mergedRecord warningInfo modData files changelogs) "state"
  = stateOf warningInfo.
Proof. reflexivity. Qed.

Lemma field_mergedRecord_warningMessage warningInfo modData files changelogs :
  field (mergedRecord warningInfo modData files changelogs) "warningMessage"
  = warningMessageOf warningInfo.
Proof. reflexivity. Qed.

Lemma field_mergedRecord_files warningInfo modData files changelogs :
  field (mergedRecord warningInfo modData files changelogs) "files" = files.
Proof. reflexivity. Qed.

Lemma field_mergedRecord_changelogs warningInfo modData files changelogs :
  field (mergedRecord warningInfo modData files changelogs) "changelogs"
  = changelogs.
Proof. reflexivity. Qed.

(** C10. In a run that does not throw, every tracked entry finds its
    overlay entry [w] (itself, when the identifiers of the overlay are
    distinct). If the entry is served from the cache, the output holds a
    record whose [state] and [warningMessage] are those of [w] and whose
    other fields are those of the cached record. If it is fetched with
    success, the output holds a record with the same two fields of [w] and
    the fetched summary. Without an overlay entry the two fields would be
    ["normal"] and the empty string. *)
Theorem C10_overlay_fields net entries cacheFile :
  SignalSpec.run_ok net entries cacheFile ->
  exists s st',
    Signal.buildCuratedList net (Some (JArr entries)) cacheFile initial
    = (Normal s, st')
    /\ (forall e, e ∈ SignalSpec.tracked entries ->
        exists w,
          SignalSpec.warningsMapOf (SignalSpec.tracked entries) !! modIdOf e = Some w
          /\ w ∈ SignalSpec.tracked entries
          /\ modIdOf w = modIdOf e
          /\ (NoDup (map modIdOf (SignalSpec.tracked entries)) -> w = e)
          /\ (SignalSpec.is_reuse net cacheFile e = true ->
              exists c r,
                loadPreviousCache cacheFile !! modIdOf e = Some c
                /\ r ∈ Signal.finalResults s
                /\ field r "state" = prop w "state"
                /\ field r "warningMessage" = prop w "warningMessage"
                /\ forall key, key ≠ "state" -> key ≠ "warningMessage" ->
                               field r key = prop c key)
          /\ (SignalSpec.is_reuse net cacheFile e = false ->
              truthy (infoData net (modIdOf e)) = true ->
              exists r,
                r ∈ Signal.finalResults s
                /\ field r "state" = prop w "state"
                /\ field r "warningMessage" = prop w "warningMessage"
                /\ forall key,
                     key ∈ ["mod_id"; "name"; "summary"; "version"; "picture_url";
                            "author"; "mod_downloads"; "endorsement_count";
                            "updated_timestamp"; "created_timestamp"; "description"] ->
                     field r key = prop (infoData net (modIdOf e)) key))
    /\ (forall c modData files changelogs,
          field (Signal.reuseRecord None (Some c)) "state" = Some (JStr "normal")
          /\ field (Signal.reuseRecord None (Some c)) "warningMessage" = Some (JStr "")
          /\ field (mergedRecord None modData files changelogs) "state"
             = Some (JStr "normal")
          /\ field (mergedRecord None modData files changelogs) "warningMessage"
             = Some (JStr "")).
Proof.
  intros Hok. eexists _, _. split; [by apply buildCuratedList_run|].
  cbn [Signal.finalResults]. split.
  - intros e He.
    destruct (warningsMapOf_tracked _ e He) as [w Hw].
    pose proof (warningsMapOf_elem _ _ _ Hw) as [Hwin Hwid].
    destruct Hok as [Hnn _].
    destruct (tracked_elem entries w Hnn Hwin) as (_ & _ & Hwt).
    exists w. split; [done|]. split; [done|]. split; [done|].
    split.
    { intros Hnd. rewrite (warningsMapOf_unique _ e Hnd He) in Hw. congruence. }
    split.
    + intros Hreuse.
      destruct (is_reuse_cached net cacheFile e Hreuse) as (c & Hc & _).
      exists c, (SignalSpec.reusedRecord entries cacheFile e).
      split; [done|]. split.
      { unfold SignalSpec.runResults. apply elem_of_app. left.
        apply list_elem_of_fmap. exists e. split; [done|].
        apply list_elem_of_In, filter_In. split; [by apply list_elem_of_In|done]. }
      unfold SignalSpec.reusedRecord. rewrite Hw, Hc.
      rewrite !field_reuseRecord. simpl. rewrite Hwt.
      split; [done|]. split; [done|].
      intros key H1 H2. rewrite field_reuseRecord.
      by repeat (case_decide; [done|]).
    + intros Hreuse Hinfo.
      exists (Signal.fetchedRecord (Some w) (infoData net (modIdOf e))
                (prop (filesData net (modIdOf e)) "files")
                (changelogsData net (modIdOf e))).
      split.
      { unfold SignalSpec.runResults. apply elem_of_app. right.
        apply list_elem_of_omap.
        eexists. split; [|reflexivity].
        apply list_elem_of_fmap. exists e. split.
        - unfold SignalSpec.memberResult. by rewrite Hinfo, Hw.
        - apply list_elem_of_In, filter_In.
          split; [by apply list_elem_of_In | by rewrite Hreuse]. }
      unfold Signal.fetchedRecord.
      rewrite field_mergedRecord_state, field_mergedRecord_warningMessage.
      simpl. rewrite Hwt. split; [done|]. split; [done|].
      intros key Hkey.
      repeat (apply elem_of_cons in Hkey as [->|Hkey]; [reflexivity|]).
      by apply elem_of_nil in Hkey.
  - intros c modData files changelogs.
    rewrite !field_reuseRecord. done.
Qed.

(** ** A second run on the output of the first *)

Section SecondRun.
Import Signal SignalSpec.

Lemma prop_stringify (r : jsobj) key : prop (stringify r) key = field r key.
Proof.
  unfold prop, stringify, field. simpl. rewrite lookup_omap.
  by destruct (r !! key).
Qed.

(** Reading a record back and merging the same overlay entry gives the
    record that was written. *)
Lemma stringify_reuse_stringify warningInfo (r : jsobj) :
  field r "state" = stateOf warningInfo ->
  field r "warningMessage" = warningMessageOf warningInfo ->
  stringify (reuseRecord warningInfo (Some (stringify r))) = stringify r.
Proof.
  intros Hs Hw. unfold stringify at 1 3. f_equal.
  apply map_eq. intros key.
  rewrite !lookup_omap. unfold reuseRecord, spread, stringify, field in *.
  cbn [own_props].
  destruct (decide (key = "warningMessage")) as [->|H1].
  { rewrite lookup_insert_eq. simpl. rewrite <- Hw.
    by destruct (r !! "warningMessage"). }
  rewrite lookup_insert_ne by done.
  destruct (decide (key = "state")) as [->|H2].
  { rewrite lookup_insert_eq. simpl. rewrite <- Hs. by destruct (r !! "state"). }
  rewrite lookup_insert_ne by done.
  rewrite lookup_fmap, lookup_omap.
  by destruct (r !! key) as [[v|]|].
Qed.

Lemma setPrevious_last l (m : gmap string json) k :
  Forall (fun r => r ≠ JNull) l ->
  setPrevious l m !! k
  = match last (List.filter
                  (fun r => bool_decide (toString (prop r "mod_id") = k)) l) with
    | Some r => Some r
    | None => m !! k
    end.
Proof.
  intros Hl. revert m. induction Hl as [|r l Hr Hl IH]; intros m; [done|].
  assert (Hstep : setPrevious (r :: l) m
                  = setPrevious l (<[toString (prop r "mod_id") := r]> m))
    by (by destruct r).
  rewrite Hstep, IH. cbn [List.filter].
  case_bool_decide as Hk.
  - destruct (List.filter _ l) as [|w l'] eqn:Hf.
    + simpl. subst k. by rewrite lookup_insert_eq.
    + rewrite last_cons_cons.
      destruct (last (w :: l')) eqn:Hlast; [done|]. by apply last_None in Hlast.
  - destruct (last _); [done|]. by rewrite lookup_insert_ne.
Qed.

Lemma or_else_truthy a d : truthy d = true -> truthy (Signal.or_else a d) = true.
Proof.
  intros Hd. unfold or_else. destruct a as [j|]; [|done].
  by destruct (truthy j) eqn:Hj.
Qed.

Section Written.

Variable net : endpoint -> response.
Variable entries : list json.
Variable cacheFile : option json.
Hypothesis Hsucc : fetches_succeed net entries cacheFile.

Lemma toFetch_elem e :
  e ∈ tracked entries -> is_reuse net cacheFile e = false ->
  e ∈ toFetch net entries cacheFile.
Proof.
  intros He Hr. apply list_elem_of_In, filter_In.
  split; [by apply list_elem_of_In | by rewrite Hr].
Qed.

Lemma outcomeOf_tracked e :
  e ∈ tracked entries ->
  outcomeOf net entries cacheFile e
  = Some (if is_reuse net cacheFile e then reusedRecord entries cacheFile e
          else fetchedRecord (warningsMapOf (tracked entries) !! modIdOf e)
                 (infoData net (modIdOf e))
                 (prop (filesData net (modIdOf e)) "files")
                 (changelogsData net (modIdOf e))).
Proof.
  intros He. unfold outcomeOf.
  destruct (is_reuse net cacheFile e) eqn:Hr; [done|].
  destruct (Hsucc e (toFetch_elem e He Hr)) as [Hinfo _].
  unfold memberResult. by rewrite Hinfo.
Qed.

Lemma writtenRecord_not_null e : writtenRecord net entries cacheFile e ≠ JNull.
Proof. done. Qed.

Lemma writtenRecord_id e :
  e ∈ tracked entries ->
  toString (prop (writtenRecord net entries cacheFile e) "mod_id") = modIdOf e.
Proof.
  intros He. unfold writtenRecord.
  rewrite prop_stringify, (outcomeOf_tracked e He). simpl.
  destruct (is_reuse net cacheFile e) eqn:Hr.
  - destruct (is_reuse_cached net cacheFile e Hr) as (c & Hc & _).
    unfold reusedRecord. rewrite Hc, field_reuseRecord.
    repeat (case_decide; [done|]).
    by apply loadPreviousCache_key in Hc as [_ ?].
  - destruct (Hsucc e (toFetch_elem e He Hr)) as [_ Hid].
    unfold fetchedRecord. by rewrite field_mergedRecord_mod_id.
Qed.

Lemma writtenRecord_complete e :
  e ∈ tracked entries ->
  toBoolean (prop (writtenRecord net entries cacheFile e) "files") = true
  /\ toBoolean (prop (writtenRecord net entries cacheFile e) "changelogs") = true.
Proof.
  intros He. unfold writtenRecord.
  rewrite !prop_stringify, (outcomeOf_tracked e He). simpl.
  destruct (is_reuse net cacheFile e) eqn:Hr.
  - destruct (is_reuse_cached net cacheFile e Hr) as (c & Hc & _ & Hf & Hl & _).
    unfold reusedRecord. rewrite Hc, !field_reuseRecord.
    by repeat (case_decide; [done|]).
  - unfold fetchedRecord.
    rewrite field_mergedRecord_files, field_mergedRecord_changelogs.
    cbn [toBoolean]. split; by apply or_else_truthy.
Qed.

Lemma writtenRecord_overlay e :
  e ∈ tracked entries ->
  field (default ∅ (outcomeOf net entries cacheFile e)) "state"
  = stateOf (warningsMapOf (tracked entries) !! modIdOf e)
  /\ field (default ∅ (outcomeOf net entries cacheFile e)) "warningMessage"
     = warningMessageOf (warningsMapOf (tracked entries) !! modIdOf e).
Proof.
  intros He. rewrite (outcomeOf_tracked e He). simpl.
  destruct (is_reuse net cacheFile e) eqn:Hr.
  - destruct (is_reuse_cached net cacheFile e Hr) as (c & Hc & _).
    unfold reusedRecord. rewrite Hc, !field_reuseRecord. done.
  - done.
Qed.

Lemma writtenRecord_same_id e e' :
  modIdOf e = modIdOf e' ->
  writtenRecord net entries cacheFile e = writtenRecord net entries cacheFile e'.
Proof.
  intros H.
  unfold writtenRecord, outcomeOf, is_reuse, decisionOf, reusedRecord, memberResult.
  by rewrite H.
Qed.

Lemma fetched_written (l : list json) :
  (forall e, In e l ->
     is_reuse net cacheFile e = false
     /\ truthy (infoData net (modIdOf e)) = true) ->
  map stringify
    (omap (fun res => res) (map (memberResult net (warningsMapOf (tracked entries))) l))
  = map (writtenRecord net entries cacheFile) l.
Proof.
  induction l as [|e l IH]; intros H; [done|].
  destruct (H e (or_introl eq_refl)) as [Hr Hinfo].
  cbn [map omap list_omap].
  unfold memberResult at 1. rewrite Hinfo. cbn [map].
  rewrite IH by (intros e' He'; apply H; by right).
  f_equal. unfold writtenRecord, outcomeOf, memberResult.
  by rewrite Hr, Hinfo.
Qed.

Lemma catalog_written :
  map stringify (runResults net entries cacheFile)
  = map (writtenRecord net entries cacheFile)
      (reused net entries cacheFile ++ toFetch net entries cacheFile)%list.
Proof.
  unfold runResults. rewrite !map_app. f_equal.
  - rewrite map_map. apply map_ext_in. intros e He.
    apply filter_In in He. destruct He as [He Hr].
    unfold writtenRecord, outcomeOf. by rewrite Hr.
  - apply fetched_written. intros e He. split.
    + apply filter_In in He. destruct He as [_ Hr]. by apply negb_true_iff.
    + by apply Hsucc, list_elem_of_In.
Qed.

Lemma reused_toFetch_perm :
  (reused net entries cacheFile ++ toFetch net entries cacheFile)%list
  ≡ₚ tracked entries.
Proof.
  unfold reused, toFetch.
  induction (tracked entries) as [|e l IH]; [done|].
  cbn [List.filter]. destruct (is_reuse net cacheFile e); cbn [negb app].
  - by constructor.
  - rewrite <- Permutation_middle. by constructor.
Qed.

(** The cache of the second run holds the written record of each tracked
    entry under the identifier of the entry. *)
Lemma second_cache e :
  e ∈ tracked entries ->
  loadPreviousCache (Some (JArr (map stringify (runResults net entries cacheFile))))
    !! modIdOf e
  = Some (writtenRecord net entries cacheFile e).
Proof.
  intros He. unfold loadPreviousCache.
  rewrite catalog_written.
  set (L := (reused net entries cacheFile ++ toFetch net entries cacheFile)%list).
  assert (HL : forall e', e' ∈ L -> e' ∈ tracked entries).
  { intros e' He'. unfold L in He'. by rewrite reused_toFetch_perm in He'. }
  assert (HeL : e ∈ L) by (unfold L; by rewrite reused_toFetch_perm).
  rewrite setPrevious_last; cycle 1.
  { apply Forall_forall. intros r Hr.
    apply list_elem_of_fmap in Hr. by destruct Hr as (e' & -> & _). }
  destruct (last _) as [r|] eqn:Hlast.
  - apply last_Some_elem_of, list_elem_of_In, filter_In in Hlast.
    destruct Hlast as [Hin Hk]. apply bool_decide_eq_true in Hk.
    apply list_elem_of_In, list_elem_of_fmap in Hin.
    destruct Hin as (e' & -> & He').
    rewrite writtenRecord_id in Hk by auto.
    f_equal. by apply writtenRecord_same_id.
  - apply last_None in Hlast.
    assert (Hin : In (writtenRecord net entries cacheFile e)
                    (List.filter
                       (fun r => bool_decide (toString (prop r "mod_id") = modIdOf e))
                       (map (writtenRecord net entries cacheFile) L))).
    { apply filter_In. split.
      - apply list_elem_of_In, list_elem_of_fmap. by exists e.
      - apply bool_decide_eq_true. by apply writtenRecord_id. }
    rewrite Hlast in Hin. destruct Hin.
Qed.

End Written.

Lemma filter_all {A} (p : A -> bool) (l : list A) :
  (forall a, In a l -> p a = true) ->
  List.filter p l = l /\ List.filter (fun a => negb (p a)) l = [].
Proof.
  induction l as [|a l IH]; intros H; [done|].
  cbn [List.filter]. rewrite (H a (or_introl eq_refl)). cbn [negb].
  destruct IH as [-> ->]; [|done]. intros a' Ha'. apply H. by right.
Qed.

Lemma queueTrace_all_reuse net cacheFile (l : list json) :
  (forall e, In e l -> is_reuse net cacheFile e = true) ->
  queueTrace net cacheFile l = [].
Proof.
  induction l as [|e l IH]; intros H; [done|].
  unfold queueTrace in *. cbn [omap list_omap].
  pose proof (H e (or_introl eq_refl)) as He. unfold is_reuse in He.
  destruct (decisionOf net cacheFile e); [|done].
  apply IH. intros e' He'. apply H. by right.
Qed.

End SecondRun.

(** C9. Take a run of the signal version that does not throw and in which
    every summary request is answered with the record of the identifier
    asked for. Run the script again on the catalog it wrote, with the same
    overlay, while Nexus reports no update (whatever it answers to other
    requests): the second run does not throw, queues no entry, issues the
    single request for the update list, and writes a catalog that is a
    permutation of the first one. *)
Theorem C9_idempotence net1 net2 entries cacheFile :
  SignalSpec.run_ok net1 entries cacheFile ->
  SignalSpec.fetches_succeed net1 entries cacheFile ->
  SignalSpec.updatedIds net2 = [] ->
  exists s1 st1 catalog1 s2 st2 catalog2,
    Signal.buildCuratedList net1 (Some (JArr entries)) cacheFile initial
    = (Normal s1, st1)
    /\ written st1 = Some (JArr catalog1)
    /\ Signal.buildCuratedList net2 (Some (JArr entries)) (Some (JArr catalog1))
         initial
       = (Normal s2, st2)
    /\ written st2 = Some (JArr catalog2)
    /\ SignalSpec.toFetch net2 entries (Some (JArr catalog1)) = []
    /\ Signal.modsFetched s2 = 0%nat
    /\ Signal.totalApiCalls s2 = 1%nat
    /\ trace st2 = [Fetch Updated; WriteFile (JArr catalog2)]
    /\ catalog2 ≡ₚ catalog1.
Proof.
  intros Hok Hsucc Hquiet.
  set (catalog1 := map stringify (SignalSpec.runResults net1 entries cacheFile)).
  set (cache2 := Some (JArr catalog1)).
  assert (Hreuse : forall e, In e (SignalSpec.tracked entries) ->
                             SignalSpec.is_reuse net2 cache2 e = true).
  { intros e He. apply list_elem_of_In in He.
    unfold SignalSpec.is_reuse, SignalSpec.decisionOf, cache2, catalog1.
    rewrite (second_cache net1 entries cacheFile Hsucc e He).
    destruct (writtenRecord_complete net1 entries cacheFile Hsucc e He) as [Hf Hl].
    unfold Signal.classify, Signal.isNew, Signal.isUpdatedOnNexus,
      Signal.isMissingData, SignalSpec.updatedSetOf.
    rewrite Hquiet, Hf, Hl. done. }
  destruct (filter_all _ _ Hreuse) as [Hall Hnone].
  fold (SignalSpec.reused net2 entries cache2) in Hall.
  fold (SignalSpec.toFetch net2 entries cache2) in Hnone.
  assert (Hok2 : SignalSpec.run_ok net2 entries cache2).
  { split; [apply Hok | rewrite Hnone; constructor]. }
  assert (Hcat2 : map stringify (SignalSpec.runResults net2 entries cache2)
                  = map (SignalSpec.writtenRecord net1 entries cacheFile)
                      (SignalSpec.tracked entries)).
  { unfold SignalSpec.runResults. rewrite Hall, Hnone. cbn [map omap list_omap].
    rewrite app_nil_r, map_map. apply map_ext_in. intros e He.
    apply list_elem_of_In in He.
    unfold SignalSpec.reusedRecord, cache2, catalog1.
    rewrite (second_cache net1 entries cacheFile Hsucc e He).
    destruct (writtenRecord_overlay net1 entries cacheFile Hsucc e He) as [Hs Hw].
    unfold SignalSpec.writtenRecord. by apply stringify_reuse_stringify. }
  exists (Signal.mkSummary (SignalSpec.runResults net1 entries cacheFile)
            (length (SignalSpec.tracked entries))
            (length (SignalSpec.toFetch net1 entries cacheFile))
            (length (SignalSpec.tracked entries)
             - length (SignalSpec.toFetch net1 entries cacheFile))
            (SignalSpec.runCalls net1 entries cacheFile)),
    (mkState (SignalSpec.runCalls net1 entries cacheFile)
       (SignalSpec.runTrace net1 entries cacheFile)),
    catalog1.
  eexists _, _, (map stringify (SignalSpec.runResults net2 entries cache2)).
  split; [by apply buildCuratedList_run|].
  split.
  { unfold written, SignalSpec.runTrace. cbn [trace].
    rewrite !app_assoc. by rewrite last_snoc. }
  split; [by apply buildCuratedList_run|].
  assert (Htrace2 : SignalSpec.runTrace net2 entries cache2
                    = [Fetch Updated;
                       WriteFile (JArr (map stringify
                                          (SignalSpec.runResults net2 entries cache2)))]).
  { unfold SignalSpec.runTrace.
    rewrite (queueTrace_all_reuse net2 cache2 _ Hreuse), Hnone. done. }
  cbn [trace Signal.modsFetched Signal.totalApiCalls].
  change (Some (JArr catalog1)) with cache2.
  split; [unfold written; cbn [trace]; by rewrite Htrace2|].
  split; [done|].
  split; [by rewrite Hnone|].
  split; [unfold SignalSpec.runCalls; by rewrite Hnone|].
  split; [done|].
  rewrite Hcat2. unfold catalog1.
  rewrite (catalog_written net1 entries cacheFile Hsucc).
  apply Permutation_map. symmetry. apply reused_toFetch_perm.
Qed.

Lemma C9_idempotence_witness :
  SignalSpec.run_ok Examples.upstream Examples.overlay Examples.cache_file
  /\ SignalSpec.fetches_succeed Examples.upstream Examples.overlay Examples.cache_file
  /\ SignalSpec.updatedIds Examples.upstream = []
  /\ exists s1 st1 catalog1 s2 st2 catalog2,
       Signal.buildCuratedList Examples.upstream (Some (JArr Examples.overlay))
         Examples.cache_file initial = (Normal s1, st1)
       /\ written st1 = Some (JArr catalog1)
       /\ Signal.buildCuratedList Examples.upstream (Some (JArr Examples.overlay))
            (Some (JArr catalog1)) initial = (Normal s2, st2)
       /\ written st2 = Some (JArr catalog2)
       /\ Signal.modsFetched s2 = 0%nat
       /\ catalog2 ≡ₚ catalog1.
Proof.
  assert (Hok : SignalSpec.run_ok Examples.upstream Examples.overlay
                  Examples.cache_file) by run_ok_tac.
  assert (Hsucc : SignalSpec.fetches_succeed Examples.upstream Examples.overlay
                    Examples.cache_file).
  { intros e He. apply list_elem_of_In in He. vm_compute in He.
    destruct He as [<-|[<-|[]]]; split; vm_compute; reflexivity. }
  assert (Hquiet : SignalSpec.updatedIds Examples.upstream = []) by reflexivity.
  split; [exact Hok|]. split; [exact Hsucc|]. split; [exact Hquiet|].
  destruct (C9_idempotence Examples.upstream Examples.upstream Examples.overlay
              Examples.cache_file Hok Hsucc Hquiet)
    as (s1 & st1 & c1 & s2 & st2 & c2 & H1 & H2 & H3 & H4 & _ & H5 & _ & _ & H6).
  exists s1, st1, c1, s2, st2, c2. tauto.
Defined.

Lemma C10_overlay_fields_witness :
  SignalSpec.run_ok Examples.upstream [Examples.entry10_broken; Examples.entry20]
    Examples.cache_file
  /\ exists s st' r1 r2,
       Signal.buildCuratedList Examples.upstream
         (Some (JArr [Examples.entry10_broken; Examples.entry20]))
         Examples.cache_file initial = (Normal s, st')
       /\ r1 ∈ Signal.finalResults s
       /\ field r1 "state" = Some (JStr "broken")
       /\ field r1 "warningMessage" = Some (JStr "crashes")
       /\ field r1 "name" = prop Examples.cached10 "name"
       /\ r2 ∈ Signal.finalResults s
       /\ field r2 "state" = Some (JStr "broken")
       /\ field r2 "mod_id" = Some (JNum 20).
Proof.
  assert (Hok : SignalSpec.run_ok Examples.upstream
                  [Examples.entry10_broken; Examples.entry20] Examples.cache_file)
    by run_ok_tac.
  split; [exact Hok|].
  destruct (C10_overlay_fields _ _ _ Hok) as (s & st' & Hrun & Hall & _).
  destruct (Hall Examples.entry10_broken) as (w1 & _ & _ & _ & Hw1 & Hr1 & _).
  { apply list_elem_of_In. vm_compute. tauto. }
  destruct (Hall Examples.entry20) as (w2 & _ & _ & _ & Hw2 & _ & Hr2).
  { apply list_elem_of_In. vm_compute. tauto. }
  assert (Hnd : NoDup (map modIdOf
                         (SignalSpec.tracked [Examples.entry10_broken; Examples.entry20]))).
  { vm_compute. by apply (bool_decide_unpack _). }
  specialize (Hw1 Hnd). specialize (Hw2 Hnd). subst w1 w2.
  destruct Hr1 as (c & r1 & Hc & Hin1 & Hs1 & Hm1 & Hrest); [vm_compute; reflexivity|].
  destruct Hr2 as (r2 & Hin2 & Hs2 & _ & Hrest2);
    [vm_compute; reflexivity | vm_compute; reflexivity |].
  exists s, st', r1, r2.
  split; [exact Hrun|]. split; [exact Hin1|]. split; [exact Hs1|].
  split; [exact Hm1|].
  split.
  { rewrite Hrest by done.
    assert (Hc' : loadPreviousCache Examples.cache_file !! "10" = Some Examples.cached10)
      by (vm_compute; reflexivity).
    change (modIdOf Examples.entry10_broken) with "10" in Hc.
    rewrite Hc' in Hc. by inversion Hc. }
  split; [exact Hin2|]. split; [exact Hs2|].
  rewrite Hrest2 by (apply list_elem_of_In; simpl; tauto).
  vm_compute. reflexivity.
Defined.

(** ** The closure of the timestamp version *)

Section TimestampMember.

Variable net : endpoint -> response.
Variable warningsMap : gmap string json.
Variable previousDataMap : gmap string json.

Lemma ts_fetchOne_failed inputMod st :
  inputMod ≠ JNull ->
  truthy (infoData net (modIdOf inputMod)) = false ->
  Timestamp.fetchOne net warningsMap previousDataMap inputMod st
  = (Normal None, after st 1 [Fetch (Info (modIdOf inputMod))]).
Proof.
  intros Hnn Hinfo. unfold Timestamp.fetchOne.
  unfold lift at 1. unfold bind at 1. rewrite (js_get_not_null _ _ Hnn).
  fold (modIdOf inputMod).
  erewrite bind_normal by apply fetchModDataFromNexus_run.
  erewrite bind_normal by apply count_call_run.
  rewrite Hinfo. simpl. unfold ret. by rewrite after_after.
Qed.

Lemma ts_fetchOne_reuse inputMod st :
  inputMod ≠ JNull ->
  truthy (infoData net (modIdOf inputMod)) = true ->
  Timestamp.canReuse (previousDataMap !! modIdOf inputMod)
    (infoData net (modIdOf inputMod)) = true ->
  Timestamp.fetchOne net warningsMap previousDataMap inputMod st
  = (Normal (Some (mergedRecord (warningsMap !! modIdOf inputMod)
                     (infoData net (modIdOf inputMod))
                     (Timestamp.cachedProp (previousDataMap !! modIdOf inputMod) "files")
                     (Timestamp.cachedProp (previousDataMap !! modIdOf inputMod)
                        "changelogs"))),
     after st 1 [Fetch (Info (modIdOf inputMod))]).
Proof.
  intros Hnn Hinfo Hreuse. unfold Timestamp.fetchOne.
  unfold lift at 1. unfold bind at 1. rewrite (js_get_not_null _ _ Hnn).
  fold (modIdOf inputMod).
  erewrite bind_normal by apply fetchModDataFromNexus_run.
  erewrite bind_normal by apply count_call_run.
  rewrite Hinfo, Hreuse. simpl. unfold bind, ret. by rewrite after_after.
Qed.

Lemma ts_fetchOne_fresh inputMod st :
  inputMod ≠ JNull ->
  truthy (infoData net (modIdOf inputMod)) = true ->
  Timestamp.canReuse (previousDataMap !! modIdOf inputMod)
    (infoData net (modIdOf inputMod)) = false ->
  filesData net (modIdOf inputMod) ≠ JNull ->
  Timestamp.fetchOne net warningsMap previousDataMap inputMod st
  = (Normal (Some (mergedRecord (warningsMap !! modIdOf inputMod)
                     (infoData net (modIdOf inputMod))
                     (prop (filesData net (modIdOf inputMod)) "files")
                     (Some (changelogsData net (modIdOf inputMod))))),
     after st 3 [Fetch (Info (modIdOf inputMod));
                 Fetch (Files (modIdOf inputMod));
                 Fetch (Changelogs (modIdOf inputMod))]).
Proof.
  intros Hnn Hinfo Hreuse Hfiles. unfold Timestamp.fetchOne.
  unfold lift at 1. unfold bind at 1. rewrite (js_get_not_null _ _ Hnn).
  fold (modIdOf inputMod).
  erewrite bind_normal by apply fetchModDataFromNexus_run.
  erewrite bind_normal by apply count_call_run.
  rewrite Hinfo, Hreuse. cbn [negb].
  erewrite bind_normal; cycle 1.
  { erewrite bind_normal by apply fetchModFilesFromNexus_run.
    unfold lift at 1. unfold bind at 1. rewrite (js_get_not_null _ _ Hfiles).
    erewrite bind_normal by apply count_call_run.
    erewrite bind_normal by apply fetchModChangelogsFromNexus_run.
    erewrite bind_normal by apply count_call_run.
    unfold ret. reflexivity. }
  unfold ret. rewrite !after_after. done.
Qed.

End TimestampMember.

(** ** Which identifiers a run asks Nexus about *)

Section Requests.
Import Signal SignalSpec.

Variable net : endpoint -> response.

Lemma memberTrace_id e ev modId :
  ev ∈ memberTrace net e -> fetched_id ev = Some modId -> modId = modIdOf e.
Proof.
  unfold memberTrace. intros Hev Hid.
  apply elem_of_cons in Hev as [->|Hev]; [by inversion Hid|].
  destruct (truthy _); [|by apply elem_of_nil in Hev].
  repeat (apply elem_of_cons in Hev as [->|Hev]; [by inversion Hid|]).
  by apply elem_of_nil in Hev.
Qed.

Lemma groupTrace_id g ev modId :
  ev ∈ groupTrace net g -> fetched_id ev = Some modId ->
  exists e, e ∈ g /\ modIdOf e = modId.
Proof.
  unfold groupTrace. intros Hev Hid.
  apply elem_of_app in Hev as [Hev|Hev].
  - apply list_elem_of_In, in_concat in Hev. destruct Hev as (t & Ht & Hev).
    apply list_elem_of_In in Hev, Ht.
    apply list_elem_of_fmap in Ht. destruct Ht as (e & -> & He).
    exists e. split; [done|]. symmetry. by eapply memberTrace_id.
  - apply list_elem_of_singleton in Hev. by subst.
Qed.

Lemma loopTrace_id gs ev modId :
  ev ∈ loopTrace net gs -> fetched_id ev = Some modId ->
  exists e, e ∈ concat gs /\ modIdOf e = modId.
Proof.
  induction gs as [|g gs IH]; intros Hev Hid.
  - by apply elem_of_nil in Hev.
  - rewrite loopTrace_cons in Hev. apply elem_of_app in Hev as [Hev|Hev].
    + destruct (groupTrace_id g ev modId Hev Hid) as (e & He & Heq).
      exists e. split; [|done]. cbn [concat]. apply elem_of_app. by left.
    + destruct gs as [|g' gs']; [by apply elem_of_nil in Hev|].
      apply elem_of_cons in Hev as [->|Hev]; [done|].
      destruct (IH Hev Hid) as (e & He & Heq).
      exists e. split; [|done]. cbn [concat]. apply elem_of_app. by right.
Qed.

Lemma queueTrace_id cacheFile l ev : ev ∈ queueTrace net cacheFile l -> fetched_id ev = None.
Proof.
  unfold queueTrace. intros Hev. apply list_elem_of_omap in Hev.
  destruct Hev as (e & _ & He). destruct (decisionOf net cacheFile e); by inversion He.
Qed.

(** A per-record request of a run is about an entry that was queued. *)
Lemma runTrace_id entries cacheFile ev modId :
  ev ∈ runTrace net entries cacheFile -> fetched_id ev = Some modId ->
  exists e, e ∈ toFetch net entries cacheFile /\ modIdOf e = modId.
Proof.
  unfold runTrace. intros Hev Hid.
  apply elem_of_app in Hev as [Hev|Hev].
  { apply list_elem_of_singleton in Hev. by subst. }
  apply elem_of_app in Hev as [Hev|Hev].
  { apply queueTrace_id in Hev. congruence. }
  apply elem_of_app in Hev as [Hev|Hev].
  - destruct (loopTrace_id _ ev modId Hev Hid) as (e & He & Heq).
    exists e. split; [|done].
    rewrite groups_concat in He; [done | unfold BATCH_SIZE; lia | lia].
  - apply list_elem_of_singleton in Hev. by subst.
Qed.

Lemma is_reuse_same_id cacheFile e e' :
  modIdOf e = modIdOf e' -> is_reuse net cacheFile e = is_reuse net cacheFile e'.
Proof. unfold is_reuse, decisionOf. by intros ->. Qed.

End Requests.

(** C5. Signal version: a tracked entry whose cached record is complete
    and whose identifier is not in the change signal is classified
    [Reuse], and the run issues no request at all about its identifier.
    Timestamp version: when the cached record is complete and its
    [updated_timestamp] is strictly equal to that of the summary just
    fetched, the closure issues the summary request only and takes the
    files and the changelogs from the cache. *)
Theorem C5_reuse_without_fetch :
  (forall net entries cacheFile e c,
     SignalSpec.run_ok net entries cacheFile ->
     e ∈ SignalSpec.tracked entries ->
     loadPreviousCache cacheFile !! modIdOf e = Some c ->
     complete c = true ->
     modIdOf e ∉ SignalSpec.updatedSetOf net ->
     SignalSpec.decisionOf net cacheFile e = Signal.Reuse
     /\ exists s st',
          Signal.buildCuratedList net (Some (JArr entries)) cacheFile initial
          = (Normal s, st')
          /\ (Fetch (Info (modIdOf e)) ∉ trace st')
          /\ (Fetch (Files (modIdOf e)) ∉ trace st')
          /\ (Fetch (Changelogs (modIdOf e)) ∉ trace st'))
  /\
  (forall net warningsMap previousDataMap inputMod c st,
     inputMod ≠ JNull ->
     previousDataMap !! modIdOf inputMod = Some c ->
     complete c = true ->
     truthy (infoData net (modIdOf inputMod)) = true ->
     strict_eq (prop c "updated_timestamp")
       (prop (infoData net (modIdOf inputMod)) "updated_timestamp") = true ->
     exists r st',
       Timestamp.fetchOne net warningsMap previousDataMap inputMod st
       = (Normal (Some r), st')
       /\ trace st' = (trace st ++ [Fetch (Info (modIdOf inputMod))])%list
       /\ apiCallCount st' = S (apiCallCount st)
       /\ field r "files" = prop c "files"
       /\ field r "changelogs" = prop c "changelogs").
Proof.
  split.
  - intros net entries cacheFile e c Hok He Hc Hcomplete Hquiet.
    unfold complete in Hcomplete.
    apply andb_true_iff in Hcomplete as [Hf Hl].
    assert (Ht : truthy c = true).
    { destruct (prop c "files") as [x|] eqn:Hp; [|done]. by eapply prop_truthy. }
    assert (Hd : SignalSpec.decisionOf net cacheFile e = Signal.Reuse).
    { unfold SignalSpec.decisionOf, Signal.classify, Signal.isNew,
        Signal.isUpdatedOnNexus, Signal.isMissingData.
      rewrite Hc. simpl. rewrite Ht, Hf, Hl.
      by rewrite bool_decide_false. }
    split; [done|].
    eexists _, _. split; [by apply buildCuratedList_run|].
    cbn [trace].
    assert (Hno : forall ev, SignalSpec.fetched_id ev = Some (modIdOf e) ->
                             ev ∉ SignalSpec.runTrace net entries cacheFile).
    { intros ev Hid Hev.
      destruct (runTrace_id net entries cacheFile ev _ Hev Hid) as (e' & He' & Heq).
      apply list_elem_of_In, filter_In in He'. destruct He' as [_ Hr].
      rewrite (is_reuse_same_id net cacheFile e' e Heq) in Hr.
      unfold SignalSpec.is_reuse in Hr. by rewrite Hd in Hr. }
    repeat split; by apply Hno.
  - intros net warningsMap previousDataMap inputMod c st Hnn Hc Hcomplete Hinfo Heq.
    unfold complete in Hcomplete.
    apply andb_true_iff in Hcomplete as [Hf Hl].
    assert (Ht : truthy c = true).
    { destruct (prop c "files") as [x|] eqn:Hp; [|done]. by eapply prop_truthy. }
    eexists _, _. split.
    { apply ts_fetchOne_reuse; [done | done |].
      unfold Timestamp.canReuse. by rewrite Hc, Ht, Heq, Hf, Hl. }
    rewrite Hc. cbn [trace apiCallCount after Timestamp.cachedProp].
    repeat split. lia.
Qed.

Lemma C5_reuse_without_fetch_witness :
  (SignalSpec.run_ok Examples.upstream Examples.overlay Examples.cache_file
   /\ Examples.entry10 ∈ SignalSpec.tracked Examples.overlay
   /\ loadPreviousCache Examples.cache_file !! modIdOf Examples.entry10
      = Some Examples.cached10
   /\ complete Examples.cached10 = true
   /\ (modIdOf Examples.entry10 ∉ SignalSpec.updatedSetOf Examples.upstream)
   /\ SignalSpec.decisionOf Examples.upstream Examples.cache_file Examples.entry10
      = Signal.Reuse)
  /\ (Examples.entry10 ≠ JNull
      /\ exists r st',
           Timestamp.fetchOne Examples.upstream ∅ {[ "10" := Examples.cached10 ]}
             Examples.entry10 initial = (Normal (Some r), st')
           /\ trace st' = [Fetch (Info "10")]
           /\ field r "files" = Some (JArr [])).
Proof.
  assert (Hok : SignalSpec.run_ok Examples.upstream Examples.overlay
                  Examples.cache_file) by run_ok_tac.
  assert (Hin : Examples.entry10 ∈ SignalSpec.tracked Examples.overlay)
    by (apply list_elem_of_In; vm_compute; tauto).
  assert (Hc : loadPreviousCache Examples.cache_file !! modIdOf Examples.entry10
               = Some Examples.cached10) by (vm_compute; reflexivity).
  assert (Hcomplete : complete Examples.cached10 = true)
    by (vm_compute; reflexivity).
  assert (Hquiet : modIdOf Examples.entry10 ∉ SignalSpec.updatedSetOf Examples.upstream).
  { unfold SignalSpec.updatedSetOf.
    change (SignalSpec.updatedIds Examples.upstream) with (@nil string).
    apply not_elem_of_empty. }
  assert (Hnn : Examples.entry10 ≠ JNull) by discriminate.
  destruct C5_reuse_without_fetch as [Hsignal Htimestamp].
  split.
  - destruct (Hsignal _ _ _ _ _ Hok Hin Hc Hcomplete Hquiet) as [Hd _].
    split; [exact Hok|]. split; [exact Hin|]. split; [exact Hc|].
    split; [exact Hcomplete|]. split; [exact Hquiet | exact Hd].
  - split; [exact Hnn|].
    destruct (Htimestamp Examples.upstream ∅ {[ "10" := Examples.cached10 ]}
                Examples.entry10 Examples.cached10 initial Hnn)
      as (r & st' & Hrun & Htrace & _ & Hfiles & _);
      try (vm_compute; reflexivity).
    exists r, st'. split; [exact Hrun|]. split; [exact Htrace|].
    rewrite Hfiles. vm_compute. reflexivity.
Defined.

(** ** The fetch reasons *)

(** C2, as the script has it. A tracked entry whose cached record lacks
    the file listing or the changelogs is queued for fetching whether or
    not its identifier is in the change signal; the reason printed is
    [MissingData] when the identifier is not in the change signal and
    [UpdatedUpstream] when it is. *)
Theorem C2_missing_data_is_queued warningsMap previousDataMap updatedSet
    acc inputMod c st :
  inputMod ≠ JNull ->
  previousDataMap !! modIdOf inputMod = Some c ->
  truthy c = true ->
  prop c "files" = None \/ prop c "changelogs" = None ->
  let r := if bool_decide (modIdOf inputMod ∈ updatedSet)
           then UpdatedUpstream else MissingData in
  Signal.classify updatedSet (Some c) (modIdOf inputMod) = Signal.MustFetch r
  /\ Signal.classifyStep warningsMap previousDataMap updatedSet acc inputMod st
     = (Normal ((fst acc ++ [inputMod])%list, snd acc),
        after st 0 [Queueing (modIdOf inputMod) r]).
Proof.
  intros Hnn Hc Ht Hmissing r.
  assert (Hclass : Signal.classify updatedSet (Some c) (modIdOf inputMod)
                   = Signal.MustFetch r).
  { unfold Signal.classify, Signal.isNew, Signal.isUpdatedOnNexus,
      Signal.isMissingData, r. simpl. rewrite Ht. simpl.
    destruct (bool_decide (modIdOf inputMod ∈ updatedSet)); [done|].
    destruct Hmissing as [-> | ->]; simpl; [done|].
    by rewrite orb_true_r. }
  split; [done|].
  rewrite classifyStep_run by done. by rewrite Hc, Hclass.
Qed.

Lemma C2_missing_data_is_queued_witness :
  Examples.entry10 ≠ JNull
  /\ truthy Examples.cached10_no_changelogs = true
  /\ prop Examples.cached10_no_changelogs "changelogs" = None
  /\ Signal.classify ∅ (Some Examples.cached10_no_changelogs) "10"
     = Signal.MustFetch MissingData
  /\ Signal.classifyStep ∅ {[ "10" := Examples.cached10_no_changelogs ]} ∅
       ([], []) Examples.entry10 initial
     = (Normal ([Examples.entry10], []),
        after initial 0 [Queueing "10" MissingData]).
Proof.
  assert (Hnn : Examples.entry10 ≠ JNull) by discriminate.
  assert (Ht : truthy Examples.cached10_no_changelogs = true) by reflexivity.
  assert (Hp : prop Examples.cached10_no_changelogs "changelogs" = None)
    by (vm_compute; reflexivity).
  split; [exact Hnn|]. split; [exact Ht|]. split; [exact Hp|].
  assert (Hc : ({[ "10" := Examples.cached10_no_changelogs ]} : gmap string json)
                 !! modIdOf Examples.entry10
               = Some Examples.cached10_no_changelogs) by (vm_compute; reflexivity).
  destruct (C2_missing_data_is_queued ∅ {[ "10" := Examples.cached10_no_changelogs ]}
              ∅ ([], []) Examples.entry10 Examples.cached10_no_changelogs initial
              Hnn Hc Ht (or_intror Hp)) as [H1 H2].
  rewrite bool_decide_false in H1, H2 by apply not_elem_of_empty.
  split; [exact H1 | exact H2].
Defined.

(** The claim C2 fails as stated: the cached record of mod 10 lacks the
    changelogs and Nexus reports mod 10 as updated; the reason is
    [UpdatedUpstream], in [classify] and in the trace of the run. *)
Lemma C2_counterexample :
  prop Examples.cached10_no_changelogs "changelogs" = None
  /\ Signal.classify {[ "10" ]} (Some Examples.cached10_no_changelogs) "10"
     = Signal.MustFetch UpdatedUpstream
  /\ Signal.classify {[ "10" ]} (Some Examples.cached10_no_changelogs) "10"
     ≠ Signal.MustFetch MissingData
  /\ List.filter
       (fun ev => match ev with Queueing _ _ => true | _ => false end)
       (trace (snd (Signal.buildCuratedList Examples.upstream_changed
                      (Some (JArr [Examples.entry10]))
                      (Some (JArr [Examples.cached10_no_changelogs])) initial)))
     = [Queueing "10" UpdatedUpstream].
Proof.
  split; [vm_compute; reflexivity|].
  split; [vm_compute; reflexivity|].
  split; [vm_compute; discriminate|].
  vm_compute. reflexivity.
Qed.

(** ** Completeness of a cached record *)

(** C7, as the script has it. A cached record is complete exactly when
    the values under [files] and under [changelogs] are both truthy; it is
    reused exactly when it is complete and its identifier is not in the
    change signal. An empty listing with an empty map is complete. A
    record that lacks either key is incomplete; an incomplete record is
    queued, with the reason [MissingData] when the identifier is not in
    the change signal and [UpdatedUpstream] when it is. In the timestamp
    version an incomplete record is never reused, and a complete one is
    reused exactly when the two timestamps are strictly equal. *)
Theorem C7_complete_cached_record updatedSet c modId :
  (Signal.classify updatedSet (Some c) modId = Signal.Reuse
   <-> complete c = true /\ modId ∉ updatedSet)
  /\ (prop c "files" = Some (JArr []) -> prop c "changelogs" = Some (JObj ∅) ->
      complete c = true)
  /\ (prop c "files" = None \/ prop c "changelogs" = None ->
      complete c = false)
  /\ (truthy c = true ->
      complete c = false ->
      Signal.classify updatedSet (Some c) modId
      = Signal.MustFetch (if bool_decide (modId ∈ updatedSet)
                          then UpdatedUpstream else MissingData))
  /\ (forall modData,
        Timestamp.canReuse (Some c) modData
        = complete c
          && strict_eq (prop c "updated_timestamp") (prop modData "updated_timestamp")).
Proof.
  unfold complete.
  assert (Htruthy : toBoolean (prop c "files") = true -> truthy c = true).
  { destruct (prop c "files") as [x|] eqn:Hp; [|done]. intros _. by eapply prop_truthy. }
  split; [|split; [|split; [|split]]].
  - unfold Signal.classify, Signal.isNew, Signal.isUpdatedOnNexus,
      Signal.isMissingData. simpl.
    destruct (toBoolean (prop c "files")) eqn:Hf.
    + rewrite Htruthy by done. simpl.
      case_bool_decide as Hin; simpl.
      * split; [done|]. by intros [_ ?].
      * destruct (toBoolean (prop c "changelogs")); simpl; split; try done.
        by intros [? _].
    + simpl. split; [|by intros [? _]].
      destruct (truthy c); simpl; [|done].
      by case_bool_decide.
  - by intros -> ->.
  - intros [-> | ->]; simpl; [done | by rewrite andb_false_r].
  - intros Ht Hincomplete.
    unfold Signal.classify, Signal.isNew, Signal.isUpdatedOnNexus,
      Signal.isMissingData. simpl. rewrite Ht. simpl.
    destruct (bool_decide (modId ∈ updatedSet)); [done|].
    by destruct (toBoolean (prop c "files")), (toBoolean (prop c "changelogs")).
  - intros modData. unfold Timestamp.canReuse.
    destruct (toBoolean (prop c "files")) eqn:Hf.
    + rewrite Htruthy by done. simpl.
      by destruct (strict_eq _ _), (toBoolean (prop c "changelogs")).
    + simpl. by rewrite andb_false_r.
Qed.

Lemma C7_complete_cached_record_witness :
  truthy Examples.cached10_no_changelogs = true
  /\ prop Examples.cached10_no_changelogs "changelogs" = None
  /\ complete Examples.cached10_no_changelogs = false
  /\ Signal.classify ∅ (Some Examples.cached10_no_changelogs) "10"
     = Signal.MustFetch MissingData
  /\ prop Examples.cached10 "files" = Some (JArr [])
  /\ prop Examples.cached10 "changelogs" = Some (JObj ∅)
  /\ complete Examples.cached10 = true
  /\ Signal.classify ∅ (Some Examples.cached10) "10" = Signal.Reuse.
Proof.
  assert (Ht : truthy Examples.cached10_no_changelogs = true) by reflexivity.
  assert (Hp : prop Examples.cached10_no_changelogs "changelogs" = None)
    by (vm_compute; reflexivity).
  assert (Hf : prop Examples.cached10 "files" = Some (JArr []))
    by (vm_compute; reflexivity).
  assert (Hl : prop Examples.cached10 "changelogs" = Some (JObj ∅))
    by (vm_compute; reflexivity).
  destruct (C7_complete_cached_record ∅ Examples.cached10_no_changelogs "10")
    as (_ & _ & Hmissing & Hqueued & _).
  destruct (C7_complete_cached_record ∅ Examples.cached10 "10")
    as (Hreuse & Hempty & _ & _).
  pose proof (Hmissing (or_intror Hp)) as Hincomplete.
  pose proof (Hqueued Ht Hincomplete) as Hreason.
  rewrite bool_decide_false in Hreason by apply not_elem_of_empty.
  pose proof (Hempty Hf Hl) as Hcomplete.
  split; [exact Ht|]. split; [exact Hp|]. split; [exact Hincomplete|].
  split; [exact Hreason|].
  split; [exact Hf|]. split; [exact Hl|]. split; [exact Hcomplete|].
  apply Hreuse. split; [exact Hcomplete | apply not_elem_of_empty].
Defined.

(** The claim C7 fails as stated, in two ways. A record that carries both
    keys, [files] holding [null], is not complete: it is queued. And a
    record without changelogs whose identifier is in the change signal is
    queued with the reason [UpdatedUpstream], not [MissingData]. *)
Lemma C7_counterexample :
  (is_Some (prop Examples.cached10_null_files "files")
   /\ is_Some (prop Examples.cached10_null_files "changelogs")
   /\ Signal.classify ∅ (Some Examples.cached10_null_files) "10"
      = Signal.MustFetch MissingData
   /\ Timestamp.canReuse (Some Examples.cached10_null_files)
        Examples.cached10_null_files = false)
  /\ (prop Examples.cached10_no_changelogs "changelogs" = None
      /\ Signal.classify {[ "10" ]} (Some Examples.cached10_no_changelogs) "10"
         = Signal.MustFetch UpdatedUpstream).
Proof.
  split; [split; [|split; [|split]] | split].
  - vm_compute. by eexists.
  - vm_compute. by eexists.
  - vm_compute. reflexivity.
  - vm_compute. reflexivity.
  - vm_compute. reflexivity.
  - vm_compute. reflexivity.
Qed.

(** ** Failures of the three requests *)

Lemma filesData_failed net modId :
  fetch_failed net (Files modId) = true ->
  filesData net modId = JObj {[ "files" := JArr [] ]}.
Proof.
  unfold fetch_failed, filesData.
  destruct (net (Files modId)) as [|status [j|]]; simpl; try done;
    destruct (response_ok status); simpl; done.
Qed.

Lemma changelogsData_failed net modId :
  fetch_failed net (Changelogs modId) = true ->
  changelogsData net modId = JObj ∅.
Proof.
  unfold fetch_failed, changelogsData.
  destruct (net (Changelogs modId)) as [|status [j|]]; simpl; try done;
    destruct (response_ok status); simpl; done.
Qed.

(** C4. The closure of a batch, on an entry that is not [null]. If the
    summary request fails, the helper returns [null]; on [null] (or any
    falsy summary) the closure issues no other request, resolves to no
    record and does not throw, and [Promise.all] over a batch that holds
    the entry still resolves, with one result for each member. If the
    summary is fetched and the files request fails, the closure resolves
    to a record with an empty file listing; if the changelogs request
    fails (the files body not being the JSON [null]), to a record with an
    empty changelog map. *)
Theorem C4_fetch_failures net warningsMap inputMod st :
  inputMod ≠ JNull ->
  let modId := modIdOf inputMod in
  (fetch_failed net (Info modId) = true -> infoData net modId = JNull)
  /\ (truthy (infoData net modId) = false ->
      Signal.fetchOne net warningsMap inputMod st
      = (Normal None, after st 1 [Fetch (Info modId)]))
  /\ (truthy (infoData net modId) = false ->
      forall batch st0,
        inputMod ∈ batch ->
        Forall (SignalSpec.member_ok net) batch ->
        exists batchResults st',
          mapM (Signal.fetchOne net warningsMap) batch st0
          = (Normal batchResults, st')
          /\ length batchResults = length batch)
  /\ (truthy (infoData net modId) = true ->
      fetch_failed net (Files modId) = true ->
      exists r,
        Signal.fetchOne net warningsMap inputMod st
        = (Normal (Some r),
           after st 3 [Fetch (Info modId); Fetch (Files modId);
                       Fetch (Changelogs modId)])
        /\ field r "files" = Some (JArr []))
  /\ (truthy (infoData net modId) = true ->
      fetch_failed net (Changelogs modId) = true ->
      filesData net modId ≠ JNull ->
      exists r,
        Signal.fetchOne net warningsMap inputMod st
        = (Normal (Some r),
           after st 3 [Fetch (Info modId); Fetch (Files modId);
                       Fetch (Changelogs modId)])
        /\ field r "changelogs" = Some (JObj ∅)).
Proof.
  intros Hnn modId.
  split; [apply infoData_failed|].
  split; [|split; [|split]].
  - intros Hinfo. rewrite fetchOne_run.
    + unfold SignalSpec.memberResult, SignalSpec.memberCalls,
        SignalSpec.memberTrace. fold modId. by rewrite Hinfo.
    + split; [done|]. fold modId. by rewrite Hinfo.
  - intros _ batch st0 _ Hok. eexists _, _.
    split; [by apply mapM_fetchOne_run|]. by rewrite length_map.
  - intros Hinfo Hfiles. eexists. rewrite fetchOne_run.
    + unfold SignalSpec.memberResult, SignalSpec.memberCalls,
        SignalSpec.memberTrace. fold modId. rewrite Hinfo.
      split; [reflexivity|].
      unfold Signal.fetchedRecord. rewrite field_mergedRecord_files.
      by rewrite (filesData_failed _ _ Hfiles).
    + split; [done|]. fold modId. intros _.
      by rewrite (filesData_failed _ _ Hfiles).
  - intros Hinfo Hlogs Hfiles. eexists. rewrite fetchOne_run.
    + unfold SignalSpec.memberResult, SignalSpec.memberCalls,
        SignalSpec.memberTrace. fold modId. rewrite Hinfo.
      split; [reflexivity|].
      unfold Signal.fetchedRecord. rewrite field_mergedRecord_changelogs.
      by rewrite (changelogsData_failed _ _ Hlogs).
    + split; [done|]. by fold modId.
Qed.

Lemma C4_fetch_failures_witness :
  Examples.entry40 ≠ JNull
  /\ fetch_failed Examples.upstream (Info "40") = true
  /\ Signal.fetchOne Examples.upstream ∅ Examples.entry40 initial
     = (Normal None, after initial 1 [Fetch (Info "40")])
  /\ truthy (infoData Examples.upstream "30") = true
  /\ fetch_failed Examples.upstream (Changelogs "30") = true
  /\ exists r,
       Signal.fetchOne Examples.upstream ∅ Examples.entry30 initial
       = (Normal (Some r),
          after initial 3 [Fetch (Info "30"); Fetch (Files "30");
                           Fetch (Changelogs "30")])
       /\ field r "changelogs" = Some (JObj ∅).
Proof.
  assert (H40 : Examples.entry40 ≠ JNull) by discriminate.
  assert (H30 : Examples.entry30 ≠ JNull) by discriminate.
  destruct (C4_fetch_failures Examples.upstream ∅ Examples.entry40 initial H40)
    as (Hnull & Hdrop & _).
  destruct (C4_fetch_failures Examples.upstream ∅ Examples.entry30 initial H30)
    as (_ & _ & _ & _ & Hlogs).
  assert (Hfail : fetch_failed Examples.upstream (Info "40") = true) by reflexivity.
  assert (Hinfo : truthy (infoData Examples.upstream "30") = true) by reflexivity.
  assert (Hfail' : fetch_failed Examples.upstream (Changelogs "30") = true)
    by reflexivity.
  split; [exact H40|]. split; [exact Hfail|].
  split.
  { apply Hdrop. vm_compute. reflexivity. }
  split; [exact Hinfo|]. split; [exact Hfail'|].
  apply Hlogs; [exact Hinfo | exact Hfail' | vm_compute; discriminate].
Defined.

(** ** The rate-limit response *)

Lemma infoData_rate_limited net modId body :
  net (Info modId) = Response 429 body -> infoData net modId = JNull.
Proof. unfold infoData. by intros ->. Qed.

(** C1 does not hold on the script: [throw new Error("RATE_LIMIT")] is
    inside the [try] whose [catch] returns [null]. A 429 on the summary
    request gives what a 404 gives; the record is dropped, the run ends
    normally, writes a catalog and the exit status is 0, in both versions
    of the script. *)
Theorem C1_rate_limit_is_swallowed :
  fetchModDataFromNexus Examples.rate_limited "10" initial
  = (Normal JNull, mkState 0 [Fetch (Info "10")])
  /\ fetchModDataFromNexus Examples.rate_limited "10" initial
     = fetchModDataFromNexus Examples.not_found "10" initial
  /\ Signal.main Examples.rate_limited (Some (JArr Examples.overlay)) None
     = Some 0%Z
  /\ written (snd (Signal.buildCuratedList Examples.rate_limited
                     (Some (JArr Examples.overlay)) None initial))
     = Some (JArr [])
  /\ Timestamp.main Examples.rate_limited (Some (JArr Examples.overlay)) None
     = Some 0%Z
  /\ written (snd (Timestamp.buildCuratedList Examples.rate_limited
                     (Some (JArr Examples.overlay)) None initial))
     = Some (JArr []).
Proof. repeat split; vm_compute; reflexivity. Qed.

(** ** Template entries *)

Lemma filterO_blank (l1 l2 : list json) (e : json) :
  blank e ->
  filterO Signal.keep_entry (l1 ++ e :: l2) = filterO Signal.keep_entry (l1 ++ l2).
Proof.
  intros [Hnn Hblank].
  assert (Hdrop : Signal.keep_entry e = Normal false).
  { unfold Signal.keep_entry. rewrite js_get_not_null by done. simpl.
    destruct Hblank as [-> | ->]; [done|]. simpl. by rewrite andb_false_r. }
  induction l1 as [|a l1 IH]; simpl.
  - rewrite Hdrop. simpl. by destruct (filterO Signal.keep_entry l2).
  - by rewrite IH.
Qed.

(** The signal version drops a template entry before anything else: the
    run is the run on the overlay without that entry. *)
Lemma signal_discards_blank net (l1 l2 : list json) (e : json) cacheFile st :
  blank e ->
  Signal.buildCuratedList net (Some (JArr (l1 ++ e :: l2))) cacheFile st
  = Signal.buildCuratedList net (Some (JArr (l1 ++ l2))) cacheFile st.
Proof.
  intros Hblank. unfold Signal.buildCuratedList, Signal.loadModsToProcess.
  by rewrite (filterO_blank l1 l2 e Hblank).
Qed.

(** C6 does not hold on the timestamp version, which has no filter: an
    entry without identifier is asked for as mod ["undefined"], an entry
    whose identifier is two spaces as mod ["  "]; each costs a request,
    and each yields a record when Nexus answers. The signal version drops
    both entries. *)
Theorem C6_timestamp_fetches_blank_entries :
  blank Examples.entry_template
  /\ blank Examples.entry_blank
  /\ trace (snd (Timestamp.buildCuratedList Examples.upstream
                   (Some (JArr [Examples.entry_template; Examples.entry_blank]))
                   None initial))
     = [Fetch (Info "undefined"); Fetch (Info "  "); Settled;
        WriteFile (JArr [])]
  /\ apiCallCount (snd (Timestamp.buildCuratedList Examples.upstream
                          (Some (JArr [Examples.entry_template; Examples.entry_blank]))
                          None initial)) = 2%nat
  /\ (exists r1 r2,
        fst (Timestamp.buildCuratedList Examples.permissive
               (Some (JArr [Examples.entry_template; Examples.entry_blank]))
               None initial)
        = Normal (Timestamp.mkSummary [r1; r2] 2 6))
  /\ trace (snd (Signal.buildCuratedList Examples.permissive
                   (Some (JArr [Examples.entry_template; Examples.entry_blank]))
                   None initial))
     = [Fetch Updated; WriteFile (JArr [])].
Proof.
  split; [split; [discriminate | left; vm_compute; reflexivity]|].
  split; [split; [discriminate | right; vm_compute; reflexivity]|].
  split; [vm_compute; reflexivity|].
  split; [vm_compute; reflexivity|].
  split; [eexists _, _; vm_compute; reflexivity|].
  vm_compute. reflexivity.
Qed.

(** ** Two scenarios of the specification, run on the embedding *)

(** A complete cached record whose identifier is in the change signal:
    the entry is queued as updated upstream and the three requests are
    issued. *)
Example scenario_updated_upstream :
  take 6 (trace (snd (Signal.buildCuratedList Examples.upstream_changed
                        (Some (JArr [Examples.entry10]))
                        (Some (JArr [Examples.cached10])) initial)))
  = [Fetch Updated; Queueing "10" UpdatedUpstream; Fetch (Info "10");
     Fetch (Files "10"); Fetch (Changelogs "10"); Settled].
Proof. vm_compute. reflexivity. Qed.

(** A cached record without changelogs, an empty change signal: the entry
    is queued to repair the missing data. *)
Example scenario_missing_data :
  take 2 (trace (snd (Signal.buildCuratedList Examples.upstream
                        (Some (JArr [Examples.entry10]))
                        (Some (JArr [Examples.cached10_no_changelogs])) initial)))
  = [Fetch Updated; Queueing "10" MissingData].
Proof. vm_compute. reflexivity. Qed.

(** * Further properties of the script *)

(** ** The four helpers *)

Lemma requests_app (l k : list event) :
  requests (l ++ k) = (requests l ++ requests k)%list.
Proof. apply List.filter_app. Qed.

(** X1. Each of the four helpers issues exactly one request and never
    throws, whatever Nexus does: a successful answer gives the parsed
    body, a failed one gives the value of the [catch], namely [null],
    [{ files: [] }], [{}] and the empty list. *)
Theorem helpers_never_throw net modId st :
  (exists v,
     fetchModDataFromNexus net modId st
     = (Normal v, after st 0 [Fetch (Info modId)])
     /\ (fetch_failed net (Info modId) = true -> v = JNull)
     /\ (forall status j, net (Info modId) = Response status (Some j) ->
                          response_ok status = true -> v = j))
  /\ (exists v,
        fetchModFilesFromNexus net modId st
        = (Normal v, after st 0 [Fetch (Files modId)])
        /\ (fetch_failed net (Files modId) = true ->
            v = JObj {[ "files" := JArr [] ]})
        /\ (forall status j, net (Files modId) = Response status (Some j) ->
                             response_ok status = true -> v = j))
  /\ (exists v,
        fetchModChangelogsFromNexus net modId st
        = (Normal v, after st 0 [Fetch (Changelogs modId)])
        /\ (fetch_failed net (Changelogs modId) = true -> v = JObj ∅)
        /\ (forall status j, net (Changelogs modId) = Response status (Some j) ->
                             response_ok status = true -> v = j))
  /\ (exists ids,
        Signal.fetchUpdatedModsList net st
        = (Normal ids, after st 0 [Fetch Updated])
        /\ (fetch_failed net Updated = true -> ids = [])).
Proof.
  split; [|split; [|split]].
  - eexists. split; [apply fetchModDataFromNexus_run|].
    split; [apply infoData_failed|].
    intros status j Hnet Hok. unfold infoData. rewrite Hnet, Hok.
    unfold response_ok in Hok. apply andb_true_iff in Hok as [_ Hle].
    apply Z.leb_le in Hle.
    destruct (Z.eqb_spec status 429); [lia|done].
  - eexists. split; [apply fetchModFilesFromNexus_run|].
    split; [apply filesData_failed|].
    intros status j Hnet Hok. unfold filesData. by rewrite Hnet, Hok.
  - eexists. split; [apply fetchModChangelogsFromNexus_run|].
    split; [apply changelogsData_failed|].
    intros status j Hnet Hok. unfold changelogsData. by rewrite Hnet, Hok.
  - eexists. split; [apply fetchUpdatedModsList_run|].
    unfold fetch_failed, SignalSpec.updatedIds.
    destruct (net Updated) as [|status [j|]]; simpl; try done;
      destruct (response_ok status); simpl; done.
Qed.

(** ** The change signal *)

Lemma mapO_mod_id_no_null (l : list json) :
  JNull ∉ l ->
  mapO (fun m => bindO (js_get m "mod_id") (fun id => Normal (toString id))) l
  = Normal (map cacheKey l).
Proof.
  induction l as [|m l IH]; intros Hnn; [done|].
  apply not_elem_of_cons in Hnn as [Hm Hl].
  cbn [mapO map]. rewrite js_get_not_null by done. cbn [bindO].
  rewrite IH by done. done.
Qed.

Lemma mapO_mod_id_null (l : list json) :
  JNull ∈ l ->
  mapO (fun m => bindO (js_get m "mod_id") (fun id => Normal (toString id))) l
  = Throw TypeError.
Proof.
  induction l as [|m l IH]; intros Hin; [by apply elem_of_nil in Hin|].
  destruct m; try done;
    (apply elem_of_cons in Hin as [Hin|Hin]; [discriminate|];
     cbn [mapO js_get bindO]; by rewrite IH).
Qed.

(** X2. The change signal is all or nothing. When the update list is
    answered with an array, the signal holds [String(m.mod_id)] for each
    element, in order (["undefined"] for an element without [mod_id]); one
    [null] element, or a body that is not an array, leaves the signal
    empty, and the run goes on as if nothing had changed. *)
Theorem change_signal_all_or_nothing net status body st :
  net Updated = Response status (Some body) ->
  response_ok status = true ->
  exists ids,
    Signal.fetchUpdatedModsList net st = (Normal ids, after st 0 [Fetch Updated])
    /\ (forall l, body = JArr l -> JNull ∉ l -> ids = map cacheKey l)
    /\ (forall l, body = JArr l -> JNull ∈ l -> ids = [])
    /\ ((forall l, body ≠ JArr l) -> ids = []).
Proof.
  intros Hnet Hok. eexists. split; [apply fetchUpdatedModsList_run|].
  unfold SignalSpec.updatedIds. rewrite Hnet, Hok. cbn [negb].
  split; [|split].
  - intros l -> Hnn. by rewrite mapO_mod_id_no_null.
  - intros l -> Hin. by rewrite mapO_mod_id_null.
  - intros Hna. destruct body; try done. by destruct (Hna l).
Qed.

Lemma change_signal_all_or_nothing_witness :
  Cases.three_updated Updated
  = Response 200
      (Some (JArr [Examples.obj [("mod_id", JNum 10)];
                   Examples.obj [("mod_id", JStr "77")];
                   Examples.obj [("name", JStr "no id")]]))
  /\ response_ok 200 = true
  /\ fst (Signal.fetchUpdatedModsList Cases.three_updated initial)
     = Normal ["10"; "77"; "undefined"]
  /\ fst (Signal.fetchUpdatedModsList Cases.broken_updated initial) = Normal [].
Proof.
  split; [reflexivity|]. split; [reflexivity|].
  destruct (change_signal_all_or_nothing Cases.three_updated 200 _ initial
              eq_refl eq_refl) as (ids & Hrun & Hids & _).
  destruct (change_signal_all_or_nothing Cases.broken_updated 200 _ initial
              eq_refl eq_refl) as (ids' & Hrun' & _ & Hnull & _).
  rewrite Hrun, Hrun'. cbn [fst]. split.
  - f_equal. rewrite (Hids _ eq_refl); [vm_compute; reflexivity|].
    intros Hin. repeat (apply elem_of_cons in Hin as [Hin|Hin]; [discriminate|]).
    by apply elem_of_nil in Hin.
  - f_equal. apply (Hnull _ eq_refl). apply elem_of_cons. right.
    apply elem_of_cons. by left.
Defined.

(** ** The previous catalog *)

Lemma not_null_Forall (l : list json) :
  JNull ∉ l -> Forall (fun r => r ≠ JNull) l.
Proof.
  intros Hnn. apply Forall_forall. intros r Hr ->. done.
Qed.

(** X3. Every record of the cache is found under its own identifier
    [String(record.mod_id)] and under no other; when the previous catalog
    holds several records with one identifier, the last one is the cached
    record. *)
Theorem cache_last_record_wins :
  (forall cacheFile k c,
     loadPreviousCache cacheFile !! k = Some c -> c ≠ JNull /\ cacheKey c = k)
  /\ (forall l k,
        JNull ∉ l ->
        loadPreviousCache (Some (JArr l)) !! k
        = last (List.filter (fun r => bool_decide (cacheKey r = k)) l)).
Proof.
  split.
  - intros cacheFile k c H. unfold cacheKey.
    exact (loadPreviousCache_key cacheFile k c H).
  - intros l k Hnn. unfold loadPreviousCache.
    rewrite setPrevious_last by (by apply not_null_Forall).
    unfold cacheKey. destruct (last _); [done|]. apply lookup_empty.
Qed.

Lemma cache_last_record_wins_witness :
  (JNull ∉ [Cases.cached20; Examples.cached10; Cases.cached20_newer])
  /\ loadPreviousCache
       (Some (JArr [Cases.cached20; Examples.cached10; Cases.cached20_newer]))
     !! "20" = Some Cases.cached20_newer.
Proof.
  assert (Hnn : JNull ∉ [Cases.cached20; Examples.cached10; Cases.cached20_newer]).
  { intros Hin. repeat (apply elem_of_cons in Hin as [Hin|Hin]; [discriminate|]).
    by apply elem_of_nil in Hin. }
  split; [exact Hnn|].
  destruct cache_last_record_wins as [_ Hlast].
  rewrite (Hlast _ "20" Hnn). vm_compute. reflexivity.
Defined.

(** X4. A [null] element in the previous catalog stops the load without
    failing the run: the records before it are cached, every record after
    it is lost. *)
Theorem cache_null_truncates (l1 l2 : list json) :
  JNull ∉ l1 ->
  loadPreviousCache (Some (JArr (l1 ++ JNull :: l2)))
  = loadPreviousCache (Some (JArr l1)).
Proof.
  intros Hnn. unfold loadPreviousCache.
  generalize (∅ : gmap string json). intros m.
  revert m. induction l1 as [|r l1 IH]; intros m; [done|].
  apply not_elem_of_cons in Hnn as [Hr Hl].
  destruct r; try done; cbn [app setPrevious]; by apply IH.
Qed.

Lemma cache_null_truncates_witness :
  (JNull ∉ [Examples.cached10])
  /\ loadPreviousCache (Some (JArr [Examples.cached10; JNull; Cases.cached20]))
     !! "10" = Some Examples.cached10
  /\ loadPreviousCache (Some (JArr [Examples.cached10; JNull; Cases.cached20]))
     !! "20" = None.
Proof.
  assert (Hnn : JNull ∉ [Examples.cached10]).
  { intros Hin. apply elem_of_cons in Hin as [Hin|Hin]; [discriminate|].
    by apply elem_of_nil in Hin. }
  split; [exact Hnn|].
  pose proof (cache_null_truncates [Examples.cached10] [Cases.cached20] Hnn) as H.
  cbn [app] in H. rewrite H.
  split; vm_compute; reflexivity.
Defined.

(** ** The curation file *)

Lemma filterO_null (l : list json) :
  JNull ∈ l -> filterO Signal.keep_entry l = Throw TypeError.
Proof.
  induction l as [|m l IH]; intros Hin; [by apply elem_of_nil in Hin|].
  destruct m; try done;
    (apply elem_of_cons in Hin as [Hin|Hin]; [discriminate|];
     cbn [filterO]; unfold Signal.keep_entry at 1;
     cbn [js_get bindO]; by rewrite IH).
Qed.

Lemma mapO_ids_null (l : list json) :
  JNull ∈ l ->
  mapO (fun mod_ => bindO (js_get mod_ "id") (fun id => Normal (toString id, mod_))) l
  = Throw TypeError.
Proof.
  induction l as [|m l IH]; intros Hin; [by apply elem_of_nil in Hin|].
  destruct m; try done;
    (apply elem_of_cons in Hin as [Hin|Hin]; [discriminate|];
     cbn [mapO js_get bindO]; by rewrite IH).
Qed.

(** X5. A curation file that is missing, is not JSON, is not an array or
    holds a [null] element is fatal in both versions: the run throws
    before any request is issued and before anything is written, and the
    exit status is 1. *)
Theorem config_error_is_fatal net warningsFile cacheFile :
  config_error warningsFile ->
  (exists e,
     Signal.buildCuratedList net warningsFile cacheFile initial
     = (Throw e, initial))
  /\ Signal.main net warningsFile cacheFile = Some 1%Z
  /\ (exists e,
        Timestamp.buildCuratedList net warningsFile cacheFile initial
        = (Throw e, initial))
  /\ Timestamp.main net warningsFile cacheFile = Some 1%Z.
Proof.
  intros Herr.
  assert (Hs : exists e, Signal.loadModsToProcess warningsFile = Throw e).
  { destruct warningsFile as [[]|]; simpl; eauto.
    eexists. by apply filterO_null. }
  assert (Ht : exists e,
             bindO (Timestamp.loadModsToProcess warningsFile) buildWarningsMap
             = Throw e).
  { destruct warningsFile as [[]|]; simpl; eauto.
    unfold buildWarningsMap. rewrite mapO_ids_null by done. simpl. eauto. }
  destruct Hs as [e Hs], Ht as [e' Ht].
  assert (Hrun : Signal.buildCuratedList net warningsFile cacheFile initial
                 = (Throw e, initial)).
  { unfold Signal.buildCuratedList, bind, lift. by rewrite Hs. }
  assert (Hrun' : Timestamp.buildCuratedList net warningsFile cacheFile initial
                  = (Throw e', initial)).
  { unfold Timestamp.buildCuratedList, bind, lift.
    destruct (Timestamp.loadModsToProcess warningsFile) as [mods| |];
      simpl in Ht; [by rewrite Ht | by inversion Ht | done]. }
  split; [by exists e|].
  split; [unfold Signal.main, exit_status; by rewrite Hrun|].
  split; [by exists e'|].
  unfold Timestamp.main, exit_status. by rewrite Hrun'.
Qed.

Lemma config_error_is_fatal_witness :
  config_error (Some (JArr [Examples.entry10; JNull]))
  /\ config_error (Some (Examples.obj [("id", JStr "10")]))
  /\ Signal.main Examples.upstream (Some (JArr [Examples.entry10; JNull])) None
     = Some 1%Z
  /\ Timestamp.main Examples.upstream (Some (Examples.obj [("id", JStr "10")])) None
     = Some 1%Z.
Proof.
  assert (H1 : config_error (Some (JArr [Examples.entry10; JNull]))).
  { simpl. apply elem_of_cons. right. apply elem_of_cons. by left. }
  assert (H2 : config_error (Some (Examples.obj [("id", JStr "10")]))) by exact I.
  split; [exact H1|]. split; [exact H2|].
  destruct (config_error_is_fatal Examples.upstream _ None H1) as (_ & Hs & _).
  destruct (config_error_is_fatal Examples.upstream _ None H2) as (_ & _ & _ & Ht).
  split; [exact Hs | exact Ht].
Defined.

Lemma filterO_not_kept (l1 l2 : list json) (e : json) :
  e ≠ JNull -> SignalSpec.kept e = false ->
  filterO Signal.keep_entry (l1 ++ e :: l2) = filterO Signal.keep_entry (l1 ++ l2).
Proof.
  intros Hnn Hk.
  assert (Hdrop : Signal.keep_entry e = Normal false).
  { unfold Signal.keep_entry. rewrite js_get_not_null by done. simpl.
    unfold SignalSpec.kept in Hk. by rewrite Hk. }
  induction l1 as [|a l1 IH]; simpl.
  - rewrite Hdrop. simpl. by destruct (filterO Signal.keep_entry l2).
  - by rewrite IH.
Qed.

(** X6. In the signal version an entry whose [id] is falsy (absent,
    [null], [false], 0, the empty string) or blank once trimmed changes
    nothing: the run is the run on the curation file without that
    entry. *)
Theorem signal_ignores_unkept_entry net (l1 l2 : list json) (e : json)
    cacheFile st :
  e ≠ JNull ->
  toBoolean (prop e "id") = false \/ trim (toString (prop e "id")) = "" ->
  Signal.buildCuratedList net (Some (JArr (l1 ++ e :: l2))) cacheFile st
  = Signal.buildCuratedList net (Some (JArr (l1 ++ l2))) cacheFile st.
Proof.
  intros Hnn Hid.
  assert (Hk : SignalSpec.kept e = false).
  { unfold SignalSpec.kept. destruct Hid as [-> | ->]; [done|].
    by rewrite andb_false_r. }
  unfold Signal.buildCuratedList, Signal.loadModsToProcess.
  by rewrite (filterO_not_kept l1 l2 e Hnn Hk).
Qed.

Lemma signal_ignores_unkept_entry_witness :
  Cases.entry_zero ≠ JNull
  /\ toBoolean (prop Cases.entry_zero "id") = false
  /\ Signal.buildCuratedList Examples.upstream
       (Some (JArr ([Examples.entry10] ++ Cases.entry_zero :: [Examples.entry20])))
       None initial
     = Signal.buildCuratedList Examples.upstream
         (Some (JArr ([Examples.entry10] ++ [Examples.entry20]))) None initial.
Proof.
  assert (Hnn : Cases.entry_zero ≠ JNull) by discriminate.
  assert (Hid : toBoolean (prop Cases.entry_zero "id") = false) by reflexivity.
  split; [exact Hnn|]. split; [exact Hid|].
  apply (signal_ignores_unkept_entry Examples.upstream [Examples.entry10]
           [Examples.entry20] Cases.entry_zero None initial Hnn (or_introl Hid)).
Defined.

(** ** What the signal version counts and writes *)

Section SignalAccounts.
Import Signal SignalSpec.

Variable net : endpoint -> response.

Lemma requests_memberTrace e :
  requests (memberTrace net e) = memberTrace net e
  /\ length (memberTrace net e) = memberCalls net e.
Proof.
  unfold memberTrace, memberCalls. by destruct (truthy _).
Qed.

Lemma requests_members (l : list json) :
  requests (concat (map (memberTrace net) l)) = concat (map (memberTrace net) l)
  /\ length (concat (map (memberTrace net) l)) = sum_list_with (memberCalls net) l.
Proof.
  induction l as [|e l [IH1 IH2]]; [done|].
  cbn [map concat sum_list_with]. rewrite requests_app, length_app, IH1, IH2.
  by destruct (requests_memberTrace e) as [-> ->].
Qed.

Lemma requests_groupTrace g :
  requests (groupTrace net g) = concat (map (memberTrace net) g).
Proof.
  unfold groupTrace. rewrite requests_app.
  destruct (requests_members g) as [-> _]. apply app_nil_r.
Qed.

Lemma requests_loopTrace gs :
  requests (loopTrace net gs) = concat (map (memberTrace net) (concat gs)).
Proof.
  induction gs as [|g gs IH]; [done|].
  rewrite loopTrace_cons, requests_app, requests_groupTrace.
  cbn [concat]. rewrite map_app, concat_app. f_equal.
  destruct gs as [|g' gs']; [done|]. by rewrite <- IH.
Qed.

Lemma requests_queueTrace cacheFile l : requests (queueTrace net cacheFile l) = [].
Proof.
  unfold queueTrace. induction l as [|e l IH]; [done|].
  cbn [omap list_omap]. by destruct (decisionOf net cacheFile e).
Qed.

Lemma requests_runTrace entries cacheFile :
  requests (runTrace net entries cacheFile)
  = Fetch Updated
    :: concat (map (memberTrace net) (toFetch net entries cacheFile)).
Proof.
  unfold runTrace. rewrite !requests_app, requests_queueTrace, requests_loopTrace.
  rewrite groups_concat by (unfold BATCH_SIZE; lia).
  cbn. by rewrite app_nil_r.
Qed.


Lemma filter_lengths {A} (p : A -> bool) (l : list A) :
  (length (List.filter p l) + length (List.filter (fun a => negb (p a)) l)
   = length l)%nat.
Proof.
  induction l as [|a l IH]; [done|].
  cbn [List.filter]. destruct (p a); cbn [negb length]; lia.
Qed.

End SignalAccounts.



(** X8. The summary of the signal version adds up: "Mods Fetched" plus
    "Mods Cached" is "Total Mods"; "Mods Cached" is the number of entries
    served from the cache, whose records open the result sequence; the
    result sequence holds at most one record for each tracked entry, and
    fewer when a queued summary is not fetched. *)
Theorem signal_summary_adds_up net entries cacheFile :
  SignalSpec.run_ok net entries cacheFile ->
  exists s st',
    Signal.buildCuratedList net (Some (JArr entries)) cacheFile initial
    = (Normal s, st')
    /\ Signal.totalMods s = length (SignalSpec.tracked entries)
    /\ (Signal.modsFetched s + Signal.modsCached s = Signal.totalMods s)%nat
    /\ Signal.modsCached s
       = length (List.filter (SignalSpec.is_reuse net cacheFile)
                   (SignalSpec.tracked entries))
    /\ take (Signal.modsCached s) (Signal.finalResults s)
       = map (SignalSpec.reusedRecord entries cacheFile)
           (SignalSpec.reused net entries cacheFile)
    /\ (Signal.modsCached s <= length (Signal.finalResults s)
        <= Signal.totalMods s)%nat.
Proof.
  intros Hok. eexists _, _. split; [by apply buildCuratedList_run|].
  cbn [Signal.totalMods Signal.modsFetched Signal.modsCached Signal.finalResults].
  pose proof (filter_lengths (SignalSpec.is_reuse net cacheFile)
                (SignalSpec.tracked entries)) as Hlen.
  fold (SignalSpec.toFetch net entries cacheFile) in Hlen.
  fold (SignalSpec.reused net entries cacheFile) in Hlen |- *.
  assert (Hcached : (length (SignalSpec.tracked entries)
                     - length (SignalSpec.toFetch net entries cacheFile))%nat
                    = length (SignalSpec.reused net entries cacheFile)) by lia.
  rewrite Hcached.
  split; [done|]. split; [lia|]. split; [done|].
  unfold SignalSpec.runResults.
  split.
  { rewrite take_app_length'; [done | by rewrite length_map]. }
  rewrite length_app, length_map.
  assert (length (omap (fun res => res)
                    (map (SignalSpec.memberResult net
                            (SignalSpec.warningsMapOf (SignalSpec.tracked entries)))
                       (SignalSpec.toFetch net entries cacheFile)))
          <= length (SignalSpec.toFetch net entries cacheFile))%nat.
  { generalize (SignalSpec.toFetch net entries cacheFile). intros l.
    induction l as [|e l IH]; [done|].
    cbn [map omap list_omap]. destruct (SignalSpec.memberResult _ _ e); simpl; lia. }
  lia.
Qed.

Lemma signal_summary_adds_up_witness :
  SignalSpec.run_ok Examples.upstream Examples.overlay_file Examples.cache_file
  /\ exists s st',
       Signal.buildCuratedList Examples.upstream
         (Some (JArr Examples.overlay_file)) Examples.cache_file initial
       = (Normal s, st')
       /\ Signal.totalMods s = 4%nat
       /\ Signal.modsCached s = 1%nat
       /\ Signal.modsFetched s = 3%nat.
Proof.
  assert (Hok : SignalSpec.run_ok Examples.upstream Examples.overlay_file
                  Examples.cache_file) by run_ok_tac.
  split; [exact Hok|].
  destruct (signal_summary_adds_up _ _ _ Hok)
    as (s & st' & Hrun & Htotal & Hsum & Hcached & _).
  exists s, st'. split; [exact Hrun|].
  assert (H4 : Signal.totalMods s = 4%nat) by (rewrite Htotal; reflexivity).
  assert (H1 : Signal.modsCached s = 1%nat)
    by (rewrite Hcached; vm_compute; reflexivity).
  split; [exact H4|]. split; [exact H1|]. lia.
Defined.

(** X9. Every record the signal version writes is complete: its [files]
    and its [changelogs] are truthy, whether the record comes from the
    cache or from Nexus, so that the record read back from the catalog
    passes the completeness test of the script. *)
Theorem signal_writes_complete_records net entries cacheFile :
  SignalSpec.run_ok net entries cacheFile ->
  exists s st' catalog,
    Signal.buildCuratedList net (Some (JArr entries)) cacheFile initial
    = (Normal s, st')
    /\ written st' = Some (JArr catalog)
    /\ (forall r, r ∈ Signal.finalResults s ->
                  toBoolean (field r "files") = true
                  /\ toBoolean (field r "changelogs") = true)
    /\ (forall c, c ∈ catalog ->
                  complete c = true /\ Signal.isMissingData (Some c) = false).
Proof.
  intros Hok. eexists _, _, _. split; [by apply buildCuratedList_run|].
  cbn [Signal.finalResults trace].
  split.
  { unfold written, SignalSpec.runTrace. cbn [trace].
    rewrite !app_assoc. by rewrite last_snoc. }
  assert (Hrec : forall r, r ∈ SignalSpec.runResults net entries cacheFile ->
                   toBoolean (field r "files") = true
                   /\ toBoolean (field r "changelogs") = true).
  { intros r Hr. unfold SignalSpec.runResults in Hr.
    apply elem_of_app in Hr as [Hr|Hr].
    - apply list_elem_of_fmap in Hr as (e & -> & He).
      apply list_elem_of_In, filter_In in He as [_ Hreuse].
      destruct (is_reuse_cached net cacheFile e Hreuse) as (c & Hc & _ & Hf & Hl & _).
      unfold SignalSpec.reusedRecord. rewrite Hc, !field_reuseRecord.
      by repeat (case_decide; [done|]).
    - apply list_elem_of_omap in Hr as (o & Ho & ->).
      apply list_elem_of_fmap in Ho as (e & Hm & _).
      unfold SignalSpec.memberResult in Hm.
      destruct (truthy (infoData net (modIdOf e))); [|done].
      inversion Hm; subst. unfold Signal.fetchedRecord.
      rewrite field_mergedRecord_files, field_mergedRecord_changelogs.
      cbn [toBoolean]. split; by apply or_else_truthy. }
  split; [exact Hrec|].
  intros c Hc. apply list_elem_of_fmap in Hc as (r & -> & Hr).
  destruct (Hrec r Hr) as [Hf Hl].
  unfold complete, Signal.isMissingData. rewrite !prop_stringify, Hf, Hl. done.
Qed.

Lemma signal_writes_complete_records_witness :
  SignalSpec.run_ok Examples.upstream Examples.overlay_file Examples.cache_file
  /\ exists s st' catalog,
       Signal.buildCuratedList Examples.upstream
         (Some (JArr Examples.overlay_file)) Examples.cache_file initial
       = (Normal s, st')
       /\ written st' = Some (JArr catalog)
       /\ Forall (fun c => complete c = true) catalog.
Proof.
  assert (Hok : SignalSpec.run_ok Examples.upstream Examples.overlay_file
                  Examples.cache_file) by run_ok_tac.
  split; [exact Hok|].
  destruct (signal_writes_complete_records _ _ _ Hok)
    as (s & st' & catalog & Hrun & Hw & _ & Hall).
  exists s, st', catalog. split; [exact Hrun|]. split; [exact Hw|].
  apply Forall_forall. intros c Hc. by destruct (Hall c Hc).
Defined.

(** X10. The order of the catalog of the signal version: first the
    entries served from the cache, in the order of the curation file,
    then the queued entries whose summary was fetched, again in the order
    of the curation file. When Nexus answers each summary request with
    the record of that identifier, the identifiers of the catalog are
    those of these entries, in that order. *)
Theorem signal_catalog_order net entries cacheFile :
  SignalSpec.run_ok net entries cacheFile ->
  upstream_consistent net ->
  exists s st',
    Signal.buildCuratedList net (Some (JArr entries)) cacheFile initial
    = (Normal s, st')
    /\ map (fun r => toString (field r "mod_id")) (Signal.finalResults s)
       = map modIdOf
           (List.filter (SignalSpec.is_reuse net cacheFile)
              (SignalSpec.tracked entries)
            ++ List.filter
                 (fun e => negb (SignalSpec.is_reuse net cacheFile e)
                           && truthy (infoData net (modIdOf e)))
                 (SignalSpec.tracked entries))%list.
Proof.
  intros Hok Hup. eexists _, _. split; [by apply buildCuratedList_run|].
  cbn [Signal.finalResults]. unfold SignalSpec.runResults.
  rewrite !map_app. f_equal.
  - rewrite map_map. apply map_ext_in. intros e He.
    apply filter_In in He as [_ Hreuse].
    destruct (is_reuse_cached net cacheFile e Hreuse) as (c & Hc & _).
    unfold SignalSpec.reusedRecord. rewrite Hc, field_reuseRecord.
    repeat (case_decide; [done|]).
    by apply loadPreviousCache_key in Hc as [_ ?].
  - unfold SignalSpec.toFetch.
    generalize (SignalSpec.warningsMapOf (SignalSpec.tracked entries)).
    intros wm.
    induction (SignalSpec.tracked entries) as [|e l IH]; [done|].
    cbn [List.filter]. destruct (SignalSpec.is_reuse net cacheFile e); cbn [negb andb].
    + exact IH.
    + cbn [map omap list_omap]. unfold SignalSpec.memberResult at 1.
      destruct (truthy (infoData net (modIdOf e))) eqn:Hinfo; [|exact IH].
      cbn [map]. rewrite <- IH. f_equal.
      unfold Signal.fetchedRecord. rewrite field_mergedRecord_mod_id. by apply Hup.
Qed.

Lemma signal_catalog_order_witness :
  SignalSpec.run_ok Examples.upstream Examples.overlay_file Examples.cache_file
  /\ upstream_consistent Examples.upstream
  /\ exists s st',
       Signal.buildCuratedList Examples.upstream
         (Some (JArr Examples.overlay_file)) Examples.cache_file initial
       = (Normal s, st')
       /\ map (fun r => toString (field r "mod_id")) (Signal.finalResults s)
          = ["10"; "20"; "30"].
Proof.
  assert (Hok : SignalSpec.run_ok Examples.upstream Examples.overlay_file
                  Examples.cache_file) by run_ok_tac.
  assert (Hup : upstream_consistent Examples.upstream).
  { intros modId. unfold infoData, Examples.upstream.
    destruct (decide (modId = "10")) as [->|H10]; [reflexivity|].
    destruct (decide (modId = "20")) as [->|H20]; [reflexivity|].
    destruct (decide (modId = "30")) as [->|H30]; [reflexivity|].
    intros Ht. exfalso. revert Ht.
    repeat (destruct modId as [|[[] [] [] [] [] [] [] []] modId];
            try (intros; discriminate); try congruence). }
  split; [exact Hok|]. split; [exact Hup|].
  destruct (signal_catalog_order _ _ _ Hok Hup) as (s & st' & Hrun & Hids).
  exists s, st'. split; [exact Hrun|]. rewrite Hids. vm_compute. reflexivity.
Defined.

(** X11. A first run of the signal version is a full fetch: when the
    previous catalog is missing, is not JSON, is not an array or is empty,
    every tracked entry is queued with the reason [New], in the order of
    the curation file, whatever the change signal says; no entry is
    counted as cached. *)
Theorem first_run_queues_every_entry net entries cacheFile :
  (forall l, cacheFile = Some (JArr l) -> l = []) ->
  SignalSpec.run_ok net entries cacheFile ->
  exists s st',
    Signal.buildCuratedList net (Some (JArr entries)) cacheFile initial
    = (Normal s, st')
    /\ SignalSpec.toFetch net entries cacheFile = SignalSpec.tracked entries
    /\ Signal.modsCached s = 0%nat
    /\ Signal.modsFetched s = Signal.totalMods s
    /\ trace st'
       = ([Fetch Updated]
          ++ map (fun e => Queueing (modIdOf e) New) (SignalSpec.tracked entries)
          ++ SignalSpec.loopTrace net
               (SignalSpec.groups (S (length (SignalSpec.tracked entries)))
                  BATCH_SIZE (SignalSpec.tracked entries))
          ++ [WriteFile (JArr (map stringify (Signal.finalResults s)))])%list.
Proof.
  intros Hempty Hok.
  assert (Hcache : loadPreviousCache cacheFile = ∅).
  { destruct cacheFile as [[]|]; try done. by rewrite (Hempty l eq_refl). }
  assert (Hnew : forall e, SignalSpec.decisionOf net cacheFile e
                           = Signal.MustFetch New).
  { intros e. unfold SignalSpec.decisionOf. rewrite Hcache, lookup_empty. done. }
  assert (Hfetch : SignalSpec.toFetch net entries cacheFile
                   = SignalSpec.tracked entries).
  { unfold SignalSpec.toFetch.
    destruct (filter_all (fun e => negb (SignalSpec.is_reuse net cacheFile e))
                (SignalSpec.tracked entries)) as [-> _]; [|done].
    intros e _. unfold SignalSpec.is_reuse. by rewrite Hnew. }
  assert (Hqueue : forall l, SignalSpec.queueTrace net cacheFile l
                             = map (fun e => Queueing (modIdOf e) New) l).
  { unfold SignalSpec.queueTrace. intros l.
    induction l as [|e l IH]; [done|].
    cbn [omap list_omap map]. by rewrite Hnew, IH. }
  eexists _, _. split; [by apply buildCuratedList_run|].
  cbn [Signal.modsCached Signal.modsFetched Signal.totalMods Signal.finalResults
       trace].
  split; [done|]. rewrite Hfetch.
  split; [lia|]. split; [done|].
  unfold SignalSpec.runTrace. by rewrite Hqueue, Hfetch.
Qed.

Lemma first_run_queues_every_entry_witness :
  (forall l, @None json = Some (JArr l) -> l = [])
  /\ SignalSpec.run_ok Examples.upstream Examples.overlay None
  /\ exists s st',
       Signal.buildCuratedList Examples.upstream (Some (JArr Examples.overlay))
         None initial = (Normal s, st')
       /\ Signal.modsCached s = 0%nat
       /\ Signal.modsFetched s = 3%nat.
Proof.
  assert (Hnone : forall l, @None json = Some (JArr l) -> l = [])
    by (intros l H; discriminate H).
  assert (Hok : SignalSpec.run_ok Examples.upstream Examples.overlay None)
    by run_ok_tac.
  split; [exact Hnone|]. split; [exact Hok|].
  destruct (first_run_queues_every_entry Examples.upstream Examples.overlay None
              Hnone Hok) as (s & st' & Hrun & _ & Hc & Hf & _).
  exists s, st'. split; [exact Hrun|]. split; [exact Hc|].
  rewrite Hf.
  pose proof (buildCuratedList_run _ _ _ Hok) as Hrun'.
  rewrite Hrun' in Hrun. inversion Hrun. reflexivity.
Defined.

(** ** A files body that is [null] *)

Section SignalAbort.
Import Signal SignalSpec.

Variable net : endpoint -> response.
Variable warningsMap : gmap string json.

Lemma fetchOne_throws e st :
  e ≠ JNull ->
  truthy (infoData net (modIdOf e)) = true ->
  filesData net (modIdOf e) = JNull ->
  fetchOne net warningsMap e st
  = (Throw TypeError,
     after st 3 [Fetch (Info (modIdOf e)); Fetch (Files (modIdOf e));
                 Fetch (Changelogs (modIdOf e))]).
Proof.
  intros Hnn Hinfo Hfiles. unfold fetchOne.
  unfold lift at 1. unfold bind at 1. rewrite (js_get_not_null _ _ Hnn).
  fold (modIdOf e).
  erewrite bind_normal by apply fetchModDataFromNexus_run.
  erewrite bind_normal by apply count_call_run.
  rewrite Hinfo. cbn [negb].
  erewrite bind_normal by apply fetchModFilesFromNexus_run.
  erewrite bind_normal by apply count_call_run.
  erewrite bind_normal by apply fetchModChangelogsFromNexus_run.
  erewrite bind_normal by apply count_call_run.
  rewrite Hfiles. unfold lift, bind. cbn [js_get].
  by rewrite !after_after.
Qed.

Lemma member_ok_or_throws e :
  e ≠ JNull ->
  member_ok net e
  \/ (truthy (infoData net (modIdOf e)) = true
      /\ filesData net (modIdOf e) = JNull).
Proof.
  intros Hnn. unfold member_ok.
  destruct (truthy (infoData net (modIdOf e))); [|by left].
  destruct (filesData net (modIdOf e)); try (left; split; done). by right.
Qed.

Lemma memberTrace_no_write e :
  Forall (fun ev => is_write ev = false) (memberTrace net e).
Proof. unfold memberTrace. destruct (truthy _); repeat constructor. Qed.

Lemma members_no_write (l : list json) :
  Forall (fun ev => is_write ev = false) (concat (map (memberTrace net) l)).
Proof.
  induction l as [|e l IH]; [constructor|].
  cbn [map concat]. apply Forall_app. split; [apply memberTrace_no_write | done].
Qed.

Lemma all_ok_or_throws (l : list json) :
  Forall (fun e => e ≠ JNull) l ->
  Forall (member_ok net) l
  \/ Exists (fun e => truthy (infoData net (modIdOf e)) = true
                      /\ filesData net (modIdOf e) = JNull) l.
Proof.
  induction 1 as [|e l He _ IH]; [by left|].
  destruct (member_ok_or_throws e He) as [Hok|Hbad]; [|right; by left].
  destruct IH as [IH|IH]; [left; by constructor | right; by right].
Qed.

Lemma mapM_throws (batch : list json) st :
  Forall (fun e => e ≠ JNull) batch ->
  Exists (fun e => truthy (infoData net (modIdOf e)) = true
                   /\ filesData net (modIdOf e) = JNull) batch ->
  exists c evs,
    mapM (fetchOne net warningsMap) batch st = (Throw TypeError, after st c evs)
    /\ Forall (fun ev => is_write ev = false) evs.
Proof.
  intros Hnn. revert st.
  induction Hnn as [|e batch He _ IH]; intros st Hex; [by inversion Hex|].
  destruct (member_ok_or_throws e He) as [Hok|[Hinfo Hfiles]].
  - assert (Hex' : Exists (fun e => truthy (infoData net (modIdOf e)) = true
                                    /\ filesData net (modIdOf e) = JNull) batch).
    { inversion Hex as [? ? [Hi Hf]|]; subst; [|done].
      destruct Hok as [_ Hok]. by destruct (Hok Hi). }
    destruct (IH (after st (memberCalls net e) (memberTrace net e)) Hex')
      as (c & evs & Hrun & Hevs).
    eexists _, _. split.
    + cbn [mapM]. erewrite bind_normal by (by apply fetchOne_run).
      erewrite bind_throw by apply Hrun. by rewrite after_after.
    + apply Forall_app. split; [apply memberTrace_no_write | done].
  - eexists _, _. split.
    + cbn [mapM]. erewrite bind_throw by (by apply fetchOne_throws). done.
    + repeat constructor.
Qed.

Lemma batchLoop_throws B fuel mods i fr st :
  (0 < B)%nat ->
  Forall (fun e => e ≠ JNull) mods ->
  Exists (fun e => truthy (infoData net (modIdOf e)) = true
                   /\ filesData net (modIdOf e) = JNull) (drop i mods) ->
  (length mods - i < fuel)%nat ->
  exists c evs,
    batchLoop (fetchOne net warningsMap) fuel B mods i fr st
    = (Throw TypeError, after st c evs)
    /\ Forall (fun ev => is_write ev = false) evs.
Proof.
  intros HB Hnn. revert i fr st.
  induction fuel as [|fuel IH]; intros i fr st Hex Hfuel; [lia|].
  assert (Hi : (i < length mods)%nat).
  { destruct (Nat.lt_ge_cases i (length mods)) as [?|Hge]; [done|].
    rewrite drop_ge in Hex by lia. by inversion Hex. }
  assert (Hsplit : drop i mods = (take B (drop i mods) ++ drop (i + B) mods)%list).
  { rewrite <- drop_drop. by rewrite take_drop. }
  cbn [batchLoop]. apply Nat.ltb_lt in Hi as Hi'. rewrite Hi'.
  destruct (all_ok_or_throws (take B (drop i mods))) as [Hok|Hbad].
  { by apply Forall_take, Forall_drop. }
  - assert (Hex' : Exists (fun e => truthy (infoData net (modIdOf e)) = true
                                    /\ filesData net (modIdOf e) = JNull)
                     (drop (i + B) mods)).
    { rewrite Hsplit in Hex. apply Exists_app in Hex as [Hex|Hex]; [|done].
      exfalso. apply Exists_exists in Hex as (e & He & Hi0 & Hf0).
      rewrite Forall_forall in Hok. destruct (Hok e He) as [_ Hok'].
      by destruct (Hok' Hi0). }
    erewrite bind_normal by (by apply mapM_fetchOne_run).
    erewrite bind_normal by apply emit_run.
    set (st1 := after (after st _ _) 0 [Settled]).
    assert (Hdelay : exists evs1,
              (if (i + B <? length mods)%nat
               then emit (Delay DELAY_BETWEEN_BATCHES) else ret tt) st1
              = (Normal tt, after st1 0 evs1)
              /\ Forall (fun ev => is_write ev = false) evs1).
    { destruct (i + B <? length mods)%nat.
      - eexists. split; [apply emit_run | repeat constructor].
      - exists []. split; [unfold ret; by rewrite after_0_nil | constructor]. }
    destruct Hdelay as (evs1 & Hdelay & Hevs1).
    erewrite bind_normal by apply Hdelay.
    edestruct (IH (i + B)%nat) as (c & evs & Hrun & Hevs); [exact Hex' | lia |].
    rewrite Hrun. unfold st1. rewrite !after_after.
    eexists _, _. split; [reflexivity|].
    repeat (apply Forall_app; split); try done.
    + apply members_no_write.
    + repeat constructor.
  - destruct (mapM_throws (take B (drop i mods)) st) as (c & evs & Hrun & Hevs).
    { by apply Forall_take, Forall_drop. }
    { done. }
    erewrite bind_throw by apply Hrun. by eexists _, _.
Qed.

End SignalAbort.

Lemma queueTrace_no_write net cacheFile l :
  Forall (fun ev => is_write ev = false) (SignalSpec.queueTrace net cacheFile l).
Proof.
  unfold SignalSpec.queueTrace. apply Forall_forall. intros ev Hev.
  apply list_elem_of_omap in Hev as (e & _ & He).
  destruct (SignalSpec.decisionOf net cacheFile e); by inversion He.
Qed.

Lemma no_write_not_written c (tr : list event) :
  Forall (fun ev => is_write ev = false) tr -> written (mkState c tr) = None.
Proof.
  intros Hall. unfold written. cbn [trace].
  destruct (last tr) as [ev|] eqn:Hlast; [|done].
  apply last_Some_elem_of in Hlast. rewrite Forall_forall in Hall.
  specialize (Hall ev Hlast). by destruct ev.
Qed.

(** X12. One malformed files answer costs the whole run of the signal
    version. When a queued entry whose summary is fetched gets a files
    answer with a success status and the body [null], [filesData.files]
    throws: the run ends with a [TypeError], the exit status is 1 and no
    catalog is written, not even the records already merged. *)
Theorem null_files_body_aborts_run net entries cacheFile e status :
  Forall (fun e => e ≠ JNull) entries ->
  e ∈ SignalSpec.toFetch net entries cacheFile ->
  truthy (infoData net (modIdOf e)) = true ->
  net (Files (modIdOf e)) = Response status (Some JNull) ->
  response_ok status = true ->
  exists st',
    Signal.buildCuratedList net (Some (JArr entries)) cacheFile initial
    = (Throw TypeError, st')
    /\ Forall (fun ev => is_write ev = false) (trace st')
    /\ written st' = None
    /\ Signal.main net (Some (JArr entries)) cacheFile = Some 1%Z.
Proof.
  intros Hnn He Hinfo Hnet Hok.
  assert (Hfiles : filesData net (modIdOf e) = JNull).
  { unfold filesData. by rewrite Hnet, Hok. }
  assert (Hex : Exists (fun e => truthy (infoData net (modIdOf e)) = true
                                 /\ filesData net (modIdOf e) = JNull)
                  (drop 0 (SignalSpec.toFetch net entries cacheFile))).
  { rewrite drop_0. apply Exists_exists. by exists e. }
  assert (Hnn' : Forall (fun e => e ≠ JNull) (SignalSpec.toFetch net entries cacheFile)).
  { unfold SignalSpec.toFetch, SignalSpec.tracked.
    by do 2 apply Forall_filter_not_null. }
  assert (Hrun : exists c evs,
            Signal.buildCuratedList net (Some (JArr entries)) cacheFile initial
            = (Throw TypeError,
               after (mkState 1 ([Fetch Updated]
                                 ++ SignalSpec.queueTrace net cacheFile
                                      (SignalSpec.tracked entries))%list) c evs)
            /\ Forall (fun ev => is_write ev = false) evs).
  { unfold Signal.buildCuratedList.
    unfold lift at 1. unfold bind at 1. simpl Signal.loadModsToProcess.
    rewrite filterO_keep_entry by done. fold (SignalSpec.tracked entries).
    unfold lift at 1. unfold bind at 1.
    rewrite buildWarningsMap_run by (by apply Forall_filter_not_null).
    erewrite bind_normal by apply fetchUpdatedModsList_run.
    fold (SignalSpec.updatedSetOf net).
    erewrite bind_normal;
      [|apply classify_loop_run; by apply Forall_filter_not_null].
    simpl fst. simpl snd.
    fold (SignalSpec.toFetch net entries cacheFile).
    unfold bind at 1. unfold set_calls at 1.
    edestruct (batchLoop_throws net
                 (SignalSpec.warningsMapOf (SignalSpec.tracked entries))
                 BATCH_SIZE
                 (S (length (SignalSpec.toFetch net entries cacheFile)))
                 (SignalSpec.toFetch net entries cacheFile) 0)
      as (c & evs & Hloop & Hevs);
      [unfold BATCH_SIZE; lia | exact Hnn' | exact Hex | lia |].
    erewrite bind_throw by apply Hloop.
    exists c, evs. split; [|done].
    unfold after, initial. cbn [apiCallCount trace]. by rewrite app_nil_l. }
  destruct Hrun as (c & evs & Hrun & Hevs).
  eexists. split; [exact Hrun|].
  assert (Hall : Forall (fun ev => is_write ev = false)
                   (([Fetch Updated]
                     ++ SignalSpec.queueTrace net cacheFile (SignalSpec.tracked entries))
                    ++ evs)%list).
  { repeat (apply Forall_app; split); try done.
    - repeat constructor.
    - apply queueTrace_no_write. }
  split; [exact Hall|].
  split; [by apply no_write_not_written|].
  unfold Signal.main, exit_status. by rewrite Hrun.
Qed.

Lemma null_files_body_aborts_run_witness :
  Forall (fun e => e ≠ JNull) Examples.overlay
  /\ Examples.entry20 ∈ SignalSpec.toFetch Cases.null_files Examples.overlay None
  /\ truthy (infoData Cases.null_files (modIdOf Examples.entry20)) = true
  /\ Cases.null_files (Files (modIdOf Examples.entry20)) = Response 200 (Some JNull)
  /\ Signal.main Cases.null_files (Some (JArr Examples.overlay)) None = Some 1%Z.
Proof.
  assert (Hnn : Forall (fun e => e ≠ JNull) Examples.overlay).
  { repeat (apply List.Forall_cons; [discriminate|]). apply List.Forall_nil. }
  assert (Hin : Examples.entry20
                ∈ SignalSpec.toFetch Cases.null_files Examples.overlay None).
  { apply list_elem_of_In. vm_compute. tauto. }
  assert (Hinfo : truthy (infoData Cases.null_files (modIdOf Examples.entry20)) = true)
    by reflexivity.
  assert (Hnet : Cases.null_files (Files (modIdOf Examples.entry20))
                 = Response 200 (Some JNull)) by reflexivity.
  split; [exact Hnn|]. split; [exact Hin|]. split; [exact Hinfo|].
  split; [exact Hnet|].
  destruct (null_files_body_aborts_run Cases.null_files Examples.overlay None
              Examples.entry20 200 Hnn Hin Hinfo Hnet eq_refl)
    as (st' & _ & _ & _ & Hmain).
  exact Hmain.
Defined.

(** ** The whole run of the timestamp version *)

Section GenericLoop.

Variable f : json -> M (option jsobj).
Variable res : json -> option jsobj.
Variable calls : json -> nat.
Variable tr : json -> list event.

Hypothesis tr_fetches : forall e, Forall (fun ev => is_fetch ev = true) (tr e).

Lemma fetches_requests (l : list event) :
  Forall (fun ev => is_fetch ev = true) l ->
  requests l = l /\ Forall (fun ev => is_write ev = false) l.
Proof.
  induction 1 as [|ev l Hev _ [IH1 IH2]]; [by split|].
  unfold requests in *. cbn [List.filter]. rewrite Hev, IH1.
  split; [done|]. constructor; [by destruct ev | done].
Qed.

Lemma members_requests (l : list json) :
  requests (concat (map tr l)) = concat (map tr l)
  /\ Forall (fun ev => is_write ev = false) (concat (map tr l)).
Proof.
  apply fetches_requests.
  induction l as [|e l IH]; [constructor|].
  cbn [map concat]. apply Forall_app. by split.
Qed.

Lemma mapM_members (batch : list json) st :
  (forall e, e ∈ batch -> forall st, f e st = (Normal (res e), after st (calls e) (tr e))) ->
  mapM f batch st
  = (Normal (map res batch),
     after st (sum_list_with calls batch) (concat (map tr batch))).
Proof.
  revert st. induction batch as [|e batch IH]; intros st Hf.
  - simpl. unfold ret. by rewrite after_0_nil.
  - cbn [mapM map concat sum_list_with].
    erewrite bind_normal by (apply Hf; by left).
    erewrite bind_normal by (apply IH; intros e' He'; apply Hf; by right).
    unfold ret. by rewrite after_after.
Qed.

Lemma batchLoop_requests B fuel mods i fr st :
  (0 < B)%nat ->
  (forall e, e ∈ mods -> forall st, f e st = (Normal (res e), after st (calls e) (tr e))) ->
  (length mods - i < fuel)%nat ->
  exists evs,
    batchLoop f fuel B mods i fr st
    = (Normal (fr ++ omap (fun r => r) (map res (drop i mods)))%list,
       after st (sum_list_with calls (drop i mods)) evs)
    /\ requests evs = concat (map tr (drop i mods))
    /\ Forall (fun ev => is_write ev = false) evs.
Proof.
  intros HB Hf. revert i fr st.
  induction fuel as [|fuel IH]; intros i fr st Hfuel; [lia|].
  cbn [batchLoop]. destruct (Nat.ltb_spec i (length mods)) as [Hi|Hi].
  - assert (Hsplit : drop i mods = (take B (drop i mods) ++ drop (i + B) mods)%list).
    { rewrite <- drop_drop. by rewrite take_drop. }
    erewrite bind_normal; cycle 1.
    { apply mapM_members. intros e He. apply Hf.
      by apply (subseteq_drop i mods), (subseteq_take B). }
    erewrite bind_normal by apply emit_run.
    set (st1 := after (after st _ _) 0 [Settled]).
    assert (Hdelay : exists evs1,
              (if (i + B <? length mods)%nat
               then emit (Delay DELAY_BETWEEN_BATCHES) else ret tt) st1
              = (Normal tt, after st1 0 evs1)
              /\ requests evs1 = []
              /\ Forall (fun ev => is_write ev = false) evs1).
    { destruct (i + B <? length mods)%nat.
      - eexists. split; [apply emit_run | split; [done | repeat constructor]].
      - exists []. split; [unfold ret; by rewrite after_0_nil | by split]. }
    destruct Hdelay as (evs1 & Hdelay & Hreq1 & Hevs1).
    erewrite bind_normal by apply Hdelay.
    edestruct (IH (i + B)%nat) as (evs & Hrun & Hreq & Hevs); [lia|].
    rewrite Hrun. unfold st1. rewrite !after_after.
    destruct (members_requests (take B (drop i mods))) as [Hreq0 Hevs0].
    eexists. split; [|split].
    + unfold pushResults. f_equal.
      * f_equal. rewrite <- app_assoc. f_equal.
        rewrite <- omap_app, <- map_app. by rewrite <- Hsplit.
      * rewrite (f_equal (sum_list_with calls) Hsplit), sum_list_with_app.
        cbn [Nat.add]. reflexivity.
    + rewrite !requests_app, Hreq0, Hreq1, Hreq. cbn [requests List.filter is_fetch].
      rewrite app_nil_l, app_nil_l, <- concat_app, <- map_app. by rewrite <- Hsplit.
    + repeat (apply Forall_app; split); try done. repeat constructor.
  - rewrite drop_ge by lia. exists []. unfold ret. cbn [map omap list_omap].
    rewrite app_nil_r, after_0_nil. by repeat split.
Qed.

End GenericLoop.

Section TimestampRun.
Import TimestampSpec.

Variable net : endpoint -> response.
Variable warningsMap : gmap string json.
Variable previousDataMap : gmap string json.

Lemma ts_fetchOne_run e st :
  member_ok net previousDataMap e ->
  Timestamp.fetchOne net warningsMap previousDataMap e st
  = (Normal (memberResult net warningsMap previousDataMap e),
     after st (memberCalls net previousDataMap e) (memberTrace net previousDataMap e)).
Proof.
  intros [Hnn Hfiles].
  unfold memberResult, memberCalls, memberTrace, fetches_fresh in *.
  destruct (truthy (infoData net (modIdOf e))) eqn:Hinfo.
  - destruct (reuses net previousDataMap e) eqn:Hreuse; cbn [andb negb].
    + by apply ts_fetchOne_reuse.
    + apply ts_fetchOne_fresh; try done. by apply Hfiles.
  - cbn [andb]. by apply ts_fetchOne_failed.
Qed.

Lemma ts_memberTrace_fetches e :
  Forall (fun ev => is_fetch ev = true) (memberTrace net previousDataMap e).
Proof.
  unfold memberTrace. destruct (fetches_fresh _ _ _); repeat constructor.
Qed.

Lemma ts_memberCalls_length e :
  length (memberTrace net previousDataMap e) = memberCalls net previousDataMap e.
Proof. unfold memberTrace, memberCalls. by destruct (fetches_fresh _ _ _). Qed.

Lemma ts_calls_bounds (l : list json) :
  length (concat (map (memberTrace net previousDataMap) l))
  = sum_list_with (memberCalls net previousDataMap) l
  /\ (length l <= sum_list_with (memberCalls net previousDataMap) l <= 3 * length l)%nat.
Proof.
  induction l as [|e l [IH1 IH2]]; [simpl; split; [done|lia]|].
  cbn [map concat sum_list_with length].
  rewrite length_app, IH1, ts_memberCalls_length.
  split; [done|]. unfold memberCalls at 1 3. destruct (fetches_fresh _ _ _); lia.
Qed.

End TimestampRun.

Lemma omap_id_map {A B} (g : A -> option B) (l : list A) :
  omap (fun r => r) (map g l) = omap g l.
Proof.
  induction l as [|a l IH]; [done|].
  cbn [map omap list_omap]. by rewrite IH.
Qed.

Lemma ts_buildCuratedList_run net entries cacheFile :
  TimestampSpec.run_ok net entries cacheFile ->
  exists evs,
    Timestamp.buildCuratedList net (Some (JArr entries)) cacheFile initial
    = (Normal (Timestamp.mkSummary (TimestampSpec.runResults net entries cacheFile)
                 (length entries) (TimestampSpec.runCalls net entries cacheFile)),
       mkState (TimestampSpec.runCalls net entries cacheFile)
         (evs ++ [WriteFile (JArr (map stringify
                                     (TimestampSpec.runResults net entries cacheFile)))])%list)
    /\ requests evs = TimestampSpec.runRequests net entries cacheFile.
Proof.
  intros Hok.
  assert (Hnn : Forall (fun e => e ≠ JNull) entries).
  { eapply Forall_impl; [exact Hok|]. by intros e [? _]. }
  unfold Timestamp.buildCuratedList.
  unfold lift at 1. unfold bind at 1. cbn [Timestamp.loadModsToProcess].
  unfold lift at 1. unfold bind at 1. rewrite buildWarningsMap_run by done.
  unfold bind at 1. unfold set_calls at 1.
  edestruct (batchLoop_requests
               (Timestamp.fetchOne net (SignalSpec.warningsMapOf entries)
                  (loadPreviousCache cacheFile))
               (TimestampSpec.memberResult net (SignalSpec.warningsMapOf entries)
                  (loadPreviousCache cacheFile))
               (TimestampSpec.memberCalls net (loadPreviousCache cacheFile))
               (TimestampSpec.memberTrace net (loadPreviousCache cacheFile))
               (ts_memberTrace_fetches net (loadPreviousCache cacheFile))
               BATCH_SIZE (S (length entries)) entries 0 [])
    as (evs & Hloop & Hreq & _).
  { unfold BATCH_SIZE. lia. }
  { intros e He st. apply ts_fetchOne_run.
    unfold TimestampSpec.run_ok in Hok. rewrite Forall_forall in Hok. by apply Hok. }
  { lia. }
  erewrite bind_normal by apply Hloop.
  erewrite bind_normal by apply emit_run.
  rewrite drop_0 in *.
  exists evs. split; [|exact Hreq].
  unfold bind, get_calls, ret, after, initial. cbn [apiCallCount trace app].
  unfold TimestampSpec.runResults, TimestampSpec.runCalls.
  rewrite omap_id_map. cbn [Nat.add]. rewrite !Nat.add_0_r. done.
Qed.

Lemma timestamp_run_requests_aux net entries cacheFile :
  TimestampSpec.run_ok net entries cacheFile ->
  exists s st',
    Timestamp.buildCuratedList net (Some (JArr entries)) cacheFile initial
    = (Normal s, st')
    /\ written st' = Some (JArr (map stringify (Timestamp.finalResults s)))
    /\ Timestamp.finalResults s = TimestampSpec.runResults net entries cacheFile
    /\ requests (trace st')
       = concat (map (TimestampSpec.memberTrace net (loadPreviousCache cacheFile))
                   entries)
    /\ Timestamp.totalApiCalls s = length (requests (trace st')).
Proof.
  intros Hok.
  destruct (ts_buildCuratedList_run net entries cacheFile Hok) as (evs & Hrun & Hreq).
  eexists _, _. split; [exact Hrun|].
  cbn [Timestamp.finalResults Timestamp.totalApiCalls trace].
  split; [unfold written; cbn [trace]; by rewrite last_snoc|].
  split; [done|].
  assert (Hrequests : requests (evs ++ [WriteFile (JArr (map stringify
                        (TimestampSpec.runResults net entries cacheFile)))])
                      = TimestampSpec.runRequests net entries cacheFile).
  { rewrite requests_app, Hreq. cbn. apply app_nil_r. }
  split; [exact Hrequests|].
  rewrite Hrequests. unfold TimestampSpec.runRequests, TimestampSpec.runCalls.
  by destruct (ts_calls_bounds net (loadPreviousCache cacheFile) entries) as [-> _].
Qed.



(** ** A second run of the timestamp version *)

Section TimestampSecondRun.
Import TimestampSpec.

Variable net : endpoint -> response.
Variable entries : list json.
Variable cacheFile : option json.
Hypothesis Hsettled : settled_upstream net entries cacheFile.

Let wm := SignalSpec.warningsMapOf entries.
Let pdm := loadPreviousCache cacheFile.

Lemma ts_result_shape e :
  e ∈ entries ->
  exists files changelogs,
    memberResult net wm pdm e
    = Some (mergedRecord (wm !! modIdOf e) (infoData net (modIdOf e))
              files changelogs)
    /\ toBoolean files = true /\ toBoolean changelogs = true.
Proof.
  intros He. destruct (Hsettled e He) as (Hinfo & _ & _ & Hcomplete).
  cbn zeta in Hinfo, Hcomplete.
  unfold memberResult in *. fold wm pdm in Hcomplete. rewrite Hinfo in *.
  destruct (reuses net pdm e).
  - eexists _, _. split; [reflexivity|].
    destruct (Hcomplete _ eq_refl) as [Hf Hl].
    by rewrite field_mergedRecord_files in Hf;
      rewrite field_mergedRecord_changelogs in Hl.
  - eexists _, _. split; [reflexivity|].
    destruct (Hcomplete _ eq_refl) as [Hf Hl].
    by rewrite field_mergedRecord_files in Hf;
      rewrite field_mergedRecord_changelogs in Hl.
Qed.

Lemma ts_results_all :
  map stringify (runResults net entries cacheFile)
  = map (fun e => stringify (default ∅ (memberResult net wm pdm e))) entries.
Proof.
  unfold runResults. fold wm pdm.
  assert (H : forall l, (forall e, In e l -> e ∈ entries) ->
            map stringify (omap (memberResult net wm pdm) l)
            = map (fun e => stringify (default ∅ (memberResult net wm pdm e))) l).
  { induction l as [|e l IH]; intros Hl; [done|].
    destruct (ts_result_shape e (Hl e (or_introl eq_refl))) as (f & c & Hr & _).
    cbn [omap list_omap map]. rewrite Hr. cbn [map default]; unfold id.
    f_equal. apply IH. intros e' He'. apply Hl. by right. }
  apply H. intros e He. by apply list_elem_of_In.
Qed.

Lemma ts_written_id e :
  e ∈ entries ->
  cacheKey (stringify (default ∅ (memberResult net wm pdm e))) = modIdOf e.
Proof.
  intros He. destruct (ts_result_shape e He) as (f & c & Hr & _).
  destruct (Hsettled e He) as (_ & Hid & _).
  rewrite Hr. unfold cacheKey. cbn [default]; unfold id.
  by rewrite prop_stringify, field_mergedRecord_mod_id.
Qed.

Lemma ts_written_same_id e e' :
  modIdOf e = modIdOf e' ->
  memberResult net wm pdm e = memberResult net wm pdm e'.
Proof. unfold memberResult, reuses. by intros ->. Qed.

Lemma ts_second_cache e :
  e ∈ entries ->
  loadPreviousCache (Some (JArr (map stringify (runResults net entries cacheFile))))
    !! modIdOf e
  = Some (stringify (default ∅ (memberResult net wm pdm e))).
Proof.
  intros He. unfold loadPreviousCache. rewrite ts_results_all.
  rewrite setPrevious_last; cycle 1.
  { apply Forall_forall. intros r Hr.
    apply list_elem_of_fmap in Hr. by destruct Hr as (e' & -> & _). }
  destruct (last _) as [r|] eqn:Hlast.
  - apply last_Some_elem_of, list_elem_of_In, filter_In in Hlast.
    destruct Hlast as [Hin Hk]. apply bool_decide_eq_true in Hk.
    apply list_elem_of_In, list_elem_of_fmap in Hin.
    destruct Hin as (e' & -> & He').
    pose proof (ts_written_id e' He') as Hid. unfold cacheKey in Hid.
    rewrite Hid in Hk. by rewrite (ts_written_same_id e' e Hk).
  - apply last_None in Hlast.
    assert (Hin : In (stringify (default ∅ (memberResult net wm pdm e)))
                    (List.filter
                       (fun r => bool_decide (toString (prop r "mod_id") = modIdOf e))
                       (map (fun e => stringify (default ∅ (memberResult net wm pdm e)))
                          entries))).
    { apply filter_In. split.
      - apply list_elem_of_In, list_elem_of_fmap. by exists e.
      - apply bool_decide_eq_true. by apply ts_written_id. }
    rewrite Hlast in Hin. destruct Hin.
Qed.

Lemma ts_second_member e :
  e ∈ entries ->
  let pdm2 := loadPreviousCache
                (Some (JArr (map stringify (runResults net entries cacheFile)))) in
  reuses net pdm2 e = true
  /\ memberResult net wm pdm2 e = memberResult net wm pdm e.
Proof.
  intros He pdm2.
  destruct (ts_result_shape e He) as (f & c & Hr & Hf & Hc).
  destruct (Hsettled e He) as (Hinfo & _ & Hts & _). cbn zeta in Hinfo, Hts.
  assert (Hreuse : reuses net pdm2 e = true).
  { unfold reuses, pdm2. rewrite (ts_second_cache e He), Hr. cbn [default]; unfold id.
    unfold Timestamp.canReuse. rewrite !prop_stringify.
    rewrite field_mergedRecord_files, field_mergedRecord_changelogs, Hf, Hc.
    change (field (mergedRecord (wm !! modIdOf e) (infoData net (modIdOf e)) f c)
              "updated_timestamp")
      with (prop (infoData net (modIdOf e)) "updated_timestamp").
    by rewrite Hts. }
  split; [exact Hreuse|].
  unfold memberResult at 1. rewrite Hinfo, Hreuse.
  unfold pdm2. rewrite (ts_second_cache e He), Hr. cbn [default Timestamp.cachedProp]; unfold id.
  rewrite !prop_stringify.
  by rewrite field_mergedRecord_files, field_mergedRecord_changelogs.
Qed.

End TimestampSecondRun.

(** X14. The timestamp version is stable. Take a run that does not throw,
    in which every summary request is answered with the record of the
    identifier asked for, the [updated_timestamp] being neither an array
    nor an object, and in which every record built has truthy files and
    changelogs. A second run on the catalog written, against the same
    Nexus, issues the summary request of each entry and nothing else,
    [N] calls for [N] entries, and writes the same catalog, in the same
    order. *)
Theorem timestamp_second_run_is_stable net entries cacheFile :
  TimestampSpec.run_ok net entries cacheFile ->
  TimestampSpec.settled_upstream net entries cacheFile ->
  exists s1 st1 catalog s2 st2,
    Timestamp.buildCuratedList net (Some (JArr entries)) cacheFile initial
    = (Normal s1, st1)
    /\ written st1 = Some (JArr catalog)
    /\ Timestamp.buildCuratedList net (Some (JArr entries)) (Some (JArr catalog))
         initial
       = (Normal s2, st2)
    /\ written st2 = Some (JArr catalog)
    /\ Timestamp.finalResults s2 = Timestamp.finalResults s1
    /\ requests (trace st2) = map (fun e => Fetch (Info (modIdOf e))) entries
    /\ Timestamp.totalApiCalls s2 = length entries.
Proof.
  intros Hok Hsettled.
  set (catalog := map stringify (TimestampSpec.runResults net entries cacheFile)).
  set (cache2 := Some (JArr catalog)).
  assert (Hmember : forall e, e ∈ entries ->
            TimestampSpec.reuses net (loadPreviousCache cache2) e = true
            /\ TimestampSpec.memberResult net (SignalSpec.warningsMapOf entries)
                 (loadPreviousCache cache2) e
               = TimestampSpec.memberResult net (SignalSpec.warningsMapOf entries)
                   (loadPreviousCache cacheFile) e).
  { intros e He. apply (ts_second_member net entries cacheFile Hsettled e He). }
  assert (Hok2 : TimestampSpec.run_ok net entries cache2).
  { unfold TimestampSpec.run_ok in *. rewrite Forall_forall in *.
    intros e He. destruct (Hok e He) as [Hnn _]. split; [done|].
    unfold TimestampSpec.fetches_fresh.
    destruct (Hmember e He) as [-> _]. by rewrite andb_false_r. }
  assert (Hres : TimestampSpec.runResults net entries cache2
                 = TimestampSpec.runResults net entries cacheFile).
  { unfold TimestampSpec.runResults.
    assert (H : forall l, (forall e, In e l -> e ∈ entries) ->
              omap (TimestampSpec.memberResult net (SignalSpec.warningsMapOf entries)
                      (loadPreviousCache cache2)) l
              = omap (TimestampSpec.memberResult net (SignalSpec.warningsMapOf entries)
                        (loadPreviousCache cacheFile)) l).
    { induction l as [|e l IH]; intros Hl; [done|].
      cbn [omap list_omap].
      destruct (Hmember e (Hl e (or_introl eq_refl))) as [_ ->].
      rewrite IH; [done|]. intros e' He'. apply Hl. by right. }
    apply H. intros e He. by apply list_elem_of_In. }
  assert (Hreq : concat (map (TimestampSpec.memberTrace net (loadPreviousCache cache2))
                           entries)
                 = map (fun e => Fetch (Info (modIdOf e))) entries).
  { assert (H : forall l, (forall e, In e l -> e ∈ entries) ->
              concat (map (TimestampSpec.memberTrace net (loadPreviousCache cache2)) l)
              = map (fun e => Fetch (Info (modIdOf e))) l).
    { induction l as [|e l IH]; intros Hl; [done|].
      cbn [map concat]. unfold TimestampSpec.memberTrace at 1,
        TimestampSpec.fetches_fresh.
      destruct (Hmember e (Hl e (or_introl eq_refl))) as [-> _].
      rewrite andb_false_r. cbn [app]. f_equal.
      apply IH. intros e' He'. apply Hl. by right. }
    apply H. intros e He. by apply list_elem_of_In. }
  destruct (timestamp_run_requests_aux net entries cacheFile Hok)
    as (s1 & st1 & Hrun1 & Hw1 & Hfin1 & _).
  destruct (timestamp_run_requests_aux net entries cache2 Hok2)
    as (s2 & st2 & Hrun2 & Hw2 & Hfin2 & Hreq2 & Hcalls2).
  exists s1, st1, catalog, s2, st2.
  split; [exact Hrun1|].
  split; [by rewrite Hw1, Hfin1|].
  split; [exact Hrun2|].
  split; [by rewrite Hw2, Hfin2, Hres|].
  split; [by rewrite Hfin1, Hfin2|].
  split; [by rewrite Hreq2|].
  by rewrite Hcalls2, Hreq2, Hreq, length_map.
Qed.

Lemma timestamp_second_run_is_stable_witness :
  TimestampSpec.run_ok Cases.complete_upstream Examples.overlay None
  /\ TimestampSpec.settled_upstream Cases.complete_upstream Examples.overlay None
  /\ exists s1 st1 catalog s2 st2,
       Timestamp.buildCuratedList Cases.complete_upstream
         (Some (JArr Examples.overlay)) None initial = (Normal s1, st1)
       /\ Timestamp.totalApiCalls s1 = 9%nat
       /\ written st1 = Some (JArr catalog)
       /\ Timestamp.buildCuratedList Cases.complete_upstream
            (Some (JArr Examples.overlay)) (Some (JArr catalog)) initial
          = (Normal s2, st2)
       /\ written st2 = Some (JArr catalog)
       /\ requests (trace st2)
          = [Fetch (Info "10"); Fetch (Info "20"); Fetch (Info "30")]
       /\ Timestamp.totalApiCalls s2 = 3%nat.
Proof.
  assert (Hok : TimestampSpec.run_ok Cases.complete_upstream Examples.overlay None).
  { unfold TimestampSpec.run_ok, Examples.overlay. ts_run_ok_tac. }
  assert (Hsettled : TimestampSpec.settled_upstream Cases.complete_upstream
                       Examples.overlay None).
  { intros e He. unfold Examples.overlay in He.
    repeat (apply elem_of_cons in He as [->|He];
            [cbv zeta; split; [vm_compute; reflexivity|];
             split; [vm_compute; reflexivity|];
             split; [vm_compute; reflexivity|];
             intros r Hr;
             match type of Hr with
             | ?m = Some _ =>
                 assert (Hb : from_option
                                (fun r => toBoolean (field r "files")
                                          && toBoolean (field r "changelogs"))
                                true m = true) by (vm_compute; reflexivity)
             end;
             rewrite Hr in Hb; cbn [from_option] in Hb;
             by apply andb_true_iff in Hb|]).
    by apply elem_of_nil in He. }
  split; [exact Hok|]. split; [exact Hsettled|].
  destruct (timestamp_second_run_is_stable _ _ _ Hok Hsettled)
    as (s1 & st1 & catalog & s2 & st2 & Hrun1 & Hw1 & Hrun2 & Hw2 & _ & Hreq & Hcalls).
  exists s1, st1, catalog, s2, st2.
  split; [exact Hrun1|].
  assert (Hcalls1 : match Timestamp.buildCuratedList Cases.complete_upstream
                            (Some (JArr Examples.overlay)) None initial with
                    | (Normal s, _) => Timestamp.totalApiCalls s
                    | _ => 0%nat
                    end = 9%nat) by (vm_compute; reflexivity).
  rewrite Hrun1 in Hcalls1.
  split; [exact Hcalls1|].
  split; [exact Hw1|]. split; [exact Hrun2|]. split; [exact Hw2|].
  split; [exact Hreq | exact Hcalls].
Defined.

(** ** A files answer that is [null], in the timestamp version *)

Section GenericAbort.

Variable f : json -> M (option jsobj).
Variable res : json -> option jsobj.
Variable calls : json -> nat.
Variable tr : json -> list event.
Variable ok bad : json -> Prop.

Hypothesis tr_no_write : forall e, Forall (fun ev => is_write ev = false) (tr e).
Hypothesis f_ok : forall e, ok e ->
  forall st, f e st = (Normal (res e), after st (calls e) (tr e)).
Hypothesis f_bad : forall e, bad e ->
  forall st, exists c evs,
    f e st = (Throw TypeError, after st c evs)
    /\ Forall (fun ev => is_write ev = false) evs.
Hypothesis ok_or_bad : forall e, ok e \/ bad e.

Lemma gen_members_no_write (l : list json) :
  Forall (fun ev => is_write ev = false) (concat (map tr l)).
Proof.
  induction l as [|e l IH]; [constructor|].
  cbn [map concat]. apply Forall_app. by split.
Qed.

Lemma gen_all_ok_or_bad (l : list json) : Forall ok l \/ Exists bad l.
Proof.
  induction l as [|e l IH]; [by left|].
  destruct (ok_or_bad e) as [Hok|Hbad]; [|right; by left].
  destruct IH as [IH|IH]; [left; by constructor | right; by right].
Qed.

Lemma gen_mapM_throws (batch : list json) st :
  Exists bad batch ->
  exists c evs,
    mapM f batch st = (Throw TypeError, after st c evs)
    /\ Forall (fun ev => is_write ev = false) evs.
Proof.
  revert st. induction batch as [|e batch IH]; intros st Hex; [by inversion Hex|].
  assert (Hhead : bad e ->
            exists c evs,
              mapM f (e :: batch) st = (Throw TypeError, after st c evs)
              /\ Forall (fun ev => is_write ev = false) evs).
  { intros Hbad. destruct (f_bad e Hbad st) as (c & evs & Hrun & Hevs).
    exists c, evs. split; [|done]. cbn [mapM]. by erewrite bind_throw by apply Hrun. }
  inversion Hex as [? ? Hbad|? ? Hex']; subst; [by apply Hhead|].
  destruct (ok_or_bad e) as [Hok|Hbad]; [|by apply Hhead].
  destruct (IH (after st (calls e) (tr e)) Hex') as (c & evs & Hrun & Hevs).
  eexists _, _. split.
  - cbn [mapM]. erewrite bind_normal by (by apply f_ok).
    erewrite bind_throw by apply Hrun. by rewrite after_after.
  - apply Forall_app. by split.
Qed.

Lemma gen_batchLoop_throws B fuel mods i fr st :
  (0 < B)%nat ->
  Exists bad (drop i mods) ->
  (length mods - i < fuel)%nat ->
  exists c evs,
    batchLoop f fuel B mods i fr st = (Throw TypeError, after st c evs)
    /\ Forall (fun ev => is_write ev = false) evs.
Proof.
  intros HB. revert i fr st.
  induction fuel as [|fuel IH]; intros i fr st Hex Hfuel; [lia|].
  assert (Hi : (i < length mods)%nat).
  { destruct (Nat.lt_ge_cases i (length mods)) as [?|Hge]; [done|].
    rewrite drop_ge in Hex by lia. by inversion Hex. }
  assert (Hsplit : drop i mods = (take B (drop i mods) ++ drop (i + B) mods)%list).
  { rewrite <- drop_drop. by rewrite take_drop. }
  cbn [batchLoop]. apply Nat.ltb_lt in Hi as Hi'. rewrite Hi'.
  assert (Hcase : Exists bad (take B (drop i mods))
                  \/ (Forall ok (take B (drop i mods))
                      /\ Exists bad (drop (i + B) mods))).
  { destruct (gen_all_ok_or_bad (take B (drop i mods))) as [Hok|Hb]; [|by left].
    rewrite Hsplit in Hex. apply Exists_app in Hex as [?|?]; [by left|].
    right. by split. }
  destruct Hcase as [Hbad|Hnone].
  - destruct (gen_mapM_throws (take B (drop i mods)) st Hbad)
      as (c & evs & Hrun & Hevs).
    erewrite bind_throw by apply Hrun. by eexists _, _.
  - destruct Hnone as [Hok Hex'].
    erewrite bind_normal; cycle 1.
    { apply (mapM_members f res calls tr). intros e He st0. apply f_ok.
      rewrite Forall_forall in Hok. by apply Hok. }
    erewrite bind_normal by apply emit_run.
    set (st1 := after (after st _ _) 0 [Settled]).
    assert (Hdelay : exists evs1,
              (if (i + B <? length mods)%nat
               then emit (Delay DELAY_BETWEEN_BATCHES) else ret tt) st1
              = (Normal tt, after st1 0 evs1)
              /\ Forall (fun ev => is_write ev = false) evs1).
    { destruct (i + B <? length mods)%nat.
      - eexists. split; [apply emit_run | repeat constructor].
      - exists []. split; [unfold ret; by rewrite after_0_nil | constructor]. }
    destruct Hdelay as (evs1 & Hdelay & Hevs1).
    erewrite bind_normal by apply Hdelay.
    edestruct (IH (i + B)%nat) as (c & evs & Hrun & Hevs); [exact Hex' | lia |].
    rewrite Hrun. unfold st1. rewrite !after_after.
    eexists _, _. split; [reflexivity|].
    repeat (apply Forall_app; split); try done.
    + apply gen_members_no_write.
    + repeat constructor.
Qed.

End GenericAbort.

Lemma json_is_null (v : json) : v = JNull \/ v ≠ JNull.
Proof. destruct v; (by left) || (by right). Qed.

Section TimestampAbort.
Import TimestampSpec.

Variable net : endpoint -> response.
Variable warningsMap : gmap string json.
Variable previousDataMap : gmap string json.

Lemma ts_fetchOne_throws e st :
  e ≠ JNull ->
  fetches_fresh net previousDataMap e = true ->
  filesData net (modIdOf e) = JNull ->
  Timestamp.fetchOne net warningsMap previousDataMap e st
  = (Throw TypeError,
     after st 1 [Fetch (Info (modIdOf e)); Fetch (Files (modIdOf e))]).
Proof.
  intros Hnn Hfresh Hfiles. unfold fetches_fresh, reuses in Hfresh.
  apply andb_true_iff in Hfresh as [Hinfo Hreuse].
  apply negb_true_iff in Hreuse.
  unfold Timestamp.fetchOne.
  unfold lift at 1. unfold bind at 1. rewrite (js_get_not_null _ _ Hnn).
  fold (modIdOf e).
  erewrite bind_normal by apply fetchModDataFromNexus_run.
  erewrite bind_normal by apply count_call_run.
  rewrite Hinfo, Hreuse. cbn [negb].
  erewrite bind_throw; cycle 1.
  { erewrite bind_normal by apply fetchModFilesFromNexus_run.
    rewrite Hfiles. unfold lift at 1. unfold bind at 1. cbn [js_get]. reflexivity. }
  by rewrite !after_after.
Qed.

Lemma ts_member_ok_or_throws e :
  e ≠ JNull ->
  member_ok net previousDataMap e
  \/ (fetches_fresh net previousDataMap e = true
      /\ filesData net (modIdOf e) = JNull).
Proof.
  intros Hnn. unfold member_ok.
  destruct (fetches_fresh net previousDataMap e); [|by left].
  destruct (filesData net (modIdOf e)); try (left; split; done). by right.
Qed.

End TimestampAbort.

Lemma ts_buildCuratedList_throws net entries cacheFile :
  Forall (fun e => e ≠ JNull) entries ->
  Exists (fun e => TimestampSpec.fetches_fresh net (loadPreviousCache cacheFile) e = true
                   /\ filesData net (modIdOf e) = JNull) entries ->
  exists c evs,
    Timestamp.buildCuratedList net (Some (JArr entries)) cacheFile initial
    = (Throw TypeError, after (mkState 0 []) c evs)
    /\ Forall (fun ev => is_write ev = false) evs.
Proof.
  intros Hnn Hex.
  set (pdm := loadPreviousCache cacheFile) in *.
  set (wm := SignalSpec.warningsMapOf entries).
  set (bad := fun e : json =>
                e = JNull
                \/ (TimestampSpec.fetches_fresh net pdm e = true
                    /\ filesData net (modIdOf e) = JNull)).
  unfold Timestamp.buildCuratedList.
  unfold lift at 1. unfold bind at 1. cbn [Timestamp.loadModsToProcess].
  unfold lift at 1. unfold bind at 1. rewrite buildWarningsMap_run by done.
  unfold bind at 1. unfold set_calls at 1.
  edestruct (gen_batchLoop_throws
               (Timestamp.fetchOne net wm pdm)
               (TimestampSpec.memberResult net wm pdm)
               (TimestampSpec.memberCalls net pdm)
               (TimestampSpec.memberTrace net pdm)
               (TimestampSpec.member_ok net pdm) bad)
    with (B := BATCH_SIZE) (fuel := S (length entries)) (mods := entries)
         (i := 0%nat) (fr := @nil jsobj) (st := mkState 0 (trace initial))
    as (c & evs & Hloop & Hevs).
  { intros e0.
    exact (proj2 (fetches_requests _ (ts_memberTrace_fetches net pdm e0))). }
  { intros e0 Hok0 st. by apply ts_fetchOne_run. }
  { intros e0 [->|[Hf0 Hfiles0]] st.
    - exists 0%nat, []. split; [|constructor].
      unfold Timestamp.fetchOne, lift, bind. cbn [js_get]. by rewrite after_0_nil.
    - destruct (json_is_null e0) as [->|Hnn0].
      + exists 0%nat, []. split; [|constructor].
        unfold Timestamp.fetchOne, lift, bind. cbn [js_get]. by rewrite after_0_nil.
      + eexists _, _. split; [by apply ts_fetchOne_throws | repeat constructor]. }
  { intros e0. destruct (json_is_null e0) as [->|Hnn0]; [right; by left|].
    destruct (ts_member_ok_or_throws net pdm e0 Hnn0) as [?|?]; [by left|].
    right. by right. }
  { unfold BATCH_SIZE. lia. }
  { rewrite drop_0. eapply Exists_impl; [exact Hex|]. intros e0 H0. by right. }
  { lia. }
  erewrite bind_throw by apply Hloop.
  exists c, evs. by split.
Qed.

(** X15. One malformed files answer costs the whole run of the timestamp
    version too. When an entry whose summary is fetched and whose cache
    cannot be reused gets a files answer with a success status and the
    body [null], the closure throws a [TypeError] at [filesData.files]:
    it has sent two requests and counted one, and the changelogs are not
    asked for. The run ends with that error, the exit status is 1 and no
    catalog is written. *)
Theorem timestamp_null_files_body_aborts_run net entries cacheFile e status :
  Forall (fun e => e ≠ JNull) entries ->
  e ∈ entries ->
  TimestampSpec.fetches_fresh net (loadPreviousCache cacheFile) e = true ->
  net (Files (modIdOf e)) = Response status (Some JNull) ->
  response_ok status = true ->
  (forall warningsMap st,
     Timestamp.fetchOne net warningsMap (loadPreviousCache cacheFile) e st
     = (Throw TypeError,
        after st 1 [Fetch (Info (modIdOf e)); Fetch (Files (modIdOf e))]))
  /\ exists st',
       Timestamp.buildCuratedList net (Some (JArr entries)) cacheFile initial
       = (Throw TypeError, st')
       /\ Forall (fun ev => is_write ev = false) (trace st')
       /\ written st' = None
       /\ Timestamp.main net (Some (JArr entries)) cacheFile = Some 1%Z.
Proof.
  intros Hnn He Hfresh Hnet Hok.
  assert (Hfiles : filesData net (modIdOf e) = JNull).
  { unfold filesData. by rewrite Hnet, Hok. }
  assert (He_nn : e ≠ JNull).
  { rewrite Forall_forall in Hnn. by apply Hnn. }
  split; [intros wm st; by apply ts_fetchOne_throws|].
  destruct (ts_buildCuratedList_throws net entries cacheFile Hnn)
    as (c & evs & Hrun & Hevs).
  { apply Exists_exists. exists e. by repeat split. }
  eexists. split; [exact Hrun|].
  split; [unfold after; cbn [trace app]; exact Hevs|].
  split; [unfold after; cbn [trace app apiCallCount]; by apply no_write_not_written|].
  unfold Timestamp.main, exit_status. by rewrite Hrun.
Qed.

Lemma timestamp_null_files_body_aborts_run_witness :
  Timestamp.main Cases.null_files (Some (JArr Examples.overlay)) None = Some 1%Z
  /\ Timestamp.main Examples.upstream (Some (JArr Examples.overlay)) None = Some 0%Z.
Proof.
  split; [|vm_compute; reflexivity].
  assert (Hnn : Forall (fun e => e ≠ JNull) Examples.overlay).
  { unfold Examples.overlay. repeat (apply List.Forall_cons; [discriminate|]).
    apply List.Forall_nil. }
  assert (He : Examples.entry20 ∈ Examples.overlay).
  { unfold Examples.overlay. apply elem_of_cons. right. apply elem_of_cons. by left. }
  assert (Hfresh : TimestampSpec.fetches_fresh Cases.null_files (loadPreviousCache None)
                     Examples.entry20 = true).
  { vm_compute. reflexivity. }
  assert (Hnet : Cases.null_files (Files (modIdOf Examples.entry20))
                 = Response 200 (Some JNull)).
  { vm_compute. reflexivity. }
  assert (Hstatus : response_ok 200 = true).
  { vm_compute. reflexivity. }
  destruct (timestamp_null_files_body_aborts_run Cases.null_files Examples.overlay
              None Examples.entry20 200 Hnn He Hfresh Hnet Hstatus)
    as (_ & st' & _ & _ & _ & Hmain).
  exact Hmain.
Defined.

(** ** A record written without files or changelogs, timestamp version *)

Section TimestampRefetch.
Import TimestampSpec.

Variable net : endpoint -> response.
Variable entries : list json.
Variable cacheFile : option json.

Hypothesis Hid : forall e, e ∈ entries ->
  truthy (infoData net (modIdOf e)) = true ->
  toString (prop (infoData net (modIdOf e)) "mod_id") = modIdOf e.

Lemma ts_result_key wm pdm e r :
  memberResult net wm pdm e = Some r ->
  truthy (infoData net (modIdOf e)) = true
  /\ field r "mod_id" = prop (infoData net (modIdOf e)) "mod_id".
Proof.
  unfold memberResult. destruct (truthy (infoData net (modIdOf e))); [|done].
  intros [= <-]. split; [done|]. by destruct (reuses net pdm e).
Qed.

Lemma ts_cache_after_run e r :
  e ∈ entries ->
  memberResult net (SignalSpec.warningsMapOf entries) (loadPreviousCache cacheFile) e
  = Some r ->
  loadPreviousCache (Some (JArr (map stringify (runResults net entries cacheFile))))
    !! modIdOf e
  = Some (stringify r).
Proof.
  intros He Hr. unfold loadPreviousCache at 1.
  rewrite setPrevious_last; cycle 1.
  { apply Forall_forall. intros c Hc.
    apply list_elem_of_fmap in Hc. by destruct Hc as (r' & -> & _). }
  destruct (ts_result_key _ _ _ _ Hr) as [Hinfo Hkey].
  destruct (last _) as [c|] eqn:Hlast.
  - apply last_Some_elem_of, list_elem_of_In, filter_In in Hlast.
    destruct Hlast as [Hin Hk]. apply bool_decide_eq_true in Hk.
    apply list_elem_of_In, list_elem_of_fmap in Hin.
    destruct Hin as (r' & -> & Hr').
    apply list_elem_of_omap in Hr' as (e' & He' & Hr').
    destruct (ts_result_key _ _ _ _ Hr') as [Hinfo' Hkey'].
    rewrite prop_stringify, Hkey', (Hid e' He' Hinfo') in Hk.
    assert (Hsame : memberResult net (SignalSpec.warningsMapOf entries)
                      (loadPreviousCache cacheFile) e'
                    = memberResult net (SignalSpec.warningsMapOf entries)
                        (loadPreviousCache cacheFile) e).
    { unfold memberResult, reuses. by rewrite Hk. }
    rewrite Hsame, Hr in Hr'. by injection Hr' as <-.
  - apply last_None in Hlast.
    assert (Hin : In (stringify r)
                    (List.filter
                       (fun c => bool_decide (toString (prop c "mod_id") = modIdOf e))
                       (map stringify (runResults net entries cacheFile)))).
    { apply filter_In. split.
      - apply list_elem_of_In, list_elem_of_fmap. exists r. split; [done|].
        apply list_elem_of_omap. by exists e.
      - apply bool_decide_eq_true. rewrite prop_stringify, Hkey. by apply Hid. }
    rewrite Hlast in Hin. destruct Hin.
Qed.

End TimestampRefetch.

Lemma ts_normal_run_ok net entries cacheFile s st :
  Forall (fun e => e ≠ JNull) entries ->
  Timestamp.buildCuratedList net (Some (JArr entries)) cacheFile initial
  = (Normal s, st) ->
  TimestampSpec.run_ok net entries cacheFile.
Proof.
  intros Hnn Hrun. unfold TimestampSpec.run_ok.
  assert (Hcase : Forall (TimestampSpec.member_ok net (loadPreviousCache cacheFile))
                    entries
                  \/ Exists (fun e => TimestampSpec.fetches_fresh net
                                        (loadPreviousCache cacheFile) e = true
                                      /\ filesData net (modIdOf e) = JNull) entries).
  { clear Hrun. induction Hnn as [|e l He _ IH]; [by left|].
    destruct (ts_member_ok_or_throws net (loadPreviousCache cacheFile) e He)
      as [Hok|Hbad]; [|right; by left].
    destruct IH as [IH|IH]; [left; by constructor | right; by right]. }
  destruct Hcase as [Hok|Hbad]; [done|].
  destruct (ts_buildCuratedList_throws net entries cacheFile Hnn Hbad)
    as (c & evs & Hthrow & _).
  rewrite Hthrow in Hrun. discriminate.
Qed.

(** X16. The timestamp version never settles on a mod whose files or
    changelogs come back unusable. When Nexus answers every summary
    request with the record of the identifier asked for, and the fresh
    fetch of an entry gets a files answer whose [files] is absent or falsy,
    or a changelogs answer that is falsy, the record is written as it is
    and the smart cache check rejects it on the next run: the entry needs
    a fresh fetch again, and a next run that ends normally asks Nexus for
    its files and changelogs once more. *)
Theorem timestamp_refetches_incomplete_record net entries cacheFile e :
  TimestampSpec.run_ok net entries cacheFile ->
  (forall e', e' ∈ entries ->
     truthy (infoData net (modIdOf e')) = true ->
     toString (prop (infoData net (modIdOf e')) "mod_id") = modIdOf e') ->
  e ∈ entries ->
  TimestampSpec.fetches_fresh net (loadPreviousCache cacheFile) e = true ->
  toBoolean (prop (filesData net (modIdOf e)) "files")
  && truthy (changelogsData net (modIdOf e)) = false ->
  exists s1 st1 catalog,
    Timestamp.buildCuratedList net (Some (JArr entries)) cacheFile initial
    = (Normal s1, st1)
    /\ written st1 = Some (JArr catalog)
    /\ TimestampSpec.fetches_fresh net (loadPreviousCache (Some (JArr catalog))) e = true
    /\ forall s2 st2,
         Timestamp.buildCuratedList net (Some (JArr entries)) (Some (JArr catalog))
           initial = (Normal s2, st2) ->
         Fetch (Files (modIdOf e)) ∈ requests (trace st2)
         /\ Fetch (Changelogs (modIdOf e)) ∈ requests (trace st2).
Proof.
  intros Hok Hid He Hfresh Hbad.
  assert (Hnn : Forall (fun e => e ≠ JNull) entries).
  { eapply Forall_impl; [exact Hok|]. by intros e0 [? _]. }
  destruct (timestamp_run_requests_aux net entries cacheFile Hok)
    as (s1 & st1 & Hrun1 & Hw1 & Hfin1 & _).
  exists s1, st1, (map stringify (TimestampSpec.runResults net entries cacheFile)).
  split; [exact Hrun1|]. split; [by rewrite Hw1, Hfin1|].
  pose proof Hfresh as Hfresh1.
  unfold TimestampSpec.fetches_fresh in Hfresh1.
  apply andb_true_iff in Hfresh1 as [Hinfo Hreuse]. apply negb_true_iff in Hreuse.
  assert (Hr : TimestampSpec.memberResult net (SignalSpec.warningsMapOf entries)
                 (loadPreviousCache cacheFile) e
               = Some (mergedRecord (SignalSpec.warningsMapOf entries !! modIdOf e)
                         (infoData net (modIdOf e))
                         (prop (filesData net (modIdOf e)) "files")
                         (Some (changelogsData net (modIdOf e))))).
  { unfold TimestampSpec.memberResult. by rewrite Hinfo, Hreuse. }
  assert (Hfresh2 : TimestampSpec.fetches_fresh net
                      (loadPreviousCache
                         (Some (JArr (map stringify
                            (TimestampSpec.runResults net entries cacheFile))))) e
                    = true).
  { unfold TimestampSpec.fetches_fresh, TimestampSpec.reuses.
    rewrite (ts_cache_after_run net entries cacheFile Hid e _ He Hr), Hinfo.
    unfold Timestamp.canReuse. rewrite !prop_stringify.
    rewrite field_mergedRecord_files, field_mergedRecord_changelogs.
    cbn [toBoolean] in *.
    apply andb_false_iff in Hbad as [->| ->];
      by rewrite ?andb_false_r. }
  split; [exact Hfresh2|].
  intros s2 st2 Hrun2.
  pose proof (ts_normal_run_ok _ _ _ _ _ Hnn Hrun2) as Hok2.
  destruct (timestamp_run_requests_aux net entries _ Hok2)
    as (s2' & st2' & Hrun2' & _ & _ & Hreq2 & _).
  rewrite Hrun2 in Hrun2'. injection Hrun2' as _ <-.
  rewrite Hreq2.
  assert (Hin : forall ev,
            ev ∈ [Fetch (Files (modIdOf e)); Fetch (Changelogs (modIdOf e))] ->
            ev ∈ concat (map (TimestampSpec.memberTrace net
                                (loadPreviousCache
                                   (Some (JArr (map stringify
                                      (TimestampSpec.runResults net entries cacheFile))))))
                           entries)).
  { intros ev Hev. apply list_elem_of_In, in_concat.
    eexists. split; [apply in_map; apply list_elem_of_In; exact He|].
    unfold TimestampSpec.memberTrace. rewrite Hfresh2.
    right. by apply list_elem_of_In. }
  split; apply Hin; [by left | right; by left].
Qed.

Lemma timestamp_refetches_incomplete_record_witness :
  exists s1 st1 catalog,
    Timestamp.buildCuratedList Cases.no_files_key (Some (JArr Examples.overlay)) None
      initial = (Normal s1, st1)
    /\ written st1 = Some (JArr catalog)
    /\ TimestampSpec.fetches_fresh Cases.no_files_key
         (loadPreviousCache (Some (JArr catalog))) Examples.entry20 = true
    /\ TimestampSpec.fetches_fresh Cases.no_files_key
         (loadPreviousCache (Some (JArr catalog))) Examples.entry10 = false.
Proof.
  assert (Hok : TimestampSpec.run_ok Cases.no_files_key Examples.overlay None).
  { unfold TimestampSpec.run_ok, Examples.overlay. ts_run_ok_tac. }
  assert (Hid : forall e', e' ∈ Examples.overlay ->
            truthy (infoData Cases.no_files_key (modIdOf e')) = true ->
            toString (prop (infoData Cases.no_files_key (modIdOf e')) "mod_id")
            = modIdOf e').
  { intros e' He' _. unfold Examples.overlay in He'.
    repeat (apply elem_of_cons in He' as [->|He']; [vm_compute; reflexivity|]).
    by apply elem_of_nil in He'. }
  assert (He : Examples.entry20 ∈ Examples.overlay).
  { unfold Examples.overlay. apply elem_of_cons. right. apply elem_of_cons. by left. }
  assert (Hfresh : TimestampSpec.fetches_fresh Cases.no_files_key
                     (loadPreviousCache None) Examples.entry20 = true).
  { vm_compute. reflexivity. }
  assert (Hbad : toBoolean (prop (filesData Cases.no_files_key
                                    (modIdOf Examples.entry20)) "files")
                 && truthy (changelogsData Cases.no_files_key
                              (modIdOf Examples.entry20)) = false).
  { vm_compute. reflexivity. }
  destruct (timestamp_refetches_incomplete_record Cases.no_files_key Examples.overlay
              None Examples.entry20 Hok Hid He Hfresh Hbad)
    as (s1 & st1 & catalog & Hrun1 & Hw1 & Hfresh2 & _).
  exists s1, st1, catalog.
  split; [exact Hrun1|]. split; [exact Hw1|]. split; [exact Hfresh2|].
  assert (Hsettled : match Timestamp.buildCuratedList Cases.no_files_key
                             (Some (JArr Examples.overlay)) None initial with
                     | (Normal _, st) =>
                         match written st with
                         | Some c =>
                             TimestampSpec.fetches_fresh Cases.no_files_key
                               (loadPreviousCache (Some c)) Examples.entry10
                         | None => true
                         end
                     | _ => true
                     end = false) by (vm_compute; reflexivity).
  rewrite Hrun1 in Hsettled. rewrite Hw1 in Hsettled. exact Hsettled.
Defined.

(** ** The two versions on a first run *)

Lemma omap_ext_in {A B} (f g : A -> option B) (l : list A) :
  (forall a, a ∈ l -> f a = g a) -> omap f l = omap g l.
Proof.
  induction l as [|a l IH]; intros H; [done|].
  cbn [omap list_omap]. rewrite (H a) by (by left).
  rewrite IH; [done|]. intros a' Ha'. apply H. by right.
Qed.

(** X17. On a first run the two versions write the same catalog. When
    there is no previous catalog to read (or an empty one), every entry of
    the curation file has a usable identifier, and every summary that is
    fetched comes with truthy files and changelogs, the signal version and
    the timestamp version end normally with the same records in the same
    order; the signal version sends the same per-mod requests after the
    request for the update list, and counts one call more. *)
Theorem versions_agree_on_first_run net entries cacheFile :
  (forall l, cacheFile = Some (JArr l) -> l = []) ->
  Forall (fun e => e ≠ JNull /\ SignalSpec.kept e = true) entries ->
  (forall e, e ∈ entries ->
     truthy (infoData net (modIdOf e)) = true ->
     toBoolean (prop (filesData net (modIdOf e)) "files") = true
     /\ truthy (changelogsData net (modIdOf e)) = true) ->
  exists s st t st' catalog,
    Signal.buildCuratedList net (Some (JArr entries)) cacheFile initial
    = (Normal s, st)
    /\ Timestamp.buildCuratedList net (Some (JArr entries)) cacheFile initial
       = (Normal t, st')
    /\ written st = Some (JArr catalog)
    /\ written st' = Some (JArr catalog)
    /\ Signal.finalResults s = Timestamp.finalResults t
    /\ requests (trace st) = Fetch Updated :: requests (trace st')
    /\ Signal.totalApiCalls s = S (Timestamp.totalApiCalls t).
Proof.
  intros Hempty Hentries Hcomplete.
  assert (Hcache : loadPreviousCache cacheFile = ∅).
  { destruct cacheFile as [[]|]; try done. by rewrite (Hempty l eq_refl). }
  assert (Hnn : Forall (fun e => e ≠ JNull) entries).
  { eapply Forall_impl; [exact Hentries|]. by intros e [? _]. }
  assert (Htracked : SignalSpec.tracked entries = entries).
  { unfold SignalSpec.tracked.
    destruct (filter_all SignalSpec.kept entries) as [-> _]; [|done].
    intros e He. apply list_elem_of_In in He.
    rewrite Forall_forall in Hentries. by destruct (Hentries e He). }
  assert (Hnew : forall e, SignalSpec.is_reuse net cacheFile e = false).
  { intros e. unfold SignalSpec.is_reuse, SignalSpec.decisionOf.
    by rewrite Hcache, lookup_empty. }
  assert (Hfetch : SignalSpec.toFetch net entries cacheFile = entries).
  { unfold SignalSpec.toFetch. rewrite Htracked.
    destruct (filter_all (fun e => negb (SignalSpec.is_reuse net cacheFile e)) entries)
      as [-> _]; [|done].
    intros e _. by rewrite Hnew. }
  assert (Hreused : SignalSpec.reused net entries cacheFile = []).
  { unfold SignalSpec.reused.
    destruct (filter_all (fun e => negb (SignalSpec.is_reuse net cacheFile e))
                (SignalSpec.tracked entries)) as [_ Hnone].
    { intros e _. by rewrite Hnew. }
    rewrite <- Hnone. apply filter_ext. intros e. by rewrite negb_involutive. }
  assert (Hfiles : forall e, e ∈ entries ->
            truthy (infoData net (modIdOf e)) = true ->
            filesData net (modIdOf e) ≠ JNull).
  { intros e He Hinfo Hnull. destruct (Hcomplete e He Hinfo) as [Hf _].
    by rewrite Hnull in Hf. }
  assert (Hfresh : forall e,
            TimestampSpec.fetches_fresh net (loadPreviousCache cacheFile) e
            = truthy (infoData net (modIdOf e))).
  { intros e. unfold TimestampSpec.fetches_fresh, TimestampSpec.reuses.
    rewrite Hcache, lookup_empty. cbn [Timestamp.canReuse negb].
    by rewrite andb_true_r. }
  assert (Hok_s : SignalSpec.run_ok net entries cacheFile).
  { split; [exact Hnn|]. rewrite Hfetch. apply Forall_forall. intros e He.
    split; [rewrite Forall_forall in Hnn; by apply Hnn | by apply Hfiles]. }
  assert (Hok_t : TimestampSpec.run_ok net entries cacheFile).
  { apply Forall_forall. intros e He.
    split; [rewrite Forall_forall in Hnn; by apply Hnn|].
    rewrite Hfresh. by apply Hfiles. }
  assert (Hresults : SignalSpec.runResults net entries cacheFile
                     = TimestampSpec.runResults net entries cacheFile).
  { unfold SignalSpec.runResults, TimestampSpec.runResults.
    rewrite Hreused, Hfetch, Htracked. cbn [map app]. rewrite omap_id_map.
    apply omap_ext_in. intros e He.
    unfold SignalSpec.memberResult, TimestampSpec.memberResult, TimestampSpec.reuses.
    rewrite Hcache, lookup_empty. cbn [Timestamp.canReuse].
    destruct (truthy (infoData net (modIdOf e))) eqn:Hinfo; [|done].
    destruct (Hcomplete e He Hinfo) as [Hf Hc].
    unfold Signal.fetchedRecord, Signal.or_else. rewrite Hc.
    destruct (prop (filesData net (modIdOf e)) "files") as [j|]; [|done].
    cbn [toBoolean] in Hf. by rewrite Hf. }
  assert (Htraces : forall l,
            concat (map (SignalSpec.memberTrace net) l)
            = concat (map (TimestampSpec.memberTrace net (loadPreviousCache cacheFile)) l)).
  { induction l as [|e l IH]; [done|].
    cbn [map concat]. rewrite IH. f_equal.
    unfold SignalSpec.memberTrace, TimestampSpec.memberTrace. by rewrite Hfresh. }
  assert (Hcalls : forall l,
            sum_list_with (SignalSpec.memberCalls net) l
            = sum_list_with (TimestampSpec.memberCalls net (loadPreviousCache cacheFile)) l).
  { induction l as [|e l IH]; [done|].
    cbn [sum_list_with]. rewrite IH. f_equal.
    unfold SignalSpec.memberCalls, TimestampSpec.memberCalls. by rewrite Hfresh. }
  destruct (ts_buildCuratedList_run net entries cacheFile Hok_t) as (evs & Hrun_t & Hreq_t).
  eexists _, _, _, _, _.
  split; [by apply buildCuratedList_run|].
  split; [exact Hrun_t|].
  cbn [Signal.finalResults Timestamp.finalResults Signal.totalApiCalls
       Timestamp.totalApiCalls trace].
  split.
  { unfold written, SignalSpec.runTrace. cbn [trace].
    rewrite !app_assoc, last_snoc. reflexivity. }
  split; [unfold written; cbn [trace]; by rewrite last_snoc, Hresults|].
  split; [exact Hresults|].
  split.
  { rewrite requests_runTrace, requests_app, Hreq_t, Hfetch.
    unfold TimestampSpec.runRequests. rewrite Htraces.
    cbn [requests List.filter is_fetch]. by rewrite app_nil_r. }
  unfold SignalSpec.runCalls, TimestampSpec.runCalls. rewrite Hfetch, Hcalls. done.
Qed.

Lemma versions_agree_on_first_run_witness :
  exists s st t st' catalog,
    Signal.buildCuratedList Cases.complete_upstream (Some (JArr Examples.overlay))
      None initial = (Normal s, st)
    /\ Timestamp.buildCuratedList Cases.complete_upstream
         (Some (JArr Examples.overlay)) None initial = (Normal t, st')
    /\ written st = Some (JArr catalog)
    /\ written st' = Some (JArr catalog)
    /\ Signal.totalApiCalls s = 10%nat
    /\ Timestamp.totalApiCalls t = 9%nat.
Proof.
  assert (Hnone : forall l, @None json = Some (JArr l) -> l = [])
    by (intros l H; discriminate H).
  assert (Hentries : Forall (fun e => e ≠ JNull /\ SignalSpec.kept e = true)
                       Examples.overlay).
  { unfold Examples.overlay.
    repeat (apply List.Forall_cons; [split; [discriminate | vm_compute; reflexivity]|]).
    apply List.Forall_nil. }
  assert (Hcomplete : forall e, e ∈ Examples.overlay ->
            truthy (infoData Cases.complete_upstream (modIdOf e)) = true ->
            toBoolean (prop (filesData Cases.complete_upstream (modIdOf e)) "files")
            = true
            /\ truthy (changelogsData Cases.complete_upstream (modIdOf e)) = true).
  { intros e He _. unfold Examples.overlay in He.
    repeat (apply elem_of_cons in He as [->|He];
            [split; vm_compute; reflexivity|]).
    by apply elem_of_nil in He. }
  destruct (versions_agree_on_first_run Cases.complete_upstream Examples.overlay None
              Hnone Hentries Hcomplete)
    as (s & st & t & st' & catalog & Hs & Ht & Hw & Hw' & _ & _ & Hcalls).
  assert (Hcalls_t : match Timestamp.buildCuratedList Cases.complete_upstream
                             (Some (JArr Examples.overlay)) None initial with
                     | (Normal t, _) => Timestamp.totalApiCalls t
                     | _ => 0%nat
                     end = 9%nat) by (vm_compute; reflexivity).
  rewrite Ht in Hcalls_t.
  exists s, st, t, st', catalog.
  split; [exact Hs|]. split; [exact Ht|]. split; [exact Hw|]. split; [exact Hw'|].
  split; [by rewrite Hcalls, Hcalls_t | exact Hcalls_t].
Defined.

(** ** The fields of a record of the timestamp version *)

(** X18. In the timestamp version every record carries the summary that
    Nexus has just sent, also when the smart cache check succeeds: only
    [files] and [changelogs] come from the cached record then, and from
    the two further requests otherwise. [state] and [warningMessage] are
    those of the last entry of the curation file with the same identifier,
    or ["normal"] and the empty string when that entry is falsy. *)
Theorem timestamp_record_fields net entries cacheFile :
  TimestampSpec.run_ok net entries cacheFile ->
  exists s st',
    Timestamp.buildCuratedList net (Some (JArr entries)) cacheFile initial
    = (Normal s, st')
    /\ forall e, e ∈ entries ->
       truthy (infoData net (modIdOf e)) = true ->
       exists r w,
         r ∈ Timestamp.finalResults s
         /\ last (List.filter (fun e' => bool_decide (modIdOf e' = modIdOf e)) entries)
            = Some w
         /\ field r "state"
            = (if truthy w then prop w "state" else Some (JStr "normal"))
         /\ field r "warningMessage"
            = (if truthy w then prop w "warningMessage" else Some (JStr ""))
         /\ (forall key,
               key ∈ ["mod_id"; "name"; "summary"; "version"; "picture_url";
                      "author"; "mod_downloads"; "endorsement_count";
                      "updated_timestamp"; "created_timestamp"; "description"] ->
               field r key = prop (infoData net (modIdOf e)) key)
         /\ (TimestampSpec.reuses net (loadPreviousCache cacheFile) e = true ->
             exists c,
               loadPreviousCache cacheFile !! modIdOf e = Some c
               /\ field r "files" = prop c "files"
               /\ field r "changelogs" = prop c "changelogs")
         /\ (TimestampSpec.reuses net (loadPreviousCache cacheFile) e = false ->
             field r "files" = prop (filesData net (modIdOf e)) "files"
             /\ field r "changelogs" = Some (changelogsData net (modIdOf e))).
Proof.
  intros Hok.
  destruct (timestamp_run_requests_aux net entries cacheFile Hok)
    as (s & st' & Hrun & _ & Hfin & _).
  exists s, st'. split; [exact Hrun|].
  intros e He Hinfo. rewrite Hfin.
  destruct (warningsMapOf_tracked entries e He) as [w Hw].
  pose proof Hw as Hlast. rewrite warningsMapOf_lookup in Hlast.
  assert (Hr : exists files changelogs,
            TimestampSpec.memberResult net (SignalSpec.warningsMapOf entries)
              (loadPreviousCache cacheFile) e
            = Some (mergedRecord (Some w) (infoData net (modIdOf e)) files changelogs)
            /\ (TimestampSpec.reuses net (loadPreviousCache cacheFile) e = true ->
                files = Timestamp.cachedProp
                          (loadPreviousCache cacheFile !! modIdOf e) "files"
                /\ changelogs = Timestamp.cachedProp
                                  (loadPreviousCache cacheFile !! modIdOf e)
                                  "changelogs")
            /\ (TimestampSpec.reuses net (loadPreviousCache cacheFile) e = false ->
                files = prop (filesData net (modIdOf e)) "files"
                /\ changelogs = Some (changelogsData net (modIdOf e)))).
  { unfold TimestampSpec.memberResult. rewrite Hinfo, Hw.
    destruct (TimestampSpec.reuses net (loadPreviousCache cacheFile) e);
      eexists _, _; (split; [reflexivity|]); split; intros H; done. }
  destruct Hr as (files & changelogs & Hr & Hreuse & Hfresh).
  eexists _, w. split.
  { unfold TimestampSpec.runResults. apply list_elem_of_omap. exists e. by split. }
  split; [exact Hlast|].
  split; [reflexivity|]. split; [reflexivity|].
  split.
  { intros key Hkey.
    repeat (apply elem_of_cons in Hkey as [->|Hkey]; [reflexivity|]).
    by apply elem_of_nil in Hkey. }
  split.
  - intros Hre. destruct (Hreuse Hre) as [-> ->].
    unfold TimestampSpec.reuses, Timestamp.canReuse in Hre.
    destruct (loadPreviousCache cacheFile !! modIdOf e) as [c|]; [|done].
    exists c. by repeat split.
  - intros Hre. destruct (Hfresh Hre) as [-> ->]. by split.
Qed.

Lemma timestamp_record_fields_witness :
  exists s st' r,
    Timestamp.buildCuratedList Examples.upstream (Some (JArr Examples.overlay_file))
      Examples.cache_file initial = (Normal s, st')
    /\ r ∈ Timestamp.finalResults s
    /\ field r "state" = Some (JStr "broken")
    /\ field r "mod_id" = Some (JNum 20).
Proof.
  assert (Hok : TimestampSpec.run_ok Examples.upstream Examples.overlay_file
                  Examples.cache_file).
  { unfold TimestampSpec.run_ok, Examples.overlay_file. ts_run_ok_tac. }
  destruct (timestamp_record_fields _ _ _ Hok) as (s & st' & Hrun & Hfields).
  assert (He : Examples.entry20 ∈ Examples.overlay_file).
  { unfold Examples.overlay_file. do 2 (apply elem_of_cons; right).
    apply elem_of_cons. by left. }
  assert (Hinfo : truthy (infoData Examples.upstream (modIdOf Examples.entry20)) = true)
    by (vm_compute; reflexivity).
  destruct (Hfields Examples.entry20 He Hinfo)
    as (r & w & Hr & Hw & Hstate & _ & Hkeys & _).
  exists s, st', r. split; [exact Hrun|]. split; [exact Hr|].
  assert (Hw' : last (List.filter
                        (fun e' => bool_decide (modIdOf e' = modIdOf Examples.entry20))
                        Examples.overlay_file) = Some Examples.entry20)
    by (vm_compute; reflexivity).
  rewrite Hw' in Hw. injection Hw as <-.
  split.
  - rewrite Hstate. vm_compute. reflexivity.
  - rewrite (Hkeys "mod_id") by (by left). vm_compute. reflexivity.
Defined.
